(** * Magic-slides-ai: session store, generation client, export pipeline

    A shallow embedding of the TypeScript sources

      - [src/app/lib/chat-history.ts]   (class [ChatHistoryService])
      - [src/app/lib/gemini-client.ts]  (class [GeminiService])
      - [lib/ppt-generator.ts]          ([generatePresentation], [createSimpleSlide])
      - [src/app/components/SlidePreview.tsx] ([handleSave])

    and the properties of these functions that the specification states.

    Conventions of the embedding.
      - A JavaScript string is the list of its UTF-16 code units, each
        a number of type [N]; [lit] injects an ASCII literal.
      - A JavaScript number that is used as a fraction (progress
        percentages, slide coordinates) is an exact rational of type [Q];
        rounding of IEEE doubles is not modelled.
      - An array is a list; [a[i]] is the lookup [a !! i].
      - A function that can throw returns a [result]; a function with side
        effects threads the state it acts on. *)

From Stdlib Require Import String Ascii NArith ZArith QArith Lia DecimalString.
From stdpp Require Import base numbers list sorting.

Set Default Proof Using "Type".
Local Open Scope N_scope.

(* ================================================================== *)
(** * JavaScript strings *)
(* ================================================================== *)

Abbreviation jsstring := (list N).

Module JsString.

(** An ASCII literal as a sequence of code units. *)
Definition lit (s : string) : jsstring :=
  N_of_ascii <$> list_ascii_of_string s.

(** [String(n)] for a non-negative integer [n]. *)
Definition decimal (n : N) : jsstring :=
  lit (NilEmpty.string_of_uint (N.to_uint n)).

(** ECMAScript [WhiteSpace] and [LineTerminator] code units: what
    [String.prototype.trim] strips and what [\s] matches. *)
Definition is_white_space (c : N) : bool :=
  bool_decide (c ∈ [9; 10; 11; 12; 13; 32; 160; 5760; 8232; 8233;
                    8239; 8287; 12288; 65279])
  || ((8192 <=? c) && (c <=? 8202)).

Fixpoint trimStart (s : jsstring) : jsstring :=
  match s with
  | [] => []
  | c :: r => if is_white_space c then trimStart r else s
  end.

Fixpoint trimEnd (s : jsstring) : jsstring :=
  match s with
  | [] => []
  | c :: r =>
      match trimEnd r with
      | [] => if is_white_space c then [] else [c]
      | r' => c :: r'
      end
  end.

(** [s.trim()] *)
Definition trim (s : jsstring) : jsstring := trimEnd (trimStart s).

(** [s.split(sep)] for a separator of one code unit.  The result is
    never empty: [''.split(' ')] is [['']]. *)
Fixpoint split (sep : N) (s : jsstring) : list jsstring :=
  match s with
  | [] => [[]]
  | c :: r =>
      if c =? sep then [] :: split sep r
      else match split sep r with
           | seg :: segs => (c :: seg) :: segs
           | [] => [[c]]
           end
  end.

(** [parts.join(sep)] *)
Fixpoint join (sep : jsstring) (parts : list jsstring) : jsstring :=
  match parts with
  | [] => []
  | [p] => p
  | p :: rest => p ++ sep ++ join sep rest
  end.

(** [s.startsWith(p)] *)
Fixpoint startsWith (p s : jsstring) : bool :=
  match p, s with
  | [], _ => true
  | a :: p', b :: s' => (a =? b) && startsWith p' s'
  | _ :: _, [] => false
  end.

(** A string is truthy when it is not empty. *)
Definition truthy (s : jsstring) : bool :=
  match s with [] => false | _ :: _ => true end.

#[global] Arguments lit : simpl never.
#[global] Arguments decimal : simpl never.

End JsString.

Import JsString.

Definition SPACE : N := 32.
Definition NEWLINE : N := 10.

(* ================================================================== *)
(** * Results of functions that can throw *)
(* ================================================================== *)

(** A JavaScript [Error] object, identified by its [message]. *)
Record Error := mkError { message : jsstring }.

#[global] Instance Error_eq_dec : EqDecision Error.
Proof. solve_decision. Defined.

Inductive result (A : Type) : Type :=
| Return (a : A)
| Throw (e : Error).
Arguments Return {A} a.
Arguments Throw {A} e.

(* ================================================================== *)
(** * The slide document (interface [Slide]) *)
(* ================================================================== *)

Module Slide.
(** [layout] is declared as the union
    ['TITLE' | 'TITLE_CONTENT' | 'SECTION_HEADER'], but the values come
    unchecked from the parsed model response, so it is kept as a
    string. *)
Record t := mk {
  title : jsstring;
  content : list jsstring;
  layout : jsstring
}.
End Slide.

#[global] Instance Slide_eq_dec : EqDecision Slide.t.
Proof. solve_decision. Defined.

Definition TITLE : jsstring := lit "TITLE".
Definition TITLE_CONTENT : jsstring := lit "TITLE_CONTENT".
Definition SECTION_HEADER : jsstring := lit "SECTION_HEADER".

(* ================================================================== *)
(** * Session store ([chat-history.ts]) *)
(* ================================================================== *)

(** A [Date] is its time value in milliseconds. *)
Abbreviation Date := N (only parsing).

Module ChatMessage.
Record t := mk {
  id : jsstring;
  text : jsstring;
  isUser : bool;
  timestamp : Date;
  slides : option (list Slide.t)
}.

(** [{ ...message, slides }] *)
Definition with_slides (m : t) (sl : list Slide.t) : t :=
  {| id := id m; text := text m; isUser := isUser m;
     timestamp := timestamp m; slides := Some sl |}.
End ChatMessage.

Module ChatSession.
Record t := mk {
  id : jsstring;
  title : jsstring;
  messages : list ChatMessage.t;
  createdAt : Date;
  updatedAt : Date
}.
End ChatSession.

#[global] Instance ChatMessage_eq_dec : EqDecision ChatMessage.t.
Proof. solve_decision. Defined.
#[global] Instance ChatSession_eq_dec : EqDecision ChatSession.t.
Proof. solve_decision. Defined.

Module ChatHistoryService.

(** The value kept under [STORAGE_KEY].  [saveSessions] writes
    [JSON.stringify(sessions)]; [getSessions] reads it back with
    [JSON.parse] and turns the ISO date strings into [Date]s again, so a
    blob written by the service is represented by the collection it
    encodes.  [Corrupt] stands for any other non-empty text: one on
    which [JSON.parse], or the mapping over the parsed value, throws. *)
Inductive item :=
| Corrupt
| Serialized (sessions : list ChatSession.t).

(** The service instance together with the part of the browser it
    touches.  [localStorage = None] is [getItem] returning [null] (an
    empty string is falsy too and read the same way). *)
Record Service := mkService {
  window : bool;                       (* typeof window !== 'undefined' *)
  localStorage : option item;
  currentSessionId : option jsstring;  (* string | null *)
  console : list jsstring              (* console.error output *)
}.

Definition set_localStorage (v : option item) (s : Service) : Service :=
  {| window := window s; localStorage := v;
     currentSessionId := currentSessionId s; console := console s |}.

Definition set_currentSessionId (v : option jsstring) (s : Service) : Service :=
  {| window := window s; localStorage := localStorage s;
     currentSessionId := v; console := console s |}.

Definition console_error (line : jsstring) (s : Service) : Service :=
  {| window := window s; localStorage := localStorage s;
     currentSessionId := currentSessionId s;
     console := console s ++ [line] |}.

(** [!this.currentSessionId] is true for [null] and for [''] *)
Definition has_current (s : Service) : bool :=
  match currentSessionId s with
  | Some sid => truthy sid
  | None => false
  end.

Definition getSessions (s : Service) : list ChatSession.t * Service :=
  if negb (window s) then ([], s)
  else match localStorage s with
       | None => ([], s)
       | Some (Serialized sessions) => (sessions, s)
       | Some Corrupt =>
           ([], console_error (lit "Error loading chat sessions:") s)
       end.

Definition saveSessions (sessions : list ChatSession.t) (s : Service) : Service :=
  if window s then set_localStorage (Some (Serialized sessions)) s else s.

(** [Date.now().toString() + Math.random().toString(36).substr(2, 9)];
    [rnd] is the random suffix. *)
Definition generateId (now : Date) (rnd : jsstring) : jsstring :=
  decimal now ++ rnd.

Definition generateSessionTitle (firstMessage : jsstring) : jsstring :=
  let words := join [SPACE] (take 5 (split SPACE firstMessage)) in
  if bool_decide (30 < length words)%nat
  then take 30 words ++ lit "..."
  else words.

(** [title = None] is the call without argument, which takes the default
    ['New Presentation'].  The clock is read once per call. *)
Definition createNewSession (now : Date) (rnd : jsstring)
    (title : option jsstring) (s : Service) : ChatSession.t * Service :=
  let newSession :=
    {| ChatSession.id := generateId now rnd;
       ChatSession.title := default (lit "New Presentation") title;
       ChatSession.messages := [];
       ChatSession.createdAt := now;
       ChatSession.updatedAt := now |} in
  let '(sessions, s1) := getSessions s in
  let s2 := saveSessions (newSession :: sessions) s1 in
  (newSession, set_currentSessionId (Some (ChatSession.id newSession)) s2).

Definition ensureDefaultSession (now : Date) (rnd : jsstring)
    (s : Service) : Service :=
  let '(sessions, s1) := getSessions s in
  match sessions with
  | [] => snd (createNewSession now rnd (Some (lit "New Presentation")) s1)
  | first :: _ => set_currentSessionId (Some (ChatSession.id first)) s1
  end.

(** [sessions.findIndex(s => s.id === this.currentSessionId)] with the
    session found; [None] is the index [-1]. *)
Definition findCurrent (s : Service) (sessions : list ChatSession.t)
    : option (nat * ChatSession.t) :=
  list_find (λ sess, Some (ChatSession.id sess) = currentSessionId s) sessions.

Definition getCurrentSession (s : Service) : option ChatSession.t * Service :=
  if negb (has_current s) then (None, s)
  else let '(sessions, s1) := getSessions s in
       (snd <$> findCurrent s1 sessions, s1).

Definition setCurrentSession (sessionId : jsstring) (s : Service) : Service :=
  set_currentSessionId (Some sessionId) s.

Definition addMessageToCurrentSession (now : Date) (rnd : jsstring)
    (message : ChatMessage.t) (slides : option (list Slide.t))
    (s : Service) : Service :=
  let s0 :=
    if negb (has_current s)
    then snd (createNewSession now rnd
                (Some (generateSessionTitle (ChatMessage.text message))) s)
    else s in
  let '(sessions, s1) := getSessions s0 in
  match findCurrent s1 sessions with
  | Some (sessionIndex, session) =>
      let messageWithSlides :=
        match slides with
        | Some sl => ChatMessage.with_slides message sl
        | None => message
        end in
      let messages := ChatSession.messages session ++ [messageWithSlides] in
      let title :=
        if ChatMessage.isUser message
           && bool_decide (length (filter (λ m, ChatMessage.isUser m = true) messages) = 1%nat)
        then generateSessionTitle (ChatMessage.text message)
        else ChatSession.title session in
      let session' :=
        {| ChatSession.id := ChatSession.id session;
           ChatSession.title := title;
           ChatSession.messages := messages;
           ChatSession.createdAt := ChatSession.createdAt session;
           ChatSession.updatedAt := now |} in
      saveSessions (<[sessionIndex := session']> sessions) s1
  | None => s1
  end.

Definition updateCurrentSessionSlides (now : Date) (slides : list Slide.t)
    (s : Service) : Service :=
  if negb (has_current s) then s
  else
    let '(sessions, s1) := getSessions s in
    match findCurrent s1 sessions with
    | Some (sessionIndex, session) =>
        let messages := ChatSession.messages session in
        if bool_decide (0 < length messages)%nat then
          let lastMessageIndex := (length messages - 1)%nat in
          match messages !! lastMessageIndex with
          | Some lastMessage =>
              if negb (ChatMessage.isUser lastMessage) then
                let session' :=
                  {| ChatSession.id := ChatSession.id session;
                     ChatSession.title := ChatSession.title session;
                     ChatSession.messages :=
                       <[lastMessageIndex :=
                           ChatMessage.with_slides lastMessage slides]> messages;
                     ChatSession.createdAt := ChatSession.createdAt session;
                     ChatSession.updatedAt := now |} in
                saveSessions (<[sessionIndex := session']> sessions) s1
              else s1
          | None => s1
          end
        else s1
    | None => s1
    end.

Definition deleteSession (sessionId : jsstring) (s : Service) : Service :=
  let '(all, s1) := getSessions s in
  let sessions := filter (λ sess, ChatSession.id sess ≠ sessionId) all in
  let s2 := saveSessions sessions s1 in
  if bool_decide (currentSessionId s2 = Some sessionId)
  then set_currentSessionId (ChatSession.id <$> head sessions) s2
  else s2.

Definition clearAllSessions (now : Date) (rnd : jsstring) (s : Service) : Service :=
  ensureDefaultSession now rnd (set_currentSessionId None (saveSessions [] s)).

(** [new ChatHistoryService()] *)
Definition new (now : Date) (rnd : jsstring) (win : bool)
    (stored : option item) : Service :=
  ensureDefaultSession now rnd
    {| window := win; localStorage := stored;
       currentSessionId := None; console := [] |}.

End ChatHistoryService.

(* ================================================================== *)
(** * Generation client ([gemini-client.ts]) *)
(* ================================================================== *)

(** Values produced by [JSON.parse]. *)
Module Json.

#[local] Unset Elimination Schemes.
Inductive value :=
| Null
| Bool (b : bool)
| Number (q : Q)
| String (s : jsstring)
| Array (items : list value)
| Object (fields : list (jsstring * value)).   (* own properties, one entry per key *)
#[local] Set Elimination Schemes.

(** [v.key]: [undefined] ([None]) when the property is absent; reading a
    property of [null] throws a [TypeError]. *)
Definition get (key : jsstring) (v : value) : result (option value) :=
  match v with
  | Null => Throw (mkError (lit "Cannot read properties of null"))
  | Object fields =>
      Return (snd <$> (snd <$> list_find (λ kv, fst kv = key) fields))
  | _ => Return None
  end.

(** [!!v] for a property read. *)
Definition truthy (v : option value) : bool :=
  match v with
  | None | Some Null => false
  | Some (Bool b) => b
  | Some (Number q) => negb (Qeq_bool q 0)
  | Some (String s) => JsString.truthy s
  | Some (Array _) | Some (Object _) => true
  end.

(** [Array.isArray(v)] *)
Definition isArray (v : option value) : bool :=
  match v with Some (Array _) => true | _ => false end.

End Json.

Definition try_catch {A} (body : result A) (handler : Error → result A) : result A :=
  match body with
  | Return a => Return a
  | Throw e => handler e
  end.

Module GeminiService.

Definition BACKTICK : N := 96.
Definition OPEN_BRACE : N := 123.
Definition CLOSE_BRACE : N := 125.
Definition FENCE : jsstring := [BACKTICK; BACKTICK; BACKTICK].
Definition FENCE_JSON : jsstring := FENCE ++ lit "json".

(** Length of the longest prefix of white space, the match of [\s*]. *)
Fixpoint white_space_run (s : jsstring) : nat :=
  match s with
  | c :: r => if is_white_space c then S (white_space_run r) else 0%nat
  | [] => 0%nat
  end.

(** Length of the match of the pattern [```json\s*|\s*```] at the start of
    [s], or [0] when it does not match there (a match is never empty).
    The left alternative is tried first; in the right one the greedy
    [\s*] must be followed by the fence, and giving back white space
    cannot help since the fence does not start with white space. *)
Definition fence_match (s : jsstring) : nat :=
  if startsWith FENCE_JSON s
  then (length FENCE_JSON + white_space_run (drop (length FENCE_JSON) s))%nat
  else
    let n := white_space_run s in
    if startsWith FENCE (drop n s) then (n + length FENCE)%nat else 0%nat.

(** [text.replace(/```json\s*|\s*```/g, '')], scanning from the left;
    [skip] counts the code units of the current match still to drop. *)
Fixpoint replace_fences_from (skip : nat) (s : jsstring) : jsstring :=
  match s with
  | [] => []
  | c :: r =>
      match skip with
      | S k => replace_fences_from k r
      | O =>
          match fence_match s with
          | S k => replace_fences_from k r
          | O => c :: replace_fences_from 0 r
          end
      end
  end.

Definition replace_fences (text : jsstring) : jsstring :=
  replace_fences_from 0 text.

(** The suffix of [s] that starts at the first [c]. *)
Fixpoint from_first (c : N) (s : jsstring) : option jsstring :=
  match s with
  | [] => None
  | x :: r => if x =? c then Some s else from_first c r
  end.

(** The prefix of [s] that ends at the last [c]. *)
Fixpoint through_last (c : N) (s : jsstring) : option jsstring :=
  match s with
  | [] => None
  | x :: r =>
      match through_last c r with
      | Some p => Some (x :: p)
      | None => if x =? c then Some [x] else None
      end
  end.

(** [s.match(/\{[\s\S]*\}/)]: from the first opening brace through the
    last closing brace after it; [None] is the [null] of no match. *)
Definition match_object (s : jsstring) : option jsstring :=
  match from_first OPEN_BRACE s with
  | Some (b :: r) => (λ body, b :: body) <$> through_last CLOSE_BRACE r
  | _ => None
  end.

Definition PARSE_FAILED : Error :=
  mkError (lit "Failed to parse AI response. Please try again.").

Definition GENERATION_FAILED : Error :=
  mkError (lit "Failed to generate presentation content. Please try again.").

Section Service.

(** The parts of the run-time and of the remote model the service
    calls. *)
Variable JSON_parse : jsstring → result Json.value.
Variable JSON_stringify : list Slide.t → jsstring.
(** [this.model.generateContent(p)] followed by [response.text()] *)
Variable generateContent : jsstring → result jsstring.
(** The fixed instruction text that opens the system prompt. *)
Variable INSTRUCTIONS : jsstring.

Definition buildSystemPrompt (existingSlides : list Slide.t) : jsstring :=
  if bool_decide (0 < length existingSlides)%nat
  then INSTRUCTIONS
       ++ [NEWLINE; NEWLINE] ++ lit "EXISTING SLIDES: "
       ++ JSON_stringify existingSlides
       ++ [NEWLINE; NEWLINE]
       ++ lit "MODIFY the existing slides based on the user's request. Keep what works, change what doesn't."
  else INSTRUCTIONS
       ++ [NEWLINE; NEWLINE]
       ++ lit "CREATE a new presentation based on the user's request.".

(** The body of the [try] block of [parseResponse]. *)
Definition parseResponse_body (text : jsstring) : result (list Json.value) :=
  let cleanedText := trim (replace_fences text) in
  match match_object cleanedText with
  | None => Throw (mkError (lit "No JSON found in response"))
  | Some jsonMatch =>
      match JSON_parse jsonMatch with
      | Throw e => Throw e
      | Return parsed =>
          match Json.get (lit "slides") parsed with
          | Throw e => Throw e
          | Return slides =>
              if negb (Json.truthy slides) || negb (Json.isArray slides)
              then Throw (mkError (lit "Invalid slides format"))
              else match slides with
                   | Some (Json.Array items) => Return items
                   | _ => Return []
                   end
          end
      end
  end.

(** The array is returned as it was parsed: its elements are not
    checked against [Slide]. *)
Definition parseResponse (text : jsstring) : result (list Json.value) :=
  try_catch (parseResponse_body text) (λ _, Throw PARSE_FAILED).

(** The text sent to the model: [`${systemPrompt}\n\nUSER REQUEST: ${prompt}`] *)
Definition fullPrompt (prompt : jsstring) (existingSlides : list Slide.t)
    : jsstring :=
  let systemPrompt := buildSystemPrompt existingSlides in
  systemPrompt ++ [NEWLINE; NEWLINE] ++ lit "USER REQUEST: " ++ prompt.

Definition generateSlides (prompt : jsstring) (existingSlides : list Slide.t)
    : result (list Json.value) :=
  try_catch
    (match generateContent (fullPrompt prompt existingSlides) with
     | Throw e => Throw e
     | Return text => parseResponse text
     end)
    (λ _, Throw GENERATION_FAILED).

(** A response text that yields no slide document: it holds no JSON
    object, or the object text is not valid JSON, or the parsed value
    has no array under [slides]. *)
Definition no_slide_document (text : jsstring) : Prop :=
  let cleanedText := trim (replace_fences text) in
  match_object cleanedText = None
  ∨ (∃ jsonMatch e,
       match_object cleanedText = Some jsonMatch
       ∧ JSON_parse jsonMatch = Throw e)
  ∨ (∃ jsonMatch parsed,
       match_object cleanedText = Some jsonMatch
       ∧ JSON_parse jsonMatch = Return parsed
       ∧ ∀ items, Json.get (lit "slides") parsed ≠ Return (Some (Json.Array items))).

End Service.

End GeminiService.

(* ================================================================== *)
(** * Export pipeline ([lib/ppt-generator.ts]) *)
(* ================================================================== *)

Module PptGenerator.

(** ** Progress events (interface [GenerationProgress]) *)

Inductive step_name :=
| initializing | creating_slides | finalizing | complete | error.

Record GenerationProgress := mkProgress {
  step : step_name;
  message : jsstring;
  percentage : Q;
  currentSlide : option nat;
  totalSlides : option nat
}.

(** ** What the presentation library is asked to draw *)

(** The option object of one [slide.addText] call; [None] is a
    property that is not given. *)
Record TextOptions := mkTextOptions {
  x : Q; y : Q; w : Q; h : Q;
  fontSize : N;
  bold : option bool;
  color : option jsstring;
  align : option jsstring;
  fontFace : option jsstring;
  bullet : option bool
}.

(** A slide of the library: its background colour and the texts added
    to it, in the order of the [addText] calls. *)
Record SlideObject := mkSlideObject {
  background : option jsstring;
  texts : list (jsstring * TextOptions)
}.

(** What [pptx.addSlide()] returns. *)
Definition blank : SlideObject := {| background := None; texts := [] |}.

Definition addText (text : jsstring) (options : TextOptions)
    (slide : SlideObject) : SlideObject :=
  {| background := background slide;
     texts := texts slide ++ [(text, options)] |}.

Definition set_background (c : jsstring) (slide : SlideObject) : SlideObject :=
  {| background := Some c; texts := texts slide |}.

(** The characters in front of each bullet line, as the source file has
    them: U+00E2, U+20AC, U+00A2 and a space. *)
Definition BULLET_PREFIX : jsstring := [226; 8364; 162; 32].

Definition blue : jsstring := lit "2C5AA0".
Definition grey : jsstring := lit "666666".
Definition Arial : jsstring := lit "Arial".

(** The option object of the bullet line number [pointIndex]. *)
Definition bullet_options (pointIndex : nat) : TextOptions :=
  {| x := 1; y := (9 # 5) + inject_Z (Z.of_nat pointIndex) * (4 # 5);
     w := 8; h := 3 # 5;
     fontSize := 16; bold := None; color := None; align := None;
     fontFace := Some Arial; bullet := Some true |}.

(** [array.forEach((item, index) => ...)] acting on a state. *)
Fixpoint forEach_from {A St : Type} (f : A → nat → St → St) (index : nat)
    (array : list A) (s : St) : St :=
  match array with
  | [] => s
  | item :: rest => forEach_from f (S index) rest (f item index s)
  end.

Definition forEach {A St : Type} (f : A → nat → St → St) (array : list A)
    (s : St) : St :=
  forEach_from f 0 array s.

Definition createSimpleSlide (slide : SlideObject) (slideData : Slide.t)
    (index : nat) : SlideObject :=
  if bool_decide (Slide.layout slideData = TITLE) then
    let slide1 :=
      addText (Slide.title slideData)
        {| x := 1 # 2; y := 2; w := 9; h := 2;
           fontSize := 44; bold := Some true; color := Some blue;
           align := Some (lit "center"); fontFace := Some Arial;
           bullet := None |} slide in
    match Slide.content slideData with
    | first :: _ =>
        addText first
          {| x := 1 # 2; y := 4; w := 9; h := 1;
             fontSize := 24; bold := None; color := Some grey;
             align := Some (lit "center"); fontFace := Some Arial;
             bullet := None |} slide1
    | [] => slide1
    end
  else if bool_decide (Slide.layout slideData = SECTION_HEADER) then
    let slide1 :=
      addText (Slide.title slideData)
        {| x := 1 # 2; y := 3; w := 9; h := 3 # 2;
           fontSize := 36; bold := Some true; color := Some (lit "FFFFFF");
           align := Some (lit "center"); fontFace := Some Arial;
           bullet := None |} (set_background blue slide) in
    match Slide.content slideData with
    | first :: _ =>
        addText first
          {| x := 1; y := 9 # 2; w := 8; h := 1;
             fontSize := 18; bold := None; color := Some (lit "E6E6E6");
             align := Some (lit "center"); fontFace := Some Arial;
             bullet := None |} slide1
    | [] => slide1
    end
  else
    let slide1 :=
      addText (Slide.title slideData)
        {| x := 1 # 2; y := 1 # 2; w := 9; h := 1;
           fontSize := 28; bold := Some true; color := Some blue;
           align := None; fontFace := Some Arial; bullet := None |} slide in
    let slide2 :=
      forEach (λ point pointIndex,
                 addText (BULLET_PREFIX ++ point) (bullet_options pointIndex))
              (Slide.content slideData) slide1 in
    addText (decimal (N.of_nat (index + 1)))
      {| x := 17 # 2; y := 34 # 5; w := 1; h := 2 # 5;
         fontSize := 12; bold := None; color := Some grey;
         align := Some (lit "right"); fontFace := Some Arial;
         bullet := None |} slide2.

(** ** The browser and the library as [generatePresentation] meets them *)

Inductive Format := pptx | pdf.

Definition extension (format : Format) : jsstring :=
  match format with pptx => lit "pptx" | pdf => lit "pdf" end.

(** Outcomes of the calls that can throw or reject, and the values read
    from the environment. *)
Record Browser := mkBrowser {
  has_window : bool;                        (* typeof window !== 'undefined' *)
  import_pptxgenjs : result unit;           (* await import('pptxgenjs') *)
  addSlide : nat → result unit;             (* pptx.addSlide() for the slide at an index *)
  write : list SlideObject → result unit;   (* pptx.write({ outputType: 'blob' }) *)
  writeFile : jsstring → list SlideObject → result unit;  (* pptx.writeFile({ fileName }) *)
  downloadBlob : jsstring → result unit;    (* downloadBlob(blob, fileName) *)
  createObjectURL : list SlideObject → jsstring;
  Date_now : N
}.

(** What a call has done so far: the arguments [onProgress] was called
    with, the slides of the presentation under construction, and the
    names of the files handed to the download surface. *)
Record Run := mkRun {
  progress : list GenerationProgress;
  slides : list SlideObject;
  downloads : list jsstring
}.

Definition start : Run := {| progress := []; slides := []; downloads := [] |}.

(** ** Computations with effects on a [Run] that can throw *)

Definition M (A : Type) : Type := Run → result A * Run.

Definition ret {A} (a : A) : M A := λ r, (Return a, r).
Definition throw {A} (e : Error) : M A := λ r, (Throw e, r).
Definition bind {A B} (m : M A) (k : A → M B) : M B :=
  λ r, match m r with
       | (Return a, r') => k a r'
       | (Throw e, r') => (Throw e, r')
       end.
Definition catch {A} (body : M A) (handler : Error → M A) : M A :=
  λ r, match body r with
       | (Return a, r') => (Return a, r')
       | (Throw e, r') => handler e r'
       end.
Definition lift {A} (outcome : result A) : M A := λ r, (outcome, r).

Notation "'let*' x ':=' m 'in' k" := (bind m (λ x, k))
  (at level 10, x name, m at level 100, k at level 200, only parsing).
Notation "m >> k" := (bind m (λ _, k))
  (at level 100, right associativity, only parsing).

(** [onProgress?.(p)] with a callback supplied, one that returns. *)
Definition onProgress (p : GenerationProgress) : M unit :=
  λ r, (Return tt,
        {| progress := progress r ++ [p]; slides := slides r;
           downloads := downloads r |}).

Definition push_slide (slide : SlideObject) : M unit :=
  λ r, (Return tt,
        {| progress := progress r; slides := slides r ++ [slide];
           downloads := downloads r |}).

Definition downloaded (fileName : jsstring) : M unit :=
  λ r, (Return tt,
        {| progress := progress r; slides := slides r;
           downloads := downloads r ++ [fileName] |}).

Definition get_slides : M (list SlideObject) := λ r, (Return (slides r), r).

Definition initializing_event : GenerationProgress :=
  {| step := initializing; message := lit "Initializing presentation...";
     percentage := 10; currentSlide := None; totalSlides := None |}.

Definition creating_event (total index : nat) : GenerationProgress :=
  {| step := creating_slides;
     message := lit "Creating slide " ++ decimal (N.of_nat (index + 1))
                ++ lit " of " ++ decimal (N.of_nat total) ++ lit "...";
     percentage := 30 + (inject_Z (Z.of_nat index) / inject_Z (Z.of_nat total)) * 50;
     currentSlide := Some (index + 1)%nat;
     totalSlides := Some total |}.

Definition finalizing_event : GenerationProgress :=
  {| step := finalizing; message := lit "Finalizing presentation...";
     percentage := 90; currentSlide := None; totalSlides := None |}.

Definition complete_event (msg : jsstring) : GenerationProgress :=
  {| step := complete; message := msg;
     percentage := 100; currentSlide := None; totalSlides := None |}.

Definition error_event : GenerationProgress :=
  {| step := error;
     message := lit "Error generating presentation. Please try again.";
     percentage := 0; currentSlide := None; totalSlides := None |}.

(** The [for] loop over [slides], from [index] on; [total] is
    [slides.length].  The library keeps the slide it hands out, so the
    slide is entered in the presentation once it is drawn. *)
Fixpoint create_slides (env : Browser) (total index : nat)
    (rest : list Slide.t) : M unit :=
  match rest with
  | [] => ret tt
  | slideData :: rest' =>
      lift (addSlide env index) >>
      onProgress (creating_event total index) >>
      push_slide (createSimpleSlide blank slideData index) >>
      create_slides env total (S index) rest'
  end.

Definition generatePresentation_body (env : Browser) (slides : list Slide.t)
    (forPreview : bool) (format : Format) : M jsstring :=
  lift (import_pptxgenjs env) >>
  onProgress initializing_event >>
  create_slides env (length slides) 0 slides >>
  onProgress finalizing_event >>
  let timestamp := Date_now env in
  let fileName :=
    lit "presentation-" ++ decimal timestamp ++ lit "." ++ extension format in
  if forPreview then
    let* deck := get_slides in
    lift (write env deck) >>
    let url := createObjectURL env deck in
    onProgress (complete_event (lit "Presentation ready!")) >>
    ret url
  else
    (match format with
     | pdf =>
         catch
           (let* deck := get_slides in
            lift (write env deck) >>
            lift (downloadBlob env fileName) >>
            downloaded fileName >>
            onProgress (complete_event (lit "PDF download started!")))
           (λ _,
              let fallbackName :=
                lit "presentation-" ++ decimal timestamp ++ lit ".pptx" in
              let* deck := get_slides in
              lift (writeFile env fallbackName deck) >>
              downloaded fallbackName >>
              onProgress (complete_event (lit "PPTX downloaded (PDF not available)")))
     | pptx =>
         let* deck := get_slides in
         lift (writeFile env fileName deck) >>
         downloaded fileName >>
         onProgress (complete_event (lit "PPTX download started!"))
     end) >>
    ret (lit "download-started").

Definition generatePresentation (env : Browser) (slides : list Slide.t)
    (forPreview : bool) (format : Format) : M jsstring :=
  if negb (has_window env)
  then throw (mkError (lit "Presentation generation is only available in the browser"))
  else
    catch (generatePresentation_body env slides forPreview format)
          (λ e, onProgress error_event >> throw e).

End PptGenerator.

(* ================================================================== *)
(** * In-place editing ([SlidePreview.tsx]) *)
(* ================================================================== *)

Module SlidePreview.

(** The state hooks of the component. *)
Record State := mkState {
  currentSlideIndex : nat;
  isEditing : bool;
  editContent : jsstring
}.

Definition setIsEditing (b : bool) (st : State) : State :=
  {| currentSlideIndex := currentSlideIndex st; isEditing := b;
     editContent := editContent st |}.

Definition setEditContent (text : jsstring) (st : State) : State :=
  {| currentSlideIndex := currentSlideIndex st; isEditing := isEditing st;
     editContent := text |}.

(** [handleEdit]: loads the lines of the current slide into the editor. *)
Definition handleEdit (slides : list Slide.t) (st : State) : State :=
  match slides !! currentSlideIndex st with
  | Some currentSlide =>
      setIsEditing true
        (setEditContent (join [NEWLINE] (Slide.content currentSlide)) st)
  | None => st
  end.

(** [handleSave]: the first component is the array [onSlidesUpdate] is
    called with, [None] when it is not called. *)
Definition handleSave (slides : list Slide.t) (st : State)
    : option (list Slide.t) * State :=
  match slides !! currentSlideIndex st with
  | Some currentSlide =>
      let updatedSlides :=
        <[currentSlideIndex st :=
            {| Slide.title := Slide.title currentSlide;
               Slide.content :=
                 filter (λ line, truthy (trim line) = true)
                        (split NEWLINE (editContent st));
               Slide.layout := Slide.layout currentSlide |}]> slides in
      (Some updatedSlides, setIsEditing false st)
  | None => (None, st)
  end.

Definition handleCancel (st : State) : State := setIsEditing false st.

End SlidePreview.

(* ================================================================== *)
(** * The title rule as the specification words it *)
(* ================================================================== *)

Module TitleSpec.

(** The whitespace-separated words of a text: its maximal runs of
    non-whitespace code units. *)
Fixpoint whitespace_words (s : jsstring) : list jsstring :=
  match s with
  | [] => []
  | c :: r =>
      if is_white_space c then whitespace_words r
      else match head r, whitespace_words r with
           | Some d, w :: ws =>
               if is_white_space d then [c] :: w :: ws else (c :: w) :: ws
           | _, ws => [c] :: ws
           end
  end.

(** "Truncated to 30 characters with a trailing ellipsis if it exceeds
    30 characters, otherwise unmodified." *)
Definition ellipsis30 (w : jsstring) : jsstring :=
  if bool_decide (30 < length w)%nat then take 30 w ++ lit "..." else w.

(** "The first 5 whitespace-separated words of [t] joined by single
    spaces", then [ellipsis30]. *)
Definition title_by_words (t : jsstring) : jsstring :=
  ellipsis30 (join [SPACE] (take 5 (whitespace_words t))).

(** The same with the segments between single space characters in place
    of the whitespace-separated words. *)
Definition title_by_segments (t : jsstring) : jsstring :=
  ellipsis30 (join [SPACE] (take 5 (split SPACE t))).

(** A text made of words separated by exactly one space each, with no
    other whitespace. *)
Definition single_spaced (t : jsstring) : Prop :=
  ∃ words : list jsstring,
    words ≠ []
    ∧ Forall (λ w, w ≠ [] ∧ Forall (λ c, is_white_space c = false) w) words
    ∧ t = join [SPACE] words.

End TitleSpec.

(* ================================================================== *)
(** * What an export run is expected to leave behind *)
(* ================================================================== *)

Module ExportSpec.
Import PptGenerator.

(** The slides drawn for [rest], the first of which has index [index]. *)
Fixpoint rendered_from (index : nat) (rest : list Slide.t) : list SlideObject :=
  match rest with
  | [] => []
  | slideData :: rest' =>
      createSimpleSlide blank slideData index :: rendered_from (S index) rest'
  end.

Definition rendered (slides : list Slide.t) : list SlideObject :=
  rendered_from 0 slides.

(** The events of a run up to the write of the artifact: [initializing],
    one [creating_slides] per slide, [finalizing]. *)
Definition progress_before_write (n : nat) : list GenerationProgress :=
  initializing_event :: (creating_event n <$> seq 0 n) ++ [finalizing_event].

Definition file_name (env : Browser) (format : Format) : jsstring :=
  lit "presentation-" ++ decimal (Date_now env) ++ lit "." ++ extension format.

(** The row drawn for the content line number [pointIndex]. *)
Definition bullet_row (pointIndex : nat) (point : jsstring)
    : jsstring * TextOptions :=
  (BULLET_PREFIX ++ point, bullet_options pointIndex).

(** A text drawn with centre alignment. *)
Definition centered (t : jsstring * TextOptions) : Prop :=
  align (snd t) = Some (lit "center").

(** A progress event without its message. *)
Definition stage (p : GenerationProgress)
    : step_name * Q * option nat * option nat :=
  (step p, percentage p, currentSlide p, totalSlides p).

(** The protocol written out.  For the slide of index [i] among [n]:
    step [creating_slides], percentage [30 + (i / n) * 50], current slide
    [i + 1] and total [n]. *)
Definition creating_stage (n i : nat)
    : step_name * Q * option nat * option nat :=
  (creating_slides,
   (30 + (inject_Z (Z.of_nat i) / inject_Z (Z.of_nat n)) * 50)%Q,
   Some (i + 1)%nat, Some n).

(** Up to the write of the artifact: [initializing] at 10, the slides in
    order, [finalizing] at 90. *)
Definition stages_before_write (n : nat)
    : list (step_name * Q * option nat * option nat) :=
  (initializing, 10%Q, None, None)
  :: (creating_stage n <$> seq 0 n) ++ [(finalizing, 90%Q, None, None)].

End ExportSpec.

(* ================================================================== *)
(** * Vocabulary for the session store *)
(* ================================================================== *)

Module StoreSpec.
Import ChatHistoryService.

(** The collection a call of [getSessions] returns. *)
Definition stored (s : Service) : list ChatSession.t := fst (getSessions s).

(** Two service states that agree on everything but the console. *)
Definition same_store (s s' : Service) : Prop :=
  window s' = window s ∧ localStorage s' = localStorage s
  ∧ currentSessionId s' = currentSessionId s.

(** The position and session that [addMessageToCurrentSession] and
    [updateCurrentSessionSlides] write to when the pointer is set. *)
Definition current_target (s : Service) : option (nat * ChatSession.t) :=
  if has_current s then findCurrent s (stored s) else None.

(** [session] with its last message carrying [slides] and the
    modification time [now]. *)
Definition patched (now : Date) (slides : list Slide.t)
    (session : ChatSession.t) (init : list ChatMessage.t)
    (m : ChatMessage.t) : ChatSession.t :=
  {| ChatSession.id := ChatSession.id session;
     ChatSession.title := ChatSession.title session;
     ChatSession.messages := init ++ [ChatMessage.with_slides m slides];
     ChatSession.createdAt := ChatSession.createdAt session;
     ChatSession.updatedAt := now |}.

(** The session [addMessageToCurrentSession] stores for [session]. *)
Definition appended (now : Date) (message : ChatMessage.t)
    (slides : option (list Slide.t)) (session : ChatSession.t)
    (title : jsstring) : ChatSession.t :=
  {| ChatSession.id := ChatSession.id session;
     ChatSession.title := title;
     ChatSession.messages :=
       ChatSession.messages session
       ++ [match slides with
           | Some sl => ChatMessage.with_slides message sl
           | None => message
           end];
     ChatSession.createdAt := ChatSession.createdAt session;
     ChatSession.updatedAt := now |}.

End StoreSpec.

(* ================================================================== *)
(** * Vocabulary for the editor *)
(* ================================================================== *)

Module PreviewSpec.

(** A line with at least one code unit that is not white space. *)
Definition visible (line : jsstring) : Prop :=
  Exists (λ c, is_white_space c = false) line.

#[global] Instance visible_dec line : Decision (visible line).
Proof. unfold visible. apply _. Defined.

End PreviewSpec.

(* ================================================================== *)
(** * Further vocabulary for the session store *)
(* ================================================================== *)

From Stdlib Require DecimalPos.

Module StoreMoreSpec.
Import ChatHistoryService.

(** The session [createNewSession] makes at time [now] with the random
    suffix [rnd]. *)
Definition fresh_session (now : Date) (rnd : jsstring) (title : jsstring)
    : ChatSession.t :=
  {| ChatSession.id := generateId now rnd;
     ChatSession.title := title;
     ChatSession.messages := [];
     ChatSession.createdAt := now;
     ChatSession.updatedAt := now |}.

(** [message] as it is stored when [slides] is passed along. *)
Definition stored_message (message : ChatMessage.t)
    (slides : option (list Slide.t)) : ChatMessage.t :=
  match slides with
  | Some sl => ChatMessage.with_slides message sl
  | None => message
  end.

(** [session] as [updateCurrentSessionSlides] rewrites it: [None] when it
    has no message or its last message is user-authored. *)
Definition slides_patch (now : Date) (slides : list Slide.t)
    (session : ChatSession.t) : option ChatSession.t :=
  let messages := ChatSession.messages session in
  match last messages with
  | Some lastMessage =>
      if ChatMessage.isUser lastMessage then None
      else Some
        {| ChatSession.id := ChatSession.id session;
           ChatSession.title := ChatSession.title session;
           ChatSession.messages :=
             <[(length messages - 1)%nat :=
                 ChatMessage.with_slides lastMessage slides]> messages;
           ChatSession.createdAt := ChatSession.createdAt session;
           ChatSession.updatedAt := now |}
  | None => None
  end.

End StoreMoreSpec.

(* ================================================================== *)
(** * Construction of the generation client ([gemini-client.ts]) *)
(* ================================================================== *)

Module GeminiSetup.

(** The preference list [AVAILABLE_MODELS]. *)
Definition AVAILABLE_MODELS : list jsstring :=
  [lit "models/gemini-2.5-flash"; lit "models/gemini-2.5-pro";
   lit "models/gemini-2.0-flash"].

Definition KEY_MISSING : Error :=
  mkError (lit "GEMINI_API_KEY is not set in environment variables. Get a free key from: https://aistudio.google.com/apikey").

Definition NO_MODEL : Error := mkError (lit "No available Gemini models found").

Section Setup.

(** The handle of a generative model. *)
Variable Model : Type.
(** [new GoogleGenerativeAI(apiKey).getGenerativeModel({ model, ... })] *)
Variable getGenerativeModel : jsstring → jsstring → result Model.

(** The [for] loop of [initializeModel]: [this.model] after trying the
    names in order, stopping at the first call that returns. *)
Fixpoint try_models (apiKey : jsstring) (names : list jsstring) : option Model :=
  match names with
  | [] => None
  | modelName :: rest =>
      match getGenerativeModel apiKey modelName with
      | Return model => Some model
      | Throw _ => try_models apiKey rest
      end
  end.

Definition initializeModel (apiKey : jsstring) : result Model :=
  match try_models apiKey AVAILABLE_MODELS with
  | Some model => Return model
  | None => Throw NO_MODEL
  end.

(** [new GeminiService()], returning the model it holds; [apiKey] is
    [process.env.NEXT_PUBLIC_GEMINI_API_KEY]. *)
Definition constructor (apiKey : option jsstring) : result Model :=
  match apiKey with
  | Some key => if truthy key then initializeModel key else Throw KEY_MISSING
  | None => Throw KEY_MISSING
  end.

End Setup.

End GeminiSetup.

(* ================================================================== *)
(** * The earlier export pipeline ([oldppt-generator.ts]) *)
(* ================================================================== *)

(** The file has the same [createSimpleSlide] and the same slide loop as
    [lib/ppt-generator.ts]; it differs in the message of the environment
    check, in the download branch, which has no fallback, and in the one
    completion message of that branch. *)
Module OldPptGenerator.
Import PptGenerator.

Definition generatePresentation_body (env : Browser) (slides : list Slide.t)
    (forPreview : bool) (format : Format) : M jsstring :=
  lift (import_pptxgenjs env) >>
  onProgress initializing_event >>
  create_slides env (length slides) 0 slides >>
  onProgress finalizing_event >>
  let fileName :=
    lit "presentation-" ++ decimal (Date_now env) ++ lit "." ++ extension format in
  if forPreview then
    let* deck := get_slides in
    lift (write env deck) >>
    let url := createObjectURL env deck in
    onProgress (complete_event (lit "Presentation ready!")) >>
    ret url
  else
    (match format with
     | pdf =>
         let* deck := get_slides in
         lift (write env deck) >>
         lift (downloadBlob env fileName) >>
         downloaded fileName
     | pptx =>
         let* deck := get_slides in
         lift (writeFile env fileName deck) >>
         downloaded fileName
     end) >>
    onProgress (complete_event (lit "Download complete!")) >>
    ret (lit "download-started").

Definition generatePresentation (env : Browser) (slides : list Slide.t)
    (forPreview : bool) (format : Format) : M jsstring :=
  if negb (has_window env)
  then throw (mkError (lit "PPT generation is only available in the browser"))
  else
    catch (generatePresentation_body env slides forPreview format)
          (λ e, onProgress error_event >> throw e).

End OldPptGenerator.

(* ================================================================== *)
(** * The page ([app/page.tsx]): its event handlers *)
(* ================================================================== *)

Module Home.
Import ChatHistoryService.

(** The state hooks of the component.  [geminiService] records whether
    the client module has been loaded. *)
Record State := mkState {
  messages : list ChatMessage.t;
  inputText : jsstring;
  slides : list Slide.t;
  isLoading : bool;
  apiError : option jsstring;
  geminiService : bool;
  chatSessions : list ChatSession.t;
  currentSession : option ChatSession.t;
  showHistory : bool
}.

(** [[...messages].reverse().find(msg => !msg.isUser && msg.slides)]: an
    array is truthy, also when empty. *)
Definition lastAiMessage (messages : list ChatMessage.t) : option ChatMessage.t :=
  snd <$> list_find
            (λ msg, ChatMessage.isUser msg = false
                    ∧ is_Some (ChatMessage.slides msg))
            (reverse messages).

(** [lastAiMessage?.slides || []] *)
Definition restoredSlides (messages : list ChatMessage.t) : list Slide.t :=
  default [] (lastAiMessage messages ≫= ChatMessage.slides).

(** [session?.messages || []] *)
Definition messagesOf (session : option ChatSession.t) : list ChatMessage.t :=
  default [] (ChatSession.messages <$> session).

Definition handleNewChat (now : Date) (rnd : jsstring)
    (page : State) (service : Service) : State * Service :=
  let '(newSession, service1) := createNewSession now rnd None service in
  let '(sessions, service2) := getSessions service1 in
  ({| messages := [];
      inputText := inputText page;
      slides := [];
      isLoading := isLoading page;
      apiError := apiError page;
      geminiService := geminiService page;
      chatSessions := sessions;
      currentSession := Some newSession;
      showHistory := false |}, service2).

Definition handleSelectSession (sessionId : jsstring)
    (page : State) (service : Service) : State * Service :=
  let service1 := setCurrentSession sessionId service in
  let '(session, service2) := getCurrentSession service1 in
  ({| messages := messagesOf session;
      inputText := inputText page;
      slides := restoredSlides (messagesOf session);
      isLoading := isLoading page;
      apiError := apiError page;
      geminiService := geminiService page;
      chatSessions := chatSessions page;
      currentSession := session;
      showHistory := false |}, service2).

Definition handleDeleteSession (sessionId : jsstring)
    (page : State) (service : Service) : State * Service :=
  let service1 := deleteSession sessionId service in
  let '(sessions, service2) := getSessions service1 in
  if bool_decide (ChatSession.id <$> currentSession page = Some sessionId)
  then
    let newCurrentSession := head sessions in
    ({| messages := messagesOf newCurrentSession;
        inputText := inputText page;
        slides := [];
        isLoading := isLoading page;
        apiError := apiError page;
        geminiService := geminiService page;
        chatSessions := sessions;
        currentSession := newCurrentSession;
        showHistory := showHistory page |}, service2)
  else
    ({| messages := messages page;
        inputText := inputText page;
        slides := slides page;
        isLoading := isLoading page;
        apiError := apiError page;
        geminiService := geminiService page;
        chatSessions := sessions;
        currentSession := currentSession page;
        showHistory := showHistory page |}, service2).

(** [handleDownload]: the run of the export pipeline it starts, [None]
    when it returns at once, and whether the alert is shown.  The module
    [./lib/ppt-generator] is taken to load. *)
Definition handleDownload (env : PptGenerator.Browser) (page : State)
    : option (result jsstring * PptGenerator.Run) * bool :=
  if bool_decide (length (slides page) = 0%nat) then (None, false)
  else
    let run :=
      PptGenerator.generatePresentation env (slides page) false
        PptGenerator.pptx PptGenerator.start in
    (Some run, match fst run with Throw _ => true | Return _ => false end).

Section Send.

(** The generation client as the page calls it, and the type assertion
    under which the parsed array is used as [Slide[]]: nothing is checked
    or changed at run time. *)
Variable generateSlides : jsstring → list Slide.t → result (list Json.value).
Variable asSlides : list Json.value → list Slide.t.





End Send.

End Home.

(* ================================================================== *)
(** * Sample data *)
(* ================================================================== *)

Module Sample.
Import ChatHistoryService.

Definition user_message (t : jsstring) : ChatMessage.t :=
  {| ChatMessage.id := lit "1001";
     ChatMessage.text := t;
     ChatMessage.isUser := true;
     ChatMessage.timestamp := 1001;
     ChatMessage.slides := None |}.

Definition assistant_message (t : jsstring) : ChatMessage.t :=
  {| ChatMessage.id := lit "1002";
     ChatMessage.text := t;
     ChatMessage.isUser := false;
     ChatMessage.timestamp := 1002;
     ChatMessage.slides := None |}.

Definition session (msgs : list ChatMessage.t) : ChatSession.t :=
  {| ChatSession.id := lit "1000k3j9x0a1b";
     ChatSession.title := lit "New Presentation";
     ChatSession.messages := msgs;
     ChatSession.createdAt := 1000;
     ChatSession.updatedAt := 1000 |}.

(** A browser tab whose store holds one session, which is current. *)
Definition service (msgs : list ChatMessage.t) : Service :=
  {| window := true;
     localStorage := Some (Serialized [session msgs]);
     currentSessionId := Some (lit "1000k3j9x0a1b");
     console := [] |}.

(** A browser tab whose stored blob does not parse. *)
Definition corrupt_service : Service :=
  {| window := true;
     localStorage := Some Corrupt;
     currentSessionId := None;
     console := [] |}.

Definition intro_slide : Slide.t :=
  {| Slide.title := lit "Tea";
     Slide.content := [lit "A short history"; lit "ignored line"];
     Slide.layout := TITLE |}.

Definition section_slide : Slide.t :=
  {| Slide.title := lit "Part one";
     Slide.content := [lit "Origins"];
     Slide.layout := SECTION_HEADER |}.

Definition body_slide : Slide.t :=
  {| Slide.title := lit "Kinds of tea";
     Slide.content := [lit "Green"; lit "Black"; lit "Oolong"];
     Slide.layout := TITLE_CONTENT |}.

Definition odd_slide : Slide.t :=
  {| Slide.title := lit "Brewing";
     Slide.content := [lit "Water"; lit "Time"];
     Slide.layout := lit "TWO_COLUMN" |}.

Definition deck : list Slide.t :=
  [intro_slide; section_slide; body_slide; odd_slide].

Definition DOUBLE_QUOTE : N := 34.

(** The text [{ slides : [] }] with the key in double quotes. *)
Definition empty_deck_text : jsstring :=
  lit "{" ++ [DOUBLE_QUOTE] ++ lit "slides" ++ [DOUBLE_QUOTE] ++ lit ":[]}".

(** [JSON.parse] on the three texts the examples feed it: an object
    with an empty [slides] array, an empty object, and a text that is
    not JSON. *)
Definition JSON_parse (s : jsstring) : result Json.value :=
  if bool_decide (s = empty_deck_text)
  then Return (Json.Object [(lit "slides", Json.Array [])])
  else if bool_decide (s = lit "{}")
  then Return (Json.Object [])
  else Throw (mkError (lit "Unexpected token o in JSON at position 1")).

Definition JSON_stringify (_ : list Slide.t) : jsstring := lit "[]".

Definition INSTRUCTIONS : jsstring :=
  lit "You are an expert presentation designer. Create structured PowerPoint slides.".

(** An answer with prose and a fenced block around the JSON text. *)
Definition fenced_answer : jsstring :=
  lit "Here you go:" ++ [NEWLINE] ++ GeminiService.FENCE_JSON ++ [NEWLINE]
  ++ empty_deck_text ++ [NEWLINE] ++ GeminiService.FENCE.

(** A model that answers every prompt with the same text. *)
Definition answering (text : jsstring) (_ : jsstring) : result jsstring :=
  Return text.

(** A model call that fails. *)
Definition unreachable (_ : jsstring) : result jsstring :=
  Throw (mkError (lit "fetch failed")).

(** A browser in which every call of the presentation library
    succeeds. *)
Definition chrome : PptGenerator.Browser :=
  {| PptGenerator.has_window := true;
     PptGenerator.import_pptxgenjs := Return tt;
     PptGenerator.addSlide := λ _, Return tt;
     PptGenerator.write := λ _, Return tt;
     PptGenerator.writeFile := λ _ _, Return tt;
     PptGenerator.downloadBlob := λ _, Return tt;
     PptGenerator.createObjectURL := λ _, lit "blob:magicslides/1";
     PptGenerator.Date_now := 1700 |}.

(** The same browser with a library that cannot write a blob. *)
Definition chrome_without_blob : PptGenerator.Browser :=
  {| PptGenerator.has_window := true;
     PptGenerator.import_pptxgenjs := Return tt;
     PptGenerator.addSlide := λ _, Return tt;
     PptGenerator.write := λ _, Throw (mkError (lit "blob output unavailable"));
     PptGenerator.writeFile := λ _ _, Return tt;
     PptGenerator.downloadBlob := λ _, Return tt;
     PptGenerator.createObjectURL := λ _, lit "blob:magicslides/1";
     PptGenerator.Date_now := 1700 |}.

(** Server-side rendering: there is no [window]. *)
Definition server : PptGenerator.Browser :=
  {| PptGenerator.has_window := false;
     PptGenerator.import_pptxgenjs := Return tt;
     PptGenerator.addSlide := λ _, Return tt;
     PptGenerator.write := λ _, Return tt;
     PptGenerator.writeFile := λ _ _, Return tt;
     PptGenerator.downloadBlob := λ _, Return tt;
     PptGenerator.createObjectURL := λ _, lit "blob:magicslides/1";
     PptGenerator.Date_now := 1700 |}.

(** The editor on the third slide of [deck], holding two visible lines
    with a blank line and a line of one space between them. *)
Definition editing : SlidePreview.State :=
  {| SlidePreview.currentSlideIndex := 2;
     SlidePreview.isEditing := true;
     SlidePreview.editContent :=
       lit "Green" ++ [NEWLINE; NEWLINE; SPACE; NEWLINE] ++ lit "White" |}.

End Sample.

(* ================================================================== *)
(** * Further sample data *)
(* ================================================================== *)

Module MoreSamples.
Import ChatHistoryService.

(** An assistant message that carries a deck of one slide. *)
Definition deck_message : ChatMessage.t :=
  {| ChatMessage.id := lit "0951";
     ChatMessage.text := lit "I've created a presentation with 1 slides!";
     ChatMessage.isUser := false;
     ChatMessage.timestamp := 951;
     ChatMessage.slides := Some [Sample.body_slide] |}.

(** An older conversation, ending in a user message. *)
Definition archived : ChatSession.t :=
  {| ChatSession.id := lit "0900q7w1e2r3t";
     ChatSession.title := lit "Coffee";
     ChatSession.messages :=
       [Sample.user_message (lit "Coffee"); deck_message;
        Sample.user_message (lit "shorter please")];
     ChatSession.createdAt := 900;
     ChatSession.updatedAt := 960 |}.

(** A browser tab with two stored sessions, the first being current. *)
Definition two_sessions : Service :=
  {| window := true;
     localStorage := Some (Serialized [Sample.session []; archived]);
     currentSessionId := Some (lit "1000k3j9x0a1b");
     console := [] |}.

(** The service during server-side rendering. *)
Definition rendering_on_server : Service :=
  {| window := false;
     localStorage := None;
     currentSessionId := None;
     console := [] |}.

(** A browser whose library fails to add the third slide. *)
Definition flaky : PptGenerator.Browser :=
  {| PptGenerator.has_window := true;
     PptGenerator.import_pptxgenjs := Return tt;
     PptGenerator.addSlide :=
       λ i, if (i =? 2)%nat then Throw (mkError (lit "out of memory"))
            else Return tt;
     PptGenerator.write := λ _, Return tt;
     PptGenerator.writeFile := λ _ _, Return tt;
     PptGenerator.downloadBlob := λ _, Return tt;
     PptGenerator.createObjectURL := λ _, lit "blob:magicslides/1";
     PptGenerator.Date_now := 1700 |}.

(** A set-up call that knows every model but the first of the list. *)
Definition getGenerativeModel (_ modelName : jsstring) : result jsstring :=
  if bool_decide (modelName = lit "models/gemini-2.5-flash")
  then Throw (mkError (lit "404 Not Found"))
  else Return modelName.

(** A generation client that answers with one item, and the reading of
    every item as the same slide. *)
Definition generateSlides (_ : jsstring) (_ : list Slide.t)
    : result (list Json.value) :=
  Return [Json.Object []].


(** The page showing the conversation of [Sample.session], with a
    request typed in. *)
Definition page (msgs : list ChatMessage.t) (deck : list Slide.t) : Home.State :=
  {| Home.messages := msgs;
     Home.inputText := lit "Slides about tea";
     Home.slides := deck;
     Home.isLoading := false;
     Home.apiError := None;
     Home.geminiService := true;
     Home.chatSessions := [Sample.session msgs; archived];
     Home.currentSession := Some (Sample.session msgs);
     Home.showHistory := false |}.

(** The preview on the third slide of [Sample.deck], not editing. *)
Definition viewing : SlidePreview.State :=
  {| SlidePreview.currentSlideIndex := 2;
     SlidePreview.isEditing := false;
     SlidePreview.editContent := [] |}.

End MoreSamples.

(* ================================================================== *)
(** * Properties of the session store *)
(* ================================================================== *)

Module ChatHistoryFacts.
Import ChatHistoryService StoreSpec.

Lemma same_store_refl s : same_store s s.
Proof. by repeat split. Qed.

Lemma getSessions_same_store s : same_store s (snd (getSessions s)).
Proof.
  unfold getSessions. destruct (window s) eqn:Hw; simpl; [|by repeat split].
  destruct (localStorage s) as [[|l]|] eqn:Hl; simpl; by repeat split.
Qed.

Lemma stored_ext s s' :
  window s' = window s → localStorage s' = localStorage s →
  stored s' = stored s.
Proof.
  intros Hw Hl. unfold stored, getSessions. rewrite Hw, Hl.
  destruct (window s); [|done]. by destruct (localStorage s) as [[|l]|].
Qed.

Lemma stored_same_store s s' : same_store s s' → stored s' = stored s.
Proof. intros (Hw & Hl & _). by apply stored_ext. Qed.

Lemma findCurrent_same_store s s' l :
  same_store s s' → findCurrent s' l = findCurrent s l.
Proof. intros (_ & _ & Hc). unfold findCurrent. by rewrite Hc. Qed.

Lemma stored_nonempty_window s x l :
  stored s = x :: l → window s = true ∧ localStorage s = Some (Serialized (x :: l)).
Proof.
  unfold stored, getSessions. destruct (window s); simpl; [|done].
  destruct (localStorage s) as [[|l']|]; simpl; try done.
  intros ->. done.
Qed.

Lemma stored_saveSessions l s :
  window s = true → stored (saveSessions l s) = l.
Proof.
  intros Hw. unfold stored, saveSessions, getSessions. rewrite Hw. simpl.
  by rewrite Hw.
Qed.

Lemma stored_set_currentSessionId v s :
  stored (set_currentSessionId v s) = stored s.
Proof. by apply stored_ext. Qed.

Lemma findCurrent_Some s l i x :
  findCurrent s l = Some (i, x) →
  l !! i = Some x ∧ currentSessionId s = Some (ChatSession.id x).
Proof.
  unfold findCurrent. intros H. apply list_find_Some in H as (Hl & Hid & _).
  done.
Qed.

(** The state in which [addMessageToCurrentSession] and
    [updateCurrentSessionSlides] look the current session up. *)
Lemma getSessions_split s :
  getSessions s = (stored s, snd (getSessions s)).
Proof. unfold stored. by destruct (getSessions s). Qed.

Lemma current_target_Some s i session :
  current_target s = Some (i, session) →
  has_current s = true ∧ findCurrent s (stored s) = Some (i, session)
  ∧ window s = true.
Proof.
  unfold current_target. destruct (has_current s); [|done].
  intros H. repeat split; [done|].
  apply findCurrent_Some in H as [Hl _].
  destruct (stored s) as [|x l] eqn:Hs; [done|].
  by apply stored_nonempty_window in Hs as [? _].
Qed.

(** C8.  When the stored blob is corrupt, [getSessions] returns the empty
    array: the function has no throwing path, neither the storage nor the
    pointer changes, and in the browser one line goes to [console.error]. *)
Theorem C8_getSessions_corrupt_returns_empty (s : Service) :
  localStorage s = Some Corrupt →
  fst (getSessions s) = []
  ∧ same_store s (snd (getSessions s))
  ∧ (window s = true →
     console (snd (getSessions s))
     = console s ++ [lit "Error loading chat sessions:"]).
Proof.
  intros Hc. split; [|split].
  - unfold getSessions. rewrite Hc. by destruct (window s).
  - apply getSessions_same_store.
  - intros Hw. unfold getSessions. by rewrite Hw, Hc.
Qed.

(** C7.  [updateCurrentSessionSlides] leaves storage and pointer as they
    are when there is no current session, when the current session has no
    message, and when its last message is user-authored; when the last
    message is assistant-authored it stores the collection in which the
    [slides] field of that message is [slides] and the session has
    [updatedAt = now], every other field of the message and of the
    session, and every other session and message, being the same. *)
Theorem C7_updateCurrentSessionSlides_frame
    (now : Date) (slides : list Slide.t) (s : Service) :
  let s' := updateCurrentSessionSlides now slides s in
  (current_target s = None → same_store s s')
  ∧ (∀ i session, current_target s = Some (i, session) →
       ChatSession.messages session = [] → same_store s s')
  ∧ (∀ i session init m, current_target s = Some (i, session) →
       ChatSession.messages session = init ++ [m] →
       ChatMessage.isUser m = true → same_store s s')
  ∧ (∀ i session init m, current_target s = Some (i, session) →
       ChatSession.messages session = init ++ [m] →
       ChatMessage.isUser m = false →
       ∃ session' m',
         stored s' = <[i := session']> (stored s)
         ∧ currentSessionId s' = currentSessionId s
         ∧ ChatSession.messages session' = init ++ [m']
         ∧ ChatMessage.slides m' = Some slides
         ∧ ChatMessage.id m' = ChatMessage.id m
         ∧ ChatMessage.text m' = ChatMessage.text m
         ∧ ChatMessage.isUser m' = false
         ∧ ChatMessage.timestamp m' = ChatMessage.timestamp m
         ∧ ChatSession.id session' = ChatSession.id session
         ∧ ChatSession.title session' = ChatSession.title session
         ∧ ChatSession.createdAt session' = ChatSession.createdAt session
         ∧ ChatSession.updatedAt session' = now).
Proof.
  intros s'. subst s'. unfold updateCurrentSessionSlides, current_target.
  destruct (has_current s) eqn:Hh; simpl.
  2: { repeat split; done. }
  rewrite (getSessions_split s).
  pose proof (getSessions_same_store s) as Hss.
  rewrite (findCurrent_same_store _ _ _ Hss).
  destruct (findCurrent s (stored s)) as [[j sess]|] eqn:Hf.
  2: { repeat split; intros; try done; apply Hss. }
  split; [done|]. split; [|split].
  - intros i session [= <- <-] Hm. rewrite Hm. simpl. exact Hss.
  - intros i session init m [= <- <-] Hm Hu. rewrite Hm.
    rewrite length_app; simpl.
    rewrite bool_decide_true by lia.
    replace (length init + 1 - 1)%nat with (length init + 0)%nat by lia.
    rewrite lookup_app_r, Nat.add_comm by lia. simpl.
    replace (length init - length init)%nat with 0%nat by lia. simpl.
    rewrite Hu. exact Hss.
  - intros i session init m [= <- <-] Hm Hu. rewrite Hm.
    rewrite length_app; simpl.
    rewrite bool_decide_true by lia.
    replace (length init + 1 - 1)%nat with (length init + 0)%nat by lia.
    rewrite lookup_app_r, Nat.add_comm by lia. simpl.
    replace (length init - length init)%nat with 0%nat by lia. simpl.
    rewrite Hu. simpl.
    assert (window (snd (getSessions s)) = true) as Hw.
    { destruct Hss as (-> & _).
      apply findCurrent_Some in Hf as [Hl _].
      destruct (stored s) as [|x l] eqn:Hs; [done|].
      by apply stored_nonempty_window in Hs as [? _]. }
    exists (patched now slides sess init m), (ChatMessage.with_slides m slides).
    split; [|split].
    + rewrite stored_saveSessions by done. f_equal.
      unfold patched. f_equal.
      rewrite insert_app_r_alt by lia.
      by replace (length init - length init)%nat with 0%nat by lia.
    + unfold saveSessions. rewrite Hw. simpl. by destruct Hss as (_ & _ & ->).
    + by repeat split.
Qed.

(** ** Splitting at spaces against splitting at whitespace *)

Import TitleSpec.

Lemma split_app_sep sep (w r : jsstring) :
  sep ∉ w → split sep (w ++ sep :: r) = w :: split sep r.
Proof.
  induction w as [|c w IH]; intros Hn; simpl.
  - by rewrite N.eqb_refl.
  - apply not_elem_of_cons in Hn as [Hc Hw].
    destruct (N.eqb_spec c sep) as [->|_]; [done|].
    by rewrite IH.
Qed.

Lemma split_no_sep sep (w : jsstring) : sep ∉ w → split sep w = [w].
Proof.
  induction w as [|c w IH]; intros Hn; simpl; [done|].
  apply not_elem_of_cons in Hn as [Hc Hw].
  destruct (N.eqb_spec c sep) as [->|_]; [done|].
  by rewrite IH.
Qed.

Lemma split_join sep (words : list jsstring) :
  words ≠ [] → Forall (λ w, sep ∉ w) words →
  split sep (join [sep] words) = words.
Proof.
  induction words as [|w rest IH]; intros Hne Hall; [done|].
  apply Forall_cons in Hall as [Hw Hrest].
  destruct rest as [|w' rest]; simpl.
  - by apply split_no_sep.
  - rewrite split_app_sep by done. f_equal. by apply IH.
Qed.

Lemma whitespace_words_cons c (r : jsstring) :
  whitespace_words (c :: r)
  = if is_white_space c then whitespace_words r
    else match head r, whitespace_words r with
         | Some d, w :: ws =>
             if is_white_space d then [c] :: w :: ws else (c :: w) :: ws
         | _, ws => [c] :: ws
         end.
Proof. reflexivity. Qed.

Lemma whitespace_words_skip c (r : jsstring) :
  is_white_space c = true → whitespace_words (c :: r) = whitespace_words r.
Proof. intros H. simpl. by rewrite H. Qed.

Lemma whitespace_words_app_space (w r : jsstring) :
  w ≠ [] → Forall (λ c, is_white_space c = false) w →
  whitespace_words (w ++ SPACE :: r) = w :: whitespace_words r.
Proof.
  induction w as [|c w IH]; intros Hne Hall; [done|].
  apply Forall_cons in Hall as [Hc Hw].
  destruct w as [|d w].
  - simpl. rewrite Hc. simpl. by destruct (whitespace_words r).
  - change ((c :: d :: w) ++ SPACE :: r) with (c :: (d :: w) ++ SPACE :: r).
    rewrite whitespace_words_cons, Hc, IH by done. simpl.
    apply Forall_cons in Hw as [-> _]. done.
Qed.

Lemma whitespace_words_word (w : jsstring) :
  w ≠ [] → Forall (λ c, is_white_space c = false) w →
  whitespace_words w = [w].
Proof.
  induction w as [|c w IH]; intros Hne Hall; [done|].
  apply Forall_cons in Hall as [Hc Hw].
  destruct w as [|d w].
  - simpl. by rewrite Hc.
  - rewrite whitespace_words_cons, Hc, IH by done. simpl.
    apply Forall_cons in Hw as [-> _]. done.
Qed.

Lemma whitespace_words_join (words : list jsstring) :
  Forall (λ w, w ≠ [] ∧ Forall (λ c, is_white_space c = false) w) words →
  whitespace_words (join [SPACE] words) = words.
Proof.
  induction words as [|w rest IH]; intros Hall; [done|].
  apply Forall_cons in Hall as [[Hne Hw] Hrest].
  destruct rest as [|w' rest]; simpl.
  - by apply whitespace_words_word.
  - rewrite whitespace_words_app_space by done. f_equal. by apply IH.
Qed.

Lemma single_spaced_words_are_segments (t : jsstring) :
  single_spaced t → split SPACE t = whitespace_words t.
Proof.
  intros (words & Hne & Hall & ->).
  rewrite whitespace_words_join by done.
  apply split_join; [done|].
  eapply Forall_impl; [exact Hall|]. intros w [_ Hw] Hin. simpl in *.
  rewrite Forall_forall in Hw. by specialize (Hw _ Hin).
Qed.

(** ** Appending messages *)

Lemma no_user_filter_nil (l : list ChatMessage.t) :
  Forall (λ m, ChatMessage.isUser m = false) l →
  filter (λ m, ChatMessage.isUser m = true) l = [].
Proof.
  induction 1 as [|m l Hm _ IH]; [done|].
  rewrite filter_cons_False; [done|]. by rewrite Hm.
Qed.

Lemma some_user_filter_pos (l : list ChatMessage.t) :
  Exists (λ m, ChatMessage.isUser m = true) l →
  (0 < length (filter (λ m, ChatMessage.isUser m = true) l))%nat.
Proof.
  induction 1 as [m l Hm|m l _ IH].
  - rewrite filter_cons_True by done. simpl. lia.
  - rewrite filter_cons. destruct (decide _); simpl; lia.
Qed.

Lemma addMessage_to_current now rnd message slides s i session :
  current_target s = Some (i, session) →
  ∃ title,
    stored (addMessageToCurrentSession now rnd message slides s)
    = <[i := appended now message slides session title]> (stored s)
    ∧ currentSessionId (addMessageToCurrentSession now rnd message slides s)
      = currentSessionId s
    ∧ title
      = if ChatMessage.isUser message
           && bool_decide
                (length (filter (λ m, ChatMessage.isUser m = true)
                           (ChatSession.messages
                              (appended now message slides session []))) = 1%nat)
        then generateSessionTitle (ChatMessage.text message)
        else ChatSession.title session.
Proof.
  intros Ht. apply current_target_Some in Ht as (Hh & Hf & Hw).
  unfold addMessageToCurrentSession. rewrite Hh. simpl.
  rewrite (getSessions_split s).
  pose proof (getSessions_same_store s) as Hss.
  rewrite (findCurrent_same_store _ _ _ Hss), Hf.
  eexists. split; [|split; [|reflexivity]].
  - rewrite stored_saveSessions; [reflexivity|].
    destruct Hss as (-> & _). done.
  - unfold saveSessions. destruct Hss as (-> & _ & <-). by rewrite Hw.
Qed.

(** C5 (as amended).  When a user-authored message is appended to the
    current session and the session holds no user-authored message yet,
    the stored title becomes [title_by_segments] of the message text: the
    first five segments between single space characters, joined by single
    spaces, cut to 30 code units plus ["..."] when longer.  When the
    session already holds a user-authored message, or the message is
    assistant-authored, the title stays.  For a text whose words are
    separated by exactly one space each, the segments are the
    whitespace-separated words, so the title is [title_by_words]. *)
Theorem C5_title_from_first_user_message
    (now : Date) (rnd : jsstring) (message : ChatMessage.t)
    (slides : option (list Slide.t)) (s : Service)
    (i : nat) (session : ChatSession.t) :
  current_target s = Some (i, session) →
  ∃ session',
    stored (addMessageToCurrentSession now rnd message slides s)
    = <[i := session']> (stored s)
    ∧ ChatSession.messages session'
      = ChatSession.messages session
        ++ [match slides with
            | Some sl => ChatMessage.with_slides message sl
            | None => message
            end]
    ∧ (ChatMessage.isUser message = true →
       Forall (λ m, ChatMessage.isUser m = false) (ChatSession.messages session) →
       ChatSession.title session' = title_by_segments (ChatMessage.text message))
    ∧ (ChatMessage.isUser message = true →
       Exists (λ m, ChatMessage.isUser m = true) (ChatSession.messages session) →
       ChatSession.title session' = ChatSession.title session)
    ∧ (ChatMessage.isUser message = false →
       ChatSession.title session' = ChatSession.title session)
    ∧ (single_spaced (ChatMessage.text message) →
       title_by_segments (ChatMessage.text message)
       = title_by_words (ChatMessage.text message)).
Proof.
  intros Ht.
  destruct (addMessage_to_current now rnd message slides s i session Ht)
    as (title & Hst & _ & Htitle).
  exists (appended now message slides session title).
  split; [done|]. split; [done|].
  assert (∀ m', ChatMessage.isUser
            (match slides with
             | Some sl => ChatMessage.with_slides m' sl
             | None => m'
             end) = ChatMessage.isUser m') as Hsame.
  { intros m'. by destruct slides. }
  simpl in Htitle. rewrite filter_app, length_app in Htitle.
  rewrite filter_cons, filter_nil in Htitle.
  split; [|split; [|split]].
  - intros Hu Hnone. simpl. rewrite Htitle, Hu.
    rewrite no_user_filter_nil by done. simpl.
    destruct (decide _) as [_|Hn]; [done|].
    exfalso. apply Hn. by rewrite Hsame.
  - intros Hu Hsome. simpl. rewrite Htitle, Hu.
    apply some_user_filter_pos in Hsome.
    destruct (decide _) as [_|Hn].
    + rewrite bool_decide_false; [done|]. simpl. lia.
    + exfalso. apply Hn. by rewrite Hsame.
  - intros Hu. simpl. by rewrite Htitle, Hu.
  - intros Hsp. unfold title_by_segments, title_by_words.
    by rewrite single_spaced_words_are_segments.
Qed.

(** ** A pointer that matches no stored session *)

Lemma createNewSession_fst now rnd title s :
  fst (createNewSession now rnd title s)
  = {| ChatSession.id := generateId now rnd;
       ChatSession.title := default (lit "New Presentation") title;
       ChatSession.messages := [];
       ChatSession.createdAt := now;
       ChatSession.updatedAt := now |}.
Proof. unfold createNewSession. by rewrite (getSessions_split s). Qed.

Lemma createNewSession_stored now rnd title s :
  window s = true →
  stored (snd (createNewSession now rnd title s))
  = fst (createNewSession now rnd title s) :: stored s
  ∧ currentSessionId (snd (createNewSession now rnd title s))
    = Some (generateId now rnd)
  ∧ window (snd (createNewSession now rnd title s)) = true.
Proof.
  intros Hw. unfold createNewSession. rewrite (getSessions_split s).
  pose proof (getSessions_same_store s) as (Hw' & _). rewrite Hw in Hw'.
  simpl. split; [|split].
  - rewrite stored_set_currentSessionId. by rewrite stored_saveSessions.
  - done.
  - unfold saveSessions. by rewrite Hw'.
Qed.

(** C9 (as amended).  With the pointer set by [setCurrentSession] to a
    non-empty id that no stored session has, [addMessageToCurrentSession]
    stores nothing and keeps the pointer: no session is created and the
    message is dropped.  With the pointer [null] or the empty string (both
    are falsy) it creates a session, titled from the message text, that
    holds the message and becomes current. *)
Theorem C9_dangling_pointer_drops_message
    (now : Date) (rnd : jsstring) (message : ChatMessage.t)
    (slides : option (list Slide.t)) (s : Service) :
  (∀ sid : jsstring,
     sid ≠ [] →
     (∀ sess, sess ∈ stored s → ChatSession.id sess ≠ sid) →
     same_store (setCurrentSession sid s)
       (addMessageToCurrentSession now rnd message slides
          (setCurrentSession sid s))
     ∧ stored (addMessageToCurrentSession now rnd message slides
                 (setCurrentSession sid s)) = stored s)
  ∧ (has_current s = false → window s = true →
     stored (addMessageToCurrentSession now rnd message slides s)
     = {| ChatSession.id := generateId now rnd;
          ChatSession.title := generateSessionTitle (ChatMessage.text message);
          ChatSession.messages :=
            [match slides with
             | Some sl => ChatMessage.with_slides message sl
             | None => message
             end];
          ChatSession.createdAt := now;
          ChatSession.updatedAt := now |} :: stored s
     ∧ currentSessionId (addMessageToCurrentSession now rnd message slides s)
       = Some (generateId now rnd)).
Proof.
  split.
  - intros sid Hne Hfresh.
    set (s0 := setCurrentSession sid s).
    assert (stored s0 = stored s) as Hst by (by apply stored_ext).
    assert (same_store s0 (addMessageToCurrentSession now rnd message slides s0)) as Hsame.
    { unfold addMessageToCurrentSession.
      assert (has_current s0 = true) as -> by (by destruct sid).
      simpl. rewrite (getSessions_split s0).
      pose proof (getSessions_same_store s0) as Hss.
      rewrite (findCurrent_same_store _ _ _ Hss).
      assert (findCurrent s0 (stored s0) = None) as ->; [|exact Hss].
      unfold findCurrent. apply list_find_None. rewrite Hst.
      apply Forall_forall. intros sess Hin [= Heq].
      by apply (Hfresh sess Hin). }
    split; [exact Hsame|].
    by rewrite (stored_same_store _ _ Hsame).
  - intros Hh Hw. unfold addMessageToCurrentSession. rewrite Hh. simpl.
    set (title := Some (generateSessionTitle (ChatMessage.text message))).
    destruct (createNewSession_stored now rnd title s Hw) as (Hst & Hcur & Hw1).
    set (s0 := snd (createNewSession now rnd title s)) in *.
    rewrite (getSessions_split s0).
    pose proof (getSessions_same_store s0) as Hss.
    rewrite (findCurrent_same_store _ _ _ Hss), Hst.
    rewrite createNewSession_fst.
    unfold findCurrent. rewrite Hcur. simpl.
    rewrite decide_True by done. simpl.
    split.
    + rewrite stored_saveSessions by (by destruct Hss as (-> & _)).
      f_equal. f_equal. by destruct (_ && _).
    + unfold saveSessions. destruct Hss as (-> & _ & Hc). rewrite Hw1.
      simpl. by rewrite Hc.
Qed.

End ChatHistoryFacts.

(* ================================================================== *)
(** * Properties of the generation client *)
(* ================================================================== *)

Module GeminiFacts.
Import GeminiService.

Lemma error_messages_differ : GENERATION_FAILED ≠ PARSE_FAILED.
Proof. discriminate. Qed.

Section Facts.
Variable JSON_parse : jsstring → result Json.value.
Variable JSON_stringify : list Slide.t → jsstring.
Variable generateContent : jsstring → result jsstring.
Variable INSTRUCTIONS : jsstring.

Lemma try_catch_const {A} (body : result A) (e e' : Error) :
  try_catch body (λ _, Throw e) = Throw e' → e' = e.
Proof. destruct body; simpl; congruence. Qed.

(** Whatever goes wrong inside [parseResponse], it throws the one
    error of its [catch] block. *)
Lemma parseResponse_throws text e :
  parseResponse JSON_parse text = Throw e → e = PARSE_FAILED.
Proof. apply try_catch_const. Qed.

Lemma generateSlides_throws prompt existingSlides e :
  generateSlides JSON_parse JSON_stringify generateContent INSTRUCTIONS
    prompt existingSlides = Throw e →
  e = GENERATION_FAILED.
Proof. apply try_catch_const. Qed.

Lemma get_slides_array parsed items :
  Json.get (lit "slides") parsed = Return (Some (Json.Array items)) →
  ∀ slides, Json.get (lit "slides") parsed = Return slides →
  negb (Json.truthy slides) || negb (Json.isArray slides) = false.
Proof. intros H slides H'. rewrite H in H'. by injection H' as <-. Qed.

(** [parseResponse] returns exactly when the cleaned text holds an
    object text that parses to a value with an array under [slides]. *)
Lemma parseResponse_Return text items :
  parseResponse JSON_parse text = Return items ↔
  ∃ jsonMatch parsed,
    match_object (trim (replace_fences text)) = Some jsonMatch
    ∧ JSON_parse jsonMatch = Return parsed
    ∧ Json.get (lit "slides") parsed = Return (Some (Json.Array items)).
Proof.
  unfold parseResponse, parseResponse_body. split.
  - destruct (match_object _) as [jsonMatch|]; [|done].
    destruct (JSON_parse jsonMatch) as [parsed|] eqn:Hparse; [|done].
    destruct (Json.get _ parsed) as [[v|]|] eqn:Hget; [|done|done].
    destruct v; simpl; try done.
    + by destruct b.
    + by destruct (Qeq_bool q 0).
    + by destruct s.
    + intros [= ->]. by exists jsonMatch, parsed.
  - intros (jsonMatch & parsed & -> & -> & ->). done.
Qed.

Lemma parseResponse_fails text :
  no_slide_document JSON_parse text →
  parseResponse JSON_parse text = Throw PARSE_FAILED.
Proof.
  intros Hno.
  destruct (parseResponse JSON_parse text) as [items|e] eqn:Hp.
  - exfalso. apply parseResponse_Return in Hp
      as (jsonMatch & parsed & Hm & Hj & Hg).
    destruct Hno as [Hno|[(j & e & Hm' & Hj')|(j & p & Hm' & Hj' & Hg')]].
    + congruence.
    + rewrite Hm in Hm'. injection Hm' as <-. congruence.
    + rewrite Hm in Hm'. injection Hm' as <-.
      rewrite Hj in Hj'. injection Hj' as <-. by apply (Hg' items).
  - by rewrite (parseResponse_throws _ _ Hp).
Qed.

(** C1.  The claim asks for a parse error that the caller of
    [generateSlides] can tell from a generation error.  For every
    response text that yields no slide document, [parseResponse] does
    throw its own error, with its own retry message; but the call
    stands inside the [try] block of [generateSlides], whose [catch]
    replaces every error by the generation error.  The caller sees the
    message of the generation failure. *)
Theorem C1_parse_failure_surfaces_as_generation_failure
    (prompt : jsstring) (existingSlides : list Slide.t) (text : jsstring) :
  generateContent (fullPrompt JSON_stringify INSTRUCTIONS prompt existingSlides)
    = Return text →
  no_slide_document JSON_parse text →
  parseResponse JSON_parse text = Throw PARSE_FAILED
  ∧ generateSlides JSON_parse JSON_stringify generateContent INSTRUCTIONS
      prompt existingSlides = Throw GENERATION_FAILED
  ∧ GENERATION_FAILED ≠ PARSE_FAILED.
Proof.
  intros Hup Hno. pose proof (parseResponse_fails text Hno) as Hp.
  split; [done|]. split; [|apply error_messages_differ].
  unfold generateSlides. by rewrite Hup, Hp.
Qed.

(** A failing model call gives the same error. *)
Lemma generateSlides_upstream_failure prompt existingSlides e :
  generateContent (fullPrompt JSON_stringify INSTRUCTIONS prompt existingSlides)
    = Throw e →
  generateSlides JSON_parse JSON_stringify generateContent INSTRUCTIONS
    prompt existingSlides = Throw GENERATION_FAILED.
Proof. intros Hup. unfold generateSlides. by rewrite Hup. Qed.

Lemma generateSlides_Return prompt existingSlides items :
  generateSlides JSON_parse JSON_stringify generateContent INSTRUCTIONS
    prompt existingSlides = Return items ↔
  ∃ text,
    generateContent (fullPrompt JSON_stringify INSTRUCTIONS prompt existingSlides)
      = Return text
    ∧ parseResponse JSON_parse text = Return items.
Proof.
  unfold generateSlides. split.
  - destruct (generateContent _) as [text|]; [|done].
    destruct (parseResponse JSON_parse text) eqn:Hp; [|done].
    intros [= ->]. eauto.
  - intros (text & -> & ->). done.
Qed.

End Facts.

End GeminiFacts.

(* ================================================================== *)
(** * Properties of the export pipeline *)
(* ================================================================== *)

Module PptGeneratorFacts.
Import PptGenerator ExportSpec.

Ltac run_monad :=
  unfold catch, bind, lift, ret, throw, onProgress, push_slide, downloaded,
    get_slides; cbn.

(** ** Drawing one slide *)

Lemma forEach_bullets (points : list jsstring) : ∀ index slide,
  forEach_from
    (λ point pointIndex,
       addText (BULLET_PREFIX ++ point) (bullet_options pointIndex))
    index points slide
  = {| background := background slide;
       texts := texts slide ++ imap (λ k, bullet_row (index + k)) points |}.
Proof.
  induction points as [|point points IH]; intros index slide; simpl.
  - rewrite app_nil_r. by destruct slide.
  - rewrite IH. unfold addText. simpl. f_equal.
    rewrite <- app_assoc. simpl. rewrite Nat.add_0_r. do 2 f_equal.
    apply imap_ext. intros k p _. simpl. f_equal. lia.
Qed.

(** C6.  What [createSimpleSlide] adds to a slide.  With layout [TITLE]:
    the title and then the first content line if there is one, both
    centred, and nothing else.  With layout [SECTION_HEADER]: the
    background colour, and again the title and the first content line if
    any, both centred.  With any other layout, known or not: the title at
    the top left, one bulleted row per content line in order, each 0.8
    below the one before, and the number [index + 1] right-aligned at the
    bottom right.  The function is total: no layout makes it fail. *)
Theorem C6_createSimpleSlide_layouts
    (slide : SlideObject) (slideData : Slide.t) (index : nat) :
  let drawn := createSimpleSlide slide slideData index in
  (Slide.layout slideData = TITLE →
     background drawn = background slide
     ∧ (∃ added, texts drawn = texts slide ++ added
          ∧ fst <$> added
            = Slide.title slideData :: take 1 (Slide.content slideData)
          ∧ Forall centered added))
  ∧ (Slide.layout slideData = SECTION_HEADER →
     background drawn = Some blue
     ∧ (∃ added, texts drawn = texts slide ++ added
          ∧ fst <$> added
            = Slide.title slideData :: take 1 (Slide.content slideData)
          ∧ Forall centered added))
  ∧ (Slide.layout slideData ≠ TITLE →
     Slide.layout slideData ≠ SECTION_HEADER →
     background drawn = background slide
     ∧ (∃ titleOptions numberOptions,
          texts drawn
          = texts slide
            ++ (Slide.title slideData, titleOptions)
               :: imap bullet_row (Slide.content slideData)
            ++ [(decimal (N.of_nat (index + 1)), numberOptions)]
          ∧ (x titleOptions, y titleOptions, align titleOptions)
            = ((1 # 2)%Q, (1 # 2)%Q, None)
          ∧ (x numberOptions, y numberOptions, align numberOptions)
            = ((17 # 2)%Q, (34 # 5)%Q, Some (lit "right"))))
  ∧ (∀ k point,
       fst (bullet_row k point) = BULLET_PREFIX ++ point
       ∧ bullet (snd (bullet_row k point)) = Some true
       ∧ y (snd (bullet_row k point))
         = ((9 # 5) + inject_Z (Z.of_nat k) * (4 # 5))%Q).
Proof.
  intros drawn. subst drawn. unfold createSimpleSlide.
  split; [|split; [|split]].
  - intros Hl. rewrite bool_decide_true by done.
    destruct (Slide.content slideData) as [|first rest]; cbn.
    + split; [done|]. eexists. split; [reflexivity|].
      split; [done|]. by repeat constructor.
    + split; [done|]. eexists. split; [by rewrite <- app_assoc|].
      split; [by rewrite take_0|]. by repeat constructor.
  - intros Hl. rewrite bool_decide_false by (rewrite Hl; discriminate).
    rewrite bool_decide_true by done.
    destruct (Slide.content slideData) as [|first rest]; cbn.
    + split; [done|]. eexists. split; [reflexivity|].
      split; [done|]. by repeat constructor.
    + split; [done|]. eexists. split; [by rewrite <- app_assoc|].
      split; [by rewrite take_0|]. by repeat constructor.
  - intros Hn1 Hn2. rewrite !bool_decide_false by done.
    unfold forEach. rewrite forEach_bullets. cbn. split; [done|].
    do 2 eexists. split; [by rewrite <- !app_assoc|].
    split; reflexivity.
  - done.
Qed.

(** ** The slide loop *)

(** The loop stops at the first slide, number [k] from [index], for
    which [addSlide] throws, having reported and drawn the [k] slides
    before it; with no such slide it reports and draws them all. *)
Lemma create_slides_spec env total rest : ∀ index r,
  ∃ k : nat,
    (k ≤ length rest)%nat
    ∧ snd (create_slides env total index rest r)
      = {| progress := progress r ++ (creating_event total <$> seq index k);
           slides := slides r ++ rendered_from index (take k rest);
           downloads := downloads r |}
    ∧ ((k = length rest ∧ fst (create_slides env total index rest r) = Return tt)
       ∨ ((k < length rest)%nat
          ∧ ∃ e, addSlide env (index + k) = Throw e
                 ∧ fst (create_slides env total index rest r) = Throw e)).
Proof.
  induction rest as [|slideData rest IH]; intros index r.
  - exists 0%nat. simpl. split; [done|]. split; [|by left].
    destruct r. simpl. by rewrite !app_nil_r.
  - simpl. run_monad.
    destruct (addSlide env index) as [[]|e] eqn:Hadd.
    + set (r1 := {| progress := progress r ++ [creating_event total index];
                    slides := slides r ++ [createSimpleSlide blank slideData index];
                    downloads := downloads r |}).
      destruct (IH (S index) r1) as (k & Hk & Hrun & Hres).
      destruct (create_slides env total (S index) rest r1) as [res run] eqn:Hc.
      simpl in *. exists (S k). split; [lia|]. split.
      * destruct res; simpl; rewrite Hrun; subst r1; simpl;
          by rewrite <- !app_assoc.
      * destruct Hres as [[-> ->]|(Hlt & e & He & ->)].
        -- by left.
        -- right. split; [lia|]. exists e.
           by replace (index + S k)%nat with (S index + k)%nat by lia.
    + exists 0%nat. simpl. split; [lia|]. split.
      * destruct r. simpl. by rewrite !app_nil_r.
      * right. split; [lia|]. exists e. by rewrite Nat.add_0_r.
Qed.

Lemma create_slides_all env total rest index r :
  (∀ i, (i < length rest)%nat → addSlide env (index + i) = Return tt) →
  create_slides env total index rest r
  = (Return tt,
     {| progress := progress r ++ (creating_event total <$> seq index (length rest));
        slides := slides r ++ rendered_from index rest;
        downloads := downloads r |}).
Proof.
  intros Hall.
  destruct (create_slides_spec env total rest index r) as (k & Hk & Hrun & Hres).
  destruct (create_slides env total index rest r) as [res run]. simpl in *.
  destruct Hres as [[-> ->]|(Hlt & e & He & _)].
  - by rewrite Hrun, firstn_all.
  - by rewrite Hall in He.
Qed.

(** ** Percentages *)

Ltac Qconst := unfold Qle; simpl; lia.

Lemma ratio_nonneg (i n : nat) :
  (0 <= inject_Z (Z.of_nat i) / inject_Z (Z.of_nat n))%Q.
Proof.
  unfold Qdiv. apply Qmult_le_0_compat.
  - change 0%Q with (inject_Z 0). rewrite <- Zle_Qle. lia.
  - apply Qinv_le_0_compat.
    change 0%Q with (inject_Z 0). rewrite <- Zle_Qle. lia.
Qed.

Lemma ratio_mono (i j n : nat) :
  (i ≤ j)%nat →
  (inject_Z (Z.of_nat i) / inject_Z (Z.of_nat n)
   <= inject_Z (Z.of_nat j) / inject_Z (Z.of_nat n))%Q.
Proof.
  intros Hij. unfold Qdiv. apply Qmult_le_compat_r.
  - rewrite <- Zle_Qle. lia.
  - apply Qinv_le_0_compat.
    change 0%Q with (inject_Z 0). rewrite <- Zle_Qle. lia.
Qed.

Lemma ratio_le_1 (i n : nat) :
  (i < n)%nat → (inject_Z (Z.of_nat i) / inject_Z (Z.of_nat n) <= 1)%Q.
Proof.
  intros Hin. apply Qle_shift_div_r.
  - change 0%Q with (inject_Z 0). rewrite <- Zlt_Qlt. lia.
  - rewrite Qmult_1_l. rewrite <- Zle_Qle. lia.
Qed.

Lemma creating_percentage_mono (n i j : nat) :
  (i ≤ j)%nat →
  (percentage (creating_event n i) <= percentage (creating_event n j))%Q.
Proof.
  intros Hij. simpl. apply Qplus_le_r. apply Qmult_le_compat_r.
  - by apply ratio_mono.
  - Qconst.
Qed.

Lemma creating_percentage_lower (n i : nat) :
  (30 <= percentage (creating_event n i))%Q.
Proof.
  simpl. rewrite <- (Qplus_0_r 30) at 1. apply Qplus_le_r.
  apply Qmult_le_0_compat; [apply ratio_nonneg|Qconst].
Qed.

Lemma creating_percentage_upper (n i : nat) :
  (i < n)%nat → (percentage (creating_event n i) <= 80)%Q.
Proof.
  intros Hin. simpl. change 80%Q with (30 + 1 * 50)%Q.
  apply Qplus_le_r. apply Qmult_le_compat_r; [by apply ratio_le_1|Qconst].
Qed.

Lemma creating_percentages_sorted (n : nat) : ∀ k index,
  StronglySorted Qle (percentage <$> (creating_event n <$> seq index k)).
Proof.
  induction k as [|k IH]; intros index; simpl; constructor.
  - apply IH.
  - rewrite <- list_fmap_compose. apply Forall_fmap, Forall_seq.
    intros j Hj. simpl. apply (creating_percentage_mono n index j). lia.
Qed.

(** The percentages of a complete run never decrease. *)
Lemma progress_percentages_sorted (n : nat) (msg : jsstring) :
  StronglySorted Qle
    (percentage <$> (progress_before_write n ++ [complete_event msg])).
Proof.
  unfold progress_before_write. simpl. rewrite <- app_assoc. simpl.
  rewrite fmap_app. constructor.
  - apply StronglySorted_app. split; [|split].
    + intros x1 x2 Hx1 Hx2.
      apply list_elem_of_fmap in Hx1 as (ev & -> & Hev).
      apply list_elem_of_fmap in Hev as (i & -> & Hi).
      apply elem_of_seq in Hi.
      assert (percentage (creating_event n i) <= 80)%Q as H80
        by (apply creating_percentage_upper; lia).
      simpl in Hx2.
      apply elem_of_cons in Hx2 as [->|Hx2];
        [|apply list_elem_of_singleton in Hx2 as ->];
        (eapply Qle_trans; [exact H80|Qconst]).
    + apply creating_percentages_sorted.
    + simpl. repeat constructor. Qconst.
  - apply Forall_app. split.
    + rewrite <- list_fmap_compose. apply Forall_fmap, Forall_seq.
      intros j Hj. eapply Qle_trans; [|apply creating_percentage_lower].
      Qconst.
    + simpl. repeat constructor; Qconst.
Qed.

(** ** Whole runs *)

Lemma start_progress (l : list GenerationProgress) :
  ([] ++ [initializing_event]) ++ l = initializing_event :: l.
Proof. reflexivity. Qed.

Lemma prefix_before_write_slides (n k : nat) :
  (k ≤ n)%nat →
  (initializing_event :: (creating_event n <$> seq 0 k))
    `prefix_of` progress_before_write n.
Proof.
  intros Hk. unfold progress_before_write.
  exists ((creating_event n <$> seq k (n - k)) ++ [finalizing_event]).
  simpl. f_equal. rewrite app_assoc, <- fmap_app. do 2 f_equal.
  replace n with (k + (n - k))%nat at 1 by lia. apply seq_app.
Qed.

(** In the browser a run ends in one of two ways: it returns, having
    reported every stage and then [complete]; or it throws, having
    reported some first stages and then [error]. *)
Lemma generatePresentation_progress env slides forPreview format :
  has_window env = true →
  let outcome := generatePresentation env slides forPreview format start in
  (∃ url msg,
     fst outcome = Return url
     ∧ progress (snd outcome)
       = progress_before_write (length slides) ++ [complete_event msg])
  ∨ (∃ e reported,
       fst outcome = Throw e
       ∧ reported `prefix_of` progress_before_write (length slides)
       ∧ progress (snd outcome) = reported ++ [error_event]).
Proof.
  intros Hw. unfold generatePresentation, generatePresentation_body.
  rewrite Hw. run_monad.
  destruct (import_pptxgenjs env) as [[]|e]; simpl.
  2: { right. exists e, []. split; [done|]. split; [|done].
       apply prefix_nil. }
  match goal with |- context [create_slides ?a ?b ?c ?d ?r] =>
    destruct (create_slides_spec a b d c r) as (k & Hk & Hrun & Hres);
    destruct (create_slides a b c d r) as [res run] end.
  simpl in Hrun, Hres. subst run.
  destruct Hres as [[-> ->]|(Hlt & e & _ & ->)]; simpl.
  2: { right. exists e, (initializing_event :: (creating_event (length slides) <$> seq 0 k)).
       split; [done|]. split; [|done].
       apply prefix_before_write_slides. lia. }
  rewrite firstn_all.
  assert (∀ msg,
    ((initializing_event :: (creating_event (length slides) <$> seq 0 (length slides)))
       ++ [finalizing_event]) ++ [msg]
    = progress_before_write (length slides) ++ [msg]) as Hdone by done.
  assert (∀ l : list GenerationProgress, l `prefix_of` l) as Hrefl by (intros; reflexivity).
  destruct forPreview; [|destruct format]; simpl.
  - destruct (write env _) as [[]|e]; simpl.
    + left. eauto.
    + right. exists e, (progress_before_write (length slides)). eauto.
  - destruct (writeFile env _ _) as [[]|e]; simpl.
    + left. eauto.
    + right. exists e, (progress_before_write (length slides)). eauto.
  - destruct (write env _) as [[]|e]; simpl.
    + destruct (downloadBlob env _) as [[]|e]; simpl.
      * left. eauto.
      * destruct (writeFile env _ _) as [[]|e']; simpl.
        -- left. eauto.
        -- right. exists e', (progress_before_write (length slides)). eauto.
    + destruct (writeFile env _ _) as [[]|e']; simpl.
      * left. eauto.
      * right. exists e', (progress_before_write (length slides)). eauto.
Qed.

Lemma progress_before_write_creating (n i : nat) :
  (i < n)%nat →
  progress_before_write n !! S i = Some (creating_event n i).
Proof.
  intros Hin. unfold progress_before_write. simpl.
  rewrite lookup_app_l by (rewrite length_fmap, length_seq; lia).
  rewrite list_lookup_fmap, lookup_seq_lt by lia. done.
Qed.

Lemma stage_progress_before_write (n : nat) :
  stage <$> progress_before_write n = stages_before_write n.
Proof.
  unfold progress_before_write, stages_before_write.
  rewrite fmap_cons, fmap_app, <- list_fmap_compose. done.
Qed.

Lemma stage_creating_events (n k : nat) :
  stage <$> (creating_event n <$> seq 0 k) = creating_stage n <$> seq 0 k.
Proof. by rewrite <- list_fmap_compose. Qed.

Lemma prefix_before_write_sorted (n : nat) (reported : list GenerationProgress) :
  reported `prefix_of` progress_before_write n →
  StronglySorted Qle (percentage <$> reported).
Proof.
  intros [rest Hrest].
  pose proof (progress_percentages_sorted n []) as Hsorted.
  rewrite Hrest, <- app_assoc, fmap_app in Hsorted.
  by apply StronglySorted_app_1_l in Hsorted.
Qed.

(** C3 (as amended).  Outside the browser [generatePresentation] throws
    at once: nothing is reported, drawn or downloaded.  In the browser, a
    run over [n] slides that returns has reported [initializing] at 10,
    then for each slide index [i] from 0 one [creating_slides] event with
    percentage [30 + (i / n) * 50], current slide [i + 1] and total [n],
    then [finalizing] at 90, then [complete] at 100, and these percentages
    never decrease.  A run that throws in the browser has reported a
    first part of the events before [complete], with percentages that
    never decrease, and then one last event, [error] at 0; there is no
    [complete]. *)
Theorem C3_progress_protocol
    (env : Browser) (slides : list Slide.t) (forPreview : bool)
    (format : Format) :
  let n := length slides in
  let outcome := generatePresentation env slides forPreview format start in
  (has_window env = false →
     outcome
     = (Throw (mkError
          (lit "Presentation generation is only available in the browser")),
        start)
     ∧ progress (snd outcome) = [])
  ∧ (has_window env = true →
     (∀ url, fst outcome = Return url →
        stage <$> progress (snd outcome)
        = stages_before_write n ++ [(complete, 100%Q, None, None)]
        ∧ StronglySorted Qle (percentage <$> progress (snd outcome)))
     ∧ (∀ e, fst outcome = Throw e →
          ∃ reported final,
            progress (snd outcome) = reported ++ [final]
            ∧ stage final = (error, 0%Q, None, None)
            ∧ stage <$> reported `prefix_of` stages_before_write n
            ∧ StronglySorted Qle (percentage <$> reported))).
Proof.
  intros n outcome. split.
  - intros Hw. subst outcome. unfold generatePresentation. by rewrite Hw.
  - intros Hw.
    pose proof (generatePresentation_progress env slides forPreview format Hw)
      as Hrun. fold outcome n in Hrun.
    split.
    + intros url Hret.
      destruct Hrun as [(url' & msg & _ & Hp)|(e & reported & Hthrow & _)];
        [|congruence].
      rewrite Hp. split; [|apply progress_percentages_sorted].
      by rewrite fmap_app, stage_progress_before_write.
    + intros e Hthrow.
      destruct Hrun as [(url' & msg & Hret & _)|(e' & reported & _ & Hpre & Hp)];
        [congruence|].
      exists reported, error_event.
      split; [done|]. split; [done|].
      split; [|by eapply prefix_before_write_sorted].
      destruct Hpre as [rest Hrest].
      exists (stage <$> rest).
      by rewrite <- stage_progress_before_write, Hrest, fmap_app.
Qed.

(** C2 (as amended).  An empty document is exported like any other.  In
    the browser, when the import and the writes succeed, the run returns
    after exactly three events: [initializing] at 10, [finalizing] at 90
    and [complete] at 100, with no [creating_slides] event.  In the
    browser it throws only an error that the import or a write has
    thrown, and the last event is then [error] at 0.  Outside the browser
    it throws the error of the environment check and reports nothing. *)
Theorem C2_empty_document_is_exported
    (env : Browser) (forPreview : bool) (format : Format) :
  let outcome := generatePresentation env [] forPreview format start in
  (has_window env = true →
   import_pptxgenjs env = Return tt →
   write env [] = Return tt →
   (∀ name, writeFile env name [] = Return tt) →
   ∃ url,
     fst outcome = Return url
     ∧ stage <$> progress (snd outcome)
       = [(initializing, 10%Q, None, None); (finalizing, 90%Q, None, None);
          (complete, 100%Q, None, None)])
  ∧ (has_window env = true →
     ∀ e, fst outcome = Throw e →
       stage <$> last (progress (snd outcome)) = Some (error, 0%Q, None, None)
       ∧ (import_pptxgenjs env = Throw e
          ∨ write env [] = Throw e
          ∨ ∃ name, writeFile env name [] = Throw e))
  ∧ (has_window env = false →
     outcome
     = (Throw (mkError
          (lit "Presentation generation is only available in the browser")),
        start)).
Proof.
  intros outcome. subst outcome.
  unfold generatePresentation, generatePresentation_body.
  split; [|split].
  - intros Hw. rewrite Hw. run_monad.
    intros -> Hwrite HwriteFile. simpl.
    destruct forPreview; [|destruct format]; simpl.
    + rewrite Hwrite. simpl. eauto.
    + rewrite HwriteFile. simpl. eauto.
    + rewrite Hwrite. simpl.
      destruct (downloadBlob env _) as [[]|e]; simpl; [eauto|].
      rewrite HwriteFile. simpl. eauto.
  - intros Hw. rewrite Hw. run_monad. intros e.
    destruct (import_pptxgenjs env) as [[]|e0] eqn:Himport; simpl.
    2: { intros [= ->]. eauto. }
    destruct forPreview; [|destruct format]; simpl.
    + destruct (write env []) as [[]|e1] eqn:Hwrite; simpl; [done|].
      intros [= ->]. eauto.
    + destruct (writeFile env _ []) as [[]|e1] eqn:HwriteFile; simpl; [done|].
      intros [= ->]. eauto 6.
    + destruct (write env []) as [[]|e1] eqn:Hwrite; simpl.
      * destruct (downloadBlob env _) as [[]|e2]; simpl; [done|].
        destruct (writeFile env _ []) as [[]|e3] eqn:HwriteFile; simpl; [done|].
        intros [= ->]. eauto 6.
      * destruct (writeFile env _ []) as [[]|e3] eqn:HwriteFile; simpl; [done|].
        intros [= ->]. eauto 6.
  - intros Hw. by rewrite Hw.
Qed.

(** C4.  Download as [pdf], every stage before the write having
    succeeded: when the write of the blob or its download throws and the
    write of the [.pptx] file succeeds, the run returns
    ['download-started'] and the one file handed to the download surface
    is [presentation-<time>.pptx].  Its last event has step [complete],
    percentage 100 and the message ['PPTX downloaded (PDF not available)'],
    and comes after [initializing], the slides and [finalizing]. *)
Theorem C4_pdf_failure_falls_back_to_pptx
    (env : Browser) (slides : list Slide.t) :
  has_window env = true →
  import_pptxgenjs env = Return tt →
  (∀ i, (i < length slides)%nat → addSlide env i = Return tt) →
  ((∃ e, write env (rendered slides) = Throw e)
   ∨ (∃ e, downloadBlob env (file_name env pdf) = Throw e)) →
  writeFile env (file_name env pptx) (rendered slides) = Return tt →
  let run := generatePresentation env slides false pdf start in
  run
  = (Return (lit "download-started"),
     {| progress :=
          progress_before_write (length slides)
          ++ [complete_event (lit "PPTX downloaded (PDF not available)")];
        PptGenerator.slides := rendered slides;
        downloads := [file_name env pptx] |})
  ∧ downloads (snd run)
    = [lit "presentation-" ++ decimal (Date_now env) ++ lit ".pptx"]
  ∧ stage <$> progress (snd run)
    = stages_before_write (length slides) ++ [(complete, 100%Q, None, None)]
  ∧ ∃ final,
      last (progress (snd run)) = Some final
      ∧ step final = complete
      ∧ message final = lit "PPTX downloaded (PDF not available)"
      ∧ percentage final = 100%Q.
Proof.
  intros Hw Himport Hadd Hpdf Hpptx run.
  assert (run
          = (Return (lit "download-started"),
             {| progress :=
                  progress_before_write (length slides)
                  ++ [complete_event (lit "PPTX downloaded (PDF not available)")];
                PptGenerator.slides := rendered slides;
                downloads := [file_name env pptx] |})) as Hrun.
  { subst run. unfold generatePresentation, generatePresentation_body.
    rewrite Hw, Himport. run_monad.
    rewrite create_slides_all by (intros i Hi; by apply Hadd).
    cbn. fold (rendered slides).
    change (file_name env pptx)
      with (lit "presentation-" ++ decimal (Date_now env) ++ lit ".pptx")
      in Hpptx.
    change (file_name env pdf)
      with (lit "presentation-" ++ decimal (Date_now env) ++ lit "." ++ lit "pdf")
      in Hpdf.
    destruct (write env (rendered slides)) as [[]|e1] eqn:Hwrite; cbn.
    - destruct Hpdf as [[e He]|[e He]]; [done|]. rewrite He. cbn.
      rewrite Hpptx. cbn. done.
    - rewrite Hpptx. cbn. done. }
  rewrite Hrun. cbn [fst snd progress downloads].
  split; [done|]. split; [done|]. split.
  - by rewrite fmap_app, stage_progress_before_write.
  - eexists. split; [apply last_snoc|]. done.
Qed.

End PptGeneratorFacts.

(* ================================================================== *)
(** * Properties of in-place editing *)
(* ================================================================== *)

Module SlidePreviewFacts.
Import SlidePreview PreviewSpec.

Lemma trimStart_nil (s : jsstring) :
  trimStart s = [] ↔ Forall (λ c, is_white_space c = true) s.
Proof.
  induction s as [|c s IH]; simpl; [done|].
  destruct (is_white_space c) eqn:Hc.
  - rewrite IH. split; [by constructor|]. by inversion 1.
  - split; [done|]. inversion 1; congruence.
Qed.

Lemma trimStart_head (s : jsstring) c r :
  trimStart s = c :: r → is_white_space c = false.
Proof.
  induction s as [|d s IH]; simpl; [done|].
  destruct (is_white_space d) eqn:Hd; [done|]. by intros [= <- _].
Qed.

Lemma trimEnd_nil (s : jsstring) :
  trimEnd s = [] ↔ Forall (λ c, is_white_space c = true) s.
Proof.
  induction s as [|c s IH]; simpl; [done|].
  destruct (trimEnd s) as [|d r] eqn:Ht.
  - destruct (is_white_space c) eqn:Hc.
    + split; [|done]. intros _. constructor; [done|]. by apply IH.
    + split; [done|]. inversion 1; congruence.
  - split; [done|]. inversion 1 as [|? ? _ Hs]. by apply IH in Hs.
Qed.

Lemma trim_nil (s : jsstring) :
  trim s = [] ↔ Forall (λ c, is_white_space c = true) s.
Proof.
  unfold trim. rewrite trimEnd_nil. rewrite <- (trimStart_nil s).
  destruct (trimStart s) as [|c r] eqn:Ht; [done|].
  apply trimStart_head in Ht. split; [|done].
  inversion 1; congruence.
Qed.

Lemma visible_not_blank (line : jsstring) :
  visible line ↔ ¬ Forall (λ c, is_white_space c = true) line.
Proof.
  unfold visible. induction line as [|c line IH].
  - split; [by inversion 1|]. intros H. by destruct H.
  - rewrite Exists_cons, Forall_cons, IH.
    destruct (is_white_space c); split; intros H.
    + destruct H as [?|?]; [done|tauto].
    + right. tauto.
    + by intros [? _].
    + by left.
Qed.

(** The filter of [handleSave] keeps exactly the visible lines. *)
Lemma truthy_trim_visible (line : jsstring) :
  truthy (trim line) = true ↔ visible line.
Proof.
  rewrite visible_not_blank, <- trim_nil.
  destruct (trim line); simpl; [|done].
  split; [done|]. by intros [].
Qed.

Lemma handleSave_out_of_range slides st :
  slides !! currentSlideIndex st = None →
  handleSave slides st = (None, st).
Proof. intros H. unfold handleSave. by rewrite H. Qed.

(** C10.  With a current slide, [handleSave] hands [onSlidesUpdate] the
    document in which that slide has the same title and layout and, as
    content, the lines of the edited text that are visible, in their
    order; so no saved line is empty or all white space.  The document
    keeps its length and every other slide. *)
Theorem C10_handleSave_replaces_content
    (slides : list Slide.t) (st : State) (currentSlide : Slide.t) :
  slides !! currentSlideIndex st = Some currentSlide →
  ∃ updatedSlides saved,
    fst (handleSave slides st) = Some updatedSlides
    ∧ updatedSlides !! currentSlideIndex st = Some saved
    ∧ Slide.title saved = Slide.title currentSlide
    ∧ Slide.layout saved = Slide.layout currentSlide
    ∧ Slide.content saved = filter visible (split NEWLINE (editContent st))
    ∧ Forall visible (Slide.content saved)
    ∧ length updatedSlides = length slides
    ∧ (∀ j, j ≠ currentSlideIndex st → updatedSlides !! j = slides !! j).
Proof.
  intros Hcur. unfold handleSave. rewrite Hcur. simpl.
  eexists _, _. split; [reflexivity|].
  assert (currentSlideIndex st < length slides)%nat as Hlt
    by (by eapply lookup_lt_Some).
  split; [by apply list_lookup_insert_eq|]. simpl.
  split; [done|]. split; [done|].
  assert (filter (λ line, truthy (trim line) = true)
            (split NEWLINE (editContent st))
          = filter visible (split NEWLINE (editContent st))) as ->.
  { apply list_filter_iff. intros line. apply truthy_trim_visible. }
  split; [done|]. split.
  - apply Forall_forall. intros line Hin.
    by apply list_elem_of_filter in Hin as [? _].
  - split; [by rewrite length_insert|].
    intros j Hj. by rewrite list_lookup_insert_ne.
Qed.

End SlidePreviewFacts.

(* ================================================================== *)
(** * The session store: creation, deletion, reading back *)
(* ================================================================== *)

Module ChatHistoryMore.
Import ChatHistoryService StoreSpec StoreMoreSpec ChatHistoryFacts TitleSpec.

Lemma decimal_nonempty (n : N) : decimal n ≠ [].
Proof.
  unfold decimal, lit.
  assert (N.to_uint n ≠ Decimal.Nil) as Hn.
  { destruct n; simpl; [discriminate|apply DecimalPos.Unsigned.to_uint_nonnil]. }
  destruct (N.to_uint n); simpl; try discriminate. done.
Qed.

Lemma generateId_truthy now rnd : truthy (generateId now rnd) = true.
Proof.
  unfold generateId. pose proof (decimal_nonempty now) as Hd.
  by destruct (decimal now).
Qed.

Lemma getCurrentSession_lookup s :
  has_current s = true →
  fst (getCurrentSession s) = snd <$> findCurrent s (stored s).
Proof.
  intros Hh. unfold getCurrentSession. rewrite Hh. simpl.
  rewrite (getSessions_split s). simpl.
  by rewrite (findCurrent_same_store _ _ _ (getSessions_same_store s)).
Qed.

Lemma findCurrent_head s x l :
  currentSessionId s = Some (ChatSession.id x) →
  findCurrent s (x :: l) = Some (0%nat, x).
Proof.
  intros Hc. unfold findCurrent. simpl. by rewrite decide_True.
Qed.

(** Replacing the session found by one with the same id keeps it found at
    the same place. *)
Lemma findCurrent_insert s l i x x' :
  findCurrent s l = Some (i, x) →
  ChatSession.id x' = ChatSession.id x →
  findCurrent s (<[i := x']> l) = Some (i, x').
Proof.
  unfold findCurrent. intros Hf Hid.
  apply list_find_Some in Hf as (Hl & HP & Hbefore).
  apply list_find_Some. split; [|split].
  - apply list_lookup_insert_eq. by eapply lookup_lt_Some.
  - by rewrite Hid.
  - intros j y Hj Hlt. rewrite list_lookup_insert_ne in Hj by lia.
    by eapply Hbefore.
Qed.

Lemma createNewSession_pointer now rnd title s :
  currentSessionId (snd (createNewSession now rnd title s))
  = Some (generateId now rnd).
Proof. unfold createNewSession. by rewrite (getSessions_split s). Qed.

Lemma createNewSession_browser now rnd title s :
  window s = true →
  fst (createNewSession now rnd title s)
  = fresh_session now rnd (default (lit "New Presentation") title)
  ∧ stored (snd (createNewSession now rnd title s))
    = fst (createNewSession now rnd title s) :: stored s
  ∧ fst (getCurrentSession (snd (createNewSession now rnd title s)))
    = Some (fst (createNewSession now rnd title s)).
Proof.
  intros Hw.
  destruct (createNewSession_stored now rnd title s Hw) as (Hst & Hcur & _).
  split; [apply createNewSession_fst|]. split; [done|].
  rewrite getCurrentSession_lookup.
  - rewrite Hst, findCurrent_head; [done|].
    by rewrite Hcur, createNewSession_fst.
  - unfold has_current. rewrite Hcur. apply generateId_truthy.
Qed.

(** In the browser [createNewSession] puts the new session in front of
    the stored ones, whatever the stored blob was, and makes it current:
    [getCurrentSession] returns it. *)
Theorem createNewSession_front_and_current
    (now : Date) (rnd : jsstring) (title : option jsstring) (s : Service) :
  window s = true →
  let created := fst (createNewSession now rnd title s) in
  let s' := snd (createNewSession now rnd title s) in
  created = fresh_session now rnd (default (lit "New Presentation") title)
  ∧ stored s' = created :: stored s
  ∧ fst (getCurrentSession s') = Some created.
Proof. intros Hw created s'. by apply createNewSession_browser. Qed.

(** Reading back what was appended: with a current session, after
    [addMessageToCurrentSession] the current session is the same one, its
    messages are the old ones followed by one more, which has the id,
    text, author and timestamp of the message and, as [slides], the
    slides passed to the call, or those of the message when none were
    passed; its [updatedAt] is the time of the call, and every other
    stored session is as before. *)
Theorem addMessage_then_getCurrentSession
    (now : Date) (rnd : jsstring) (message : ChatMessage.t)
    (slides : option (list Slide.t)) (s : Service)
    (i : nat) (session : ChatSession.t) :
  current_target s = Some (i, session) →
  let s' := addMessageToCurrentSession now rnd message slides s in
  ∃ session' added,
    fst (getCurrentSession s') = Some session'
    ∧ ChatSession.id session' = ChatSession.id session
    ∧ ChatSession.messages session' = ChatSession.messages session ++ [added]
    ∧ ChatMessage.slides added
      = match slides with
        | Some passed => Some passed
        | None => ChatMessage.slides message
        end
    ∧ ChatMessage.id added = ChatMessage.id message
    ∧ ChatMessage.text added = ChatMessage.text message
    ∧ ChatMessage.isUser added = ChatMessage.isUser message
    ∧ ChatMessage.timestamp added = ChatMessage.timestamp message
    ∧ ChatSession.createdAt session' = ChatSession.createdAt session
    ∧ ChatSession.updatedAt session' = now
    ∧ length (stored s') = length (stored s)
    ∧ (∀ j, j ≠ i → stored s' !! j = stored s !! j).
Proof.
  intros Ht s'. subst s'.
  destruct (addMessage_to_current now rnd message slides s i session Ht)
    as (title & Hst & Hcur & _).
  apply current_target_Some in Ht as (Hh & Hf & Hw).
  exists (appended now message slides session title),
    (stored_message message slides).
  assert (has_current (addMessageToCurrentSession now rnd message slides s) = true)
    as Hh' by (unfold has_current in *; by rewrite Hcur).
  split; [|split; [done|split; [done|split; [by destruct slides|]]]].
  2: { split; [by destruct slides|]. split; [by destruct slides|].
       split; [by destruct slides|]. split; [by destruct slides|].
       split; [done|]. split; [done|]. split.
       - by rewrite Hst, length_insert.
       - intros j Hj. by rewrite Hst, list_lookup_insert_ne. }
  - rewrite getCurrentSession_lookup, Hst by done.
    assert (findCurrent (addMessageToCurrentSession now rnd message slides s)
              (stored s) = Some (i, session)) as Hf'.
    { unfold findCurrent in *. by rewrite Hcur. }
    by rewrite (findCurrent_insert _ _ _ _ _ Hf').
Qed.

Lemma filter_all_kept {A} (P : A → Prop) `{∀ x, Decision (P x)} (l : list A) :
  Forall P l → filter P l = l.
Proof.
  induction 1 as [|x l Hx _ IH]; [done|].
  by rewrite filter_cons_True, IH.
Qed.

Lemma getCurrentSession_head s x rest :
  stored s = x :: rest →
  currentSessionId s = Some (ChatSession.id x) →
  ChatSession.id x ≠ [] →
  fst (getCurrentSession s) = Some x.
Proof.
  intros Hst Hcur Hid. rewrite getCurrentSession_lookup.
  - by rewrite Hst, findCurrent_head.
  - unfold has_current. rewrite Hcur. by destruct (ChatSession.id x).
Qed.

Lemma getCurrentSession_none_stored s :
  stored s = [] → fst (getCurrentSession s) = None.
Proof.
  intros Hst. unfold getCurrentSession.
  destruct (has_current s); [|done]. simpl.
  rewrite (getSessions_split s). simpl. by rewrite Hst.
Qed.

(** In the browser [deleteSession] keeps, in order, exactly the sessions
    with another id.  The pointer moves only when it pointed at the deleted
    id: then it goes to the new front session, which [getCurrentSession]
    returns, or to [null] when nothing is left.  Deleting an id that no
    session has leaves the collection as it was. *)
Theorem deleteSession_removes_and_repoints (sessionId : jsstring) (s : Service) :
  window s = true →
  let s' := deleteSession sessionId s in
  stored s' = filter (λ sess, ChatSession.id sess ≠ sessionId) (stored s)
  ∧ (∀ sess, sess ∈ stored s' → ChatSession.id sess ≠ sessionId)
  ∧ (currentSessionId s ≠ Some sessionId →
     currentSessionId s' = currentSessionId s)
  ∧ (currentSessionId s = Some sessionId →
     match stored s' with
     | [] => currentSessionId s' = None ∧ fst (getCurrentSession s') = None
     | front :: _ =>
         currentSessionId s' = Some (ChatSession.id front)
         ∧ (ChatSession.id front ≠ [] → fst (getCurrentSession s') = Some front)
     end)
  ∧ ((∀ sess, sess ∈ stored s → ChatSession.id sess ≠ sessionId) →
     stored s' = stored s).
Proof.
  intros Hw s'.
  pose proof (getSessions_same_store s) as (Hw1 & Hl1 & Hc1).
  rewrite Hw in Hw1.
  set (kept := filter (λ sess, ChatSession.id sess ≠ sessionId) (stored s)).
  assert (stored s' = kept) as Hst.
  { subst s'. unfold deleteSession. rewrite (getSessions_split s). fold kept.
    destruct (bool_decide _);
      [rewrite stored_set_currentSessionId|]; by rewrite stored_saveSessions. }
  assert (currentSessionId s ≠ Some sessionId →
          currentSessionId s' = currentSessionId s) as Hkeep.
  { intros Hne. subst s'. unfold deleteSession. rewrite (getSessions_split s).
    fold kept. unfold saveSessions. rewrite Hw1. simpl.
    rewrite bool_decide_false by (by rewrite Hc1). simpl. done. }
  assert (currentSessionId s = Some sessionId →
          currentSessionId s' = ChatSession.id <$> head kept) as Hmove.
  { intros Heq. subst s'. unfold deleteSession. rewrite (getSessions_split s).
    fold kept. unfold saveSessions. rewrite Hw1. simpl.
    rewrite bool_decide_true by (by rewrite Hc1). done. }
  split; [done|]. split; [|split; [done|split]].
  - intros sess Hin. rewrite Hst in Hin.
    by apply list_elem_of_filter in Hin as [? _].
  - intros Heq. specialize (Hmove Heq). rewrite Hst.
    destruct kept as [|front rest] eqn:Hk; simpl in Hmove.
    + split; [done|]. by apply getCurrentSession_none_stored.
    + split; [done|]. intros Hid. by eapply getCurrentSession_head.
  - intros Hnone. rewrite Hst. apply filter_all_kept.
    by apply Forall_forall.
Qed.

(** In the browser [clearAllSessions] leaves exactly one session, the
    default one with no message, and it is current. *)
Theorem clearAllSessions_leaves_default
    (now : Date) (rnd : jsstring) (s : Service) :
  window s = true →
  let s' := clearAllSessions now rnd s in
  stored s' = [fresh_session now rnd (lit "New Presentation")]
  ∧ fst (getCurrentSession s')
    = Some (fresh_session now rnd (lit "New Presentation")).
Proof.
  intros Hw s'. subst s'. unfold clearAllSessions, ensureDefaultSession.
  set (s0 := set_currentSessionId None (saveSessions [] s)).
  assert (window s0 = true) as Hw0
    by (subst s0; unfold saveSessions; by rewrite Hw).
  assert (stored s0 = []) as Hst0.
  { subst s0. rewrite stored_set_currentSessionId. by apply stored_saveSessions. }
  rewrite (getSessions_split s0), Hst0.
  pose proof (getSessions_same_store s0) as (Hw1 & _). rewrite Hw0 in Hw1.
  pose proof (stored_same_store _ _ (getSessions_same_store s0)) as Hst1.
  rewrite Hst0 in Hst1.
  destruct (createNewSession_browser now rnd
              (Some (lit "New Presentation")) _ Hw1) as (Hc & Hst & Hcur).
  rewrite Hst1 in Hst. simpl in Hc. rewrite Hc in Hst, Hcur. done.
Qed.

(** A service constructed in the browser has a current session, the one
    at the front of the store: the stored front session when the store
    holds sessions (its id being a non-empty string), and a new default
    session when the store is absent, empty or corrupt. *)
Theorem new_service_has_current
    (now : Date) (rnd : jsstring) (stored0 : option item) :
  (∀ front rest, stored0 = Some (Serialized (front :: rest)) →
     ChatSession.id front ≠ []) →
  let s := new now rnd true stored0 in
  ∃ current,
    fst (getCurrentSession s) = Some current
    ∧ head (stored s) = Some current
    ∧ match stored0 with
      | Some (Serialized (front :: rest)) =>
          current = front ∧ stored s = front :: rest
      | _ => stored s = [fresh_session now rnd (lit "New Presentation")]
      end.
Proof.
  intros Hids s. subst s. unfold new, ensureDefaultSession.
  set (s0 := {| window := true; localStorage := stored0;
                currentSessionId := None; console := [] |}).
  rewrite (getSessions_split s0).
  pose proof (getSessions_same_store s0) as Hss.
  pose proof Hss as (Hw1 & _). simpl in Hw1.
  pose proof (stored_same_store _ _ Hss) as Hst1.
  destruct (stored s0) as [|front rest] eqn:Hst0.
  - destruct (createNewSession_browser now rnd
                (Some (lit "New Presentation")) _ Hw1) as (Hc & Hst & Hcur).
    rewrite Hst1 in Hst. simpl in Hc. rewrite Hc in Hst, Hcur.
    exists (fresh_session now rnd (lit "New Presentation")).
    split; [done|]. split; [by rewrite Hst|].
    destruct stored0 as [[|[|front rest]]|]; try done.
  - apply stored_nonempty_window in Hst0 as Hs0. destruct Hs0 as [_ Hl].
    simpl in Hl. subst stored0.
    exists front. rewrite stored_set_currentSessionId, Hst1.
    split; [|done].
    apply (getCurrentSession_head _ front rest).
    + by rewrite stored_set_currentSessionId.
    + done.
    + by eapply Hids.
Qed.

(** Without a [window] (server-side rendering) the store is out of reach:
    [getSessions] returns the empty array, and no operation writes to the
    storage.  In particular a message passed to
    [addMessageToCurrentSession] is dropped. *)
Theorem no_window_nothing_stored
    (now : Date) (rnd : jsstring) (message : ChatMessage.t)
    (slides : option (list Slide.t)) (deck : list Slide.t)
    (title : option jsstring) (sessionId : jsstring) (s : Service) :
  window s = false →
  stored s = []
  ∧ (∀ s', s' ∈ [snd (createNewSession now rnd title s);
                 addMessageToCurrentSession now rnd message slides s;
                 updateCurrentSessionSlides now deck s;
                 deleteSession sessionId s;
                 clearAllSessions now rnd s;
                 ensureDefaultSession now rnd s] →
       window s' = false ∧ localStorage s' = localStorage s ∧ stored s' = []
       ∧ fst (getCurrentSession s') = None).
Proof.
  intros Hw.
  assert (∀ s', window s' = false → stored s' = []) as Hstored.
  { intros s' Hw'. unfold stored, getSessions. by rewrite Hw'. }
  assert (∀ s', window s' = false → fst (getCurrentSession s') = None) as Hcur.
  { intros s' Hw'. apply getCurrentSession_none_stored. by apply Hstored. }
  assert (getSessions s = ([], s)) as Hget
    by (unfold getSessions; by rewrite Hw).
  assert (∀ l, saveSessions l s = s) as Hsave
    by (intros l; unfold saveSessions; by rewrite Hw).
  assert (∀ v l, saveSessions l (set_currentSessionId v s)
                 = set_currentSessionId v s) as Hsave'
    by (intros v l; unfold saveSessions; simpl; by rewrite Hw).
  assert (∀ v, getSessions (set_currentSessionId v s)
               = ([], set_currentSessionId v s)) as Hget'
    by (intros v; unfold getSessions; simpl; by rewrite Hw).
  split; [by apply Hstored|].
  assert (∀ s', window s' = false → localStorage s' = localStorage s →
            window s' = false ∧ localStorage s' = localStorage s
            ∧ stored s' = [] ∧ fst (getCurrentSession s') = None) as Hall.
  { intros s' Hw' Hl'. repeat split; auto. }
  pose proof (Hall s Hw eq_refl) as Hsame.
  assert (∀ v, window (set_currentSessionId v s) = false
               ∧ localStorage (set_currentSessionId v s) = localStorage s
               ∧ stored (set_currentSessionId v s) = []
               ∧ fst (getCurrentSession (set_currentSessionId v s)) = None)
    as Hmoved by (intros v; by apply Hall).
  assert (snd (createNewSession now rnd title s)
          = set_currentSessionId (Some (generateId now rnd)) s) as Hcreate.
  { unfold createNewSession. by rewrite Hget, Hsave. }
  intros s' Hin.
  repeat (apply elem_of_cons in Hin as [->|Hin]); [..|by apply elem_of_nil in Hin].
  - rewrite Hcreate. apply Hmoved.
  - unfold addMessageToCurrentSession, createNewSession.
    rewrite Hget, Hsave.
    destruct (has_current s); cbn [negb fst snd].
    + rewrite Hget. exact Hsame.
    + rewrite Hget'. apply Hmoved.
  - unfold updateCurrentSessionSlides.
    destruct (has_current s); cbn [negb]; [rewrite Hget|]; exact Hsame.
  - unfold deleteSession. rewrite Hget. cbn [filter list_filter]. rewrite Hsave.
    destruct (bool_decide _); [apply Hmoved|exact Hsame].
  - unfold clearAllSessions, ensureDefaultSession, createNewSession.
    rewrite Hsave, Hget'. cbn [fst snd]. rewrite Hget', Hsave'.
    apply (Hall (set_currentSessionId (Some (generateId now rnd))
                   (set_currentSessionId None s))); by simpl.
  - unfold ensureDefaultSession, createNewSession.
    rewrite Hget. cbn [fst snd]. rewrite Hget, Hsave. apply Hmoved.
Qed.

(** ** Patching slides twice *)

Lemma updateCurrentSessionSlides_stored now slides s :
  let s' := updateCurrentSessionSlides now slides s in
  window s' = window s
  ∧ currentSessionId s' = currentSessionId s
  ∧ stored s'
    = match current_target s with
      | Some (i, session) =>
          match slides_patch now slides session with
          | Some session' => <[i := session']> (stored s)
          | None => stored s
          end
      | None => stored s
      end.
Proof.
  intros s'. subst s'. unfold updateCurrentSessionSlides, current_target.
  destruct (has_current s) eqn:Hh; simpl; [|done].
  rewrite (getSessions_split s).
  pose proof (getSessions_same_store s) as Hss.
  pose proof Hss as (Hw1 & Hl1 & Hc1).
  pose proof (stored_same_store _ _ Hss) as Hst1.
  rewrite (findCurrent_same_store _ _ _ Hss).
  destruct (findCurrent s (stored s)) as [[i session]|] eqn:Hf; [|done].
  unfold slides_patch. rewrite last_lookup.
  destruct (ChatSession.messages session) as [|m0 msgs] eqn:Hm; [done|].
  rewrite bool_decide_true by (simpl; lia).
  replace (Init.Nat.pred (length (m0 :: msgs)))
    with (length (m0 :: msgs) - 1)%nat by (simpl; lia).
  destruct ((m0 :: msgs) !! (length (m0 :: msgs) - 1)%nat) as [m|]; [|done].
  destruct (ChatMessage.isUser m); simpl; [done|].
  assert (window (snd (getSessions s)) = true) as Hw.
  { rewrite Hw1. apply findCurrent_Some in Hf as [Hl _].
    destruct (stored s) as [|x l] eqn:Hs; [done|].
    by apply stored_nonempty_window in Hs as [? _]. }
  split; [|split].
  - unfold saveSessions. by rewrite Hw.
  - unfold saveSessions. by rewrite Hw.
  - by rewrite stored_saveSessions.
Qed.

Lemma current_target_ext s s' :
  currentSessionId s' = currentSessionId s → stored s' = stored s →
  current_target s' = current_target s.
Proof.
  intros Hc Hst. unfold current_target, has_current, findCurrent.
  by rewrite Hc, Hst.
Qed.

Lemma current_target_insert s s' i session session' :
  current_target s = Some (i, session) →
  currentSessionId s' = currentSessionId s →
  stored s' = <[i := session']> (stored s) →
  ChatSession.id session' = ChatSession.id session →
  current_target s' = Some (i, session').
Proof.
  unfold current_target, has_current. intros Ht Hc Hst Hid. rewrite Hc.
  destruct (currentSessionId s) as [sid|] eqn:Hsid; [|done].
  destruct (truthy sid); [|done]. rewrite Hst.
  assert (findCurrent s' (stored s) = Some (i, session)) as Hf.
  { unfold findCurrent in *. rewrite Hc. by rewrite Hsid in Ht. }
  by apply (findCurrent_insert _ _ _ _ _ Hf).
Qed.

(** Two calls of [updateCurrentSessionSlides] in a row store what the
    second call alone stores: the slides of the second call replace those
    of the first, and nothing of the first call is left. *)
Theorem updateCurrentSessionSlides_last_wins
    (now1 now2 : Date) (slides1 slides2 : list Slide.t) (s : Service) :
  stored (updateCurrentSessionSlides now2 slides2
            (updateCurrentSessionSlides now1 slides1 s))
  = stored (updateCurrentSessionSlides now2 slides2 s)
  ∧ currentSessionId (updateCurrentSessionSlides now2 slides2
                        (updateCurrentSessionSlides now1 slides1 s))
    = currentSessionId s.
Proof.
  destruct (updateCurrentSessionSlides_stored now1 slides1 s) as (Hw1 & Hc1 & Hst1).
  set (s1 := updateCurrentSessionSlides now1 slides1 s) in *.
  destruct (updateCurrentSessionSlides_stored now2 slides2 s1) as (_ & Hc2 & Hst2).
  destruct (updateCurrentSessionSlides_stored now2 slides2 s) as (_ & _ & Hst).
  split; [|by rewrite Hc2].
  rewrite Hst2, Hst. clear Hst2 Hst.
  destruct (current_target s) as [[i session]|] eqn:Ht.
  2: { rewrite (current_target_ext s s1), Ht by done. done. }
  destruct (slides_patch now1 slides1 session) as [session1|] eqn:Hp1.
  2: { rewrite (current_target_ext s s1), Ht, Hst1 by done. done. }
  assert (ChatSession.id session1 = ChatSession.id session) as Hid.
  { unfold slides_patch in Hp1.
    destruct (last _) as [m|]; [|done].
    destruct (ChatMessage.isUser m); [done|]. by injection Hp1 as <-. }
  rewrite (current_target_insert s s1 i session session1 Ht Hc1 Hst1 Hid).
  rewrite Hst1.
  unfold slides_patch in *.
  destruct (last (ChatSession.messages session)) as [m|] eqn:Hlast; [|done].
  destruct (ChatMessage.isUser m) eqn:Hu; [done|].
  injection Hp1 as <-. simpl.
  rewrite last_lookup in Hlast.
  assert (length (ChatSession.messages session) - 1
          < length (ChatSession.messages session))%nat as Hlt.
  { apply lookup_lt_Some in Hlast. lia. }
  rewrite last_lookup, length_insert.
  replace (Init.Nat.pred (length (ChatSession.messages session)))
    with (length (ChatSession.messages session) - 1)%nat by lia.
  rewrite list_lookup_insert_eq by done. simpl. rewrite Hu.
  rewrite list_insert_insert_eq. f_equal. f_equal.
  by rewrite list_insert_insert_eq.
Qed.

(** ** The shape of a title *)

Lemma split_nonempty sep (s : jsstring) : split sep s ≠ [].
Proof.
  destruct s as [|c r]; simpl; [done|].
  destruct (c =? sep); [done|]. by destruct (split sep r).
Qed.

Lemma join_cons sep (p : jsstring) (rest : list jsstring) :
  join sep (p :: rest)
  = match rest with [] => p | _ :: _ => p ++ sep ++ join sep rest end.
Proof. by destruct rest. Qed.

(** [s.split(sep).join(sep)] is [s]. *)
Lemma join_split sep (s : jsstring) : join [sep] (split sep s) = s.
Proof.
  induction s as [|c r IH]; [done|].
  pose proof (split_nonempty sep r) as Hn.
  change (split sep (c :: r))
    with (if c =? sep then [] :: split sep r
          else match split sep r with
               | seg :: segs => (c :: seg) :: segs
               | [] => [[c]]
               end).
  destruct (N.eqb_spec c sep) as [->|Hne];
    destruct (split sep r) as [|seg segs]; try done.
  - rewrite join_cons. cbn [app]. by rewrite IH.
  - rewrite join_cons in *. destruct segs; cbn [app] in *; by rewrite <- IH.
Qed.

Lemma split_cons sep c (r : jsstring) :
  split sep (c :: r)
  = if c =? sep then [] :: split sep r
    else match split sep r with
         | seg :: segs => (c :: seg) :: segs
         | [] => [[c]]
         end.
Proof. reflexivity. Qed.

(** The first [k] segments, joined again, are a prefix of the text. *)
Lemma join_take_split_prefix sep (s : jsstring) : ∀ k,
  join [sep] (take k (split sep s)) `prefix_of` s.
Proof.
  induction s as [|c r IH]; intros k.
  - destruct k; simpl; [apply prefix_nil|]. rewrite take_nil. apply prefix_nil.
  - destruct k as [|k]; [apply prefix_nil|]. rewrite split_cons.
    destruct (N.eqb_spec c sep) as [->|Hne].
    + rewrite firstn_cons, join_cons. specialize (IH k).
      destruct (take k (split sep r)) as [|seg segs]; [apply prefix_nil|].
      cbn [app]. by apply prefix_cons.
    + specialize (IH (S k)).
      pose proof (split_nonempty sep r) as Hn.
      destruct (split sep r) as [|seg segs]; [done|].
      rewrite firstn_cons, join_cons in *.
      destruct (take k segs); cbn [app] in *; by apply prefix_cons.
Qed.

(** A title has at most 33 code units.  It is either a prefix of the
    message text, of at most 30 code units, or the first 30 code units of
    the text followed by three dots.  A text of at most 30 code units
    with at most four spaces is its own title. *)
Theorem generateSessionTitle_shape (firstMessage : jsstring) :
  (length (generateSessionTitle firstMessage) ≤ 33)%nat
  ∧ ((generateSessionTitle firstMessage `prefix_of` firstMessage
      ∧ (length (generateSessionTitle firstMessage) ≤ 30)%nat)
     ∨ generateSessionTitle firstMessage = take 30 firstMessage ++ lit "...")
  ∧ ((length firstMessage ≤ 30)%nat →
     (length (split SPACE firstMessage) ≤ 5)%nat →
     generateSessionTitle firstMessage = firstMessage).
Proof.
  unfold generateSessionTitle.
  pose proof (join_take_split_prefix SPACE firstMessage 5) as Hpre.
  set (words := join [SPACE] (take 5 (split SPACE firstMessage))) in *.
  split; [|split].
  - case_bool_decide.
    + rewrite length_app, length_take.
      change (length (lit "...")) with 3%nat. lia.
    + lia.
  - case_bool_decide.
    + right. f_equal. destruct Hpre as [rest Hrest].
      rewrite Hrest, take_app_le by lia. done.
    + left. split; [done|lia].
  - intros Hlen Hsegs. subst words.
    rewrite take_ge by done. rewrite join_split.
    rewrite bool_decide_false by lia. done.
Qed.

End ChatHistoryMore.

(* ================================================================== *)
(** * The generation client: set-up and the text around the object *)
(* ================================================================== *)

Module GeminiMore.
Import GeminiService GeminiSetup GeminiFacts.

(** ** Choosing the model *)

Section Setup.
Variable Model : Type.
Variable getGenerativeModel : jsstring → jsstring → result Model.

Lemma try_models_Some apiKey names model :
  try_models Model getGenerativeModel apiKey names = Some model ↔
  ∃ before modelName after,
    names = before ++ modelName :: after
    ∧ Forall (λ n, ∃ e, getGenerativeModel apiKey n = Throw e) before
    ∧ getGenerativeModel apiKey modelName = Return model.
Proof.
  induction names as [|n names IH]; simpl.
  - split; [done|]. intros (before & ? & ? & Heq & _). by destruct before.
  - destruct (getGenerativeModel apiKey n) as [m|e] eqn:Hn.
    + split.
      * intros [= ->]. exists [], n, names. by repeat split.
      * intros ([|b before] & modelName & after & Heq & Hall & Hm).
        -- injection Heq as <- _. congruence.
        -- injection Heq as <- _. apply Forall_cons in Hall as [[e He] _].
           congruence.
    + rewrite IH. split.
      * intros (before & modelName & after & -> & Hall & Hm).
        exists (n :: before), modelName, after.
        split; [done|]. split; [|done]. constructor; [by exists e|done].
      * intros ([|b before] & modelName & after & Heq & Hall & Hm).
        -- injection Heq as <- _. congruence.
        -- injection Heq as <- ->. apply Forall_cons in Hall as [_ Hall].
           by exists before, modelName, after.
Qed.

(** The constructor yields the first model of the preference list whose
    set-up call returns.  It throws the missing-key error exactly when the
    key is absent or the empty string, before any model is tried, and the
    no-model error exactly when a key is given and the set-up call throws
    for all three names. *)
Theorem constructor_picks_first_available (apiKey : option jsstring) :
  (∀ model,
     constructor Model getGenerativeModel apiKey = Return model ↔
     ∃ key before modelName after,
       apiKey = Some key ∧ key ≠ []
       ∧ AVAILABLE_MODELS = before ++ modelName :: after
       ∧ Forall (λ n, ∃ e, getGenerativeModel key n = Throw e) before
       ∧ getGenerativeModel key modelName = Return model)
  ∧ (constructor Model getGenerativeModel apiKey = Throw KEY_MISSING ↔
     apiKey = None ∨ apiKey = Some [])
  ∧ (constructor Model getGenerativeModel apiKey = Throw NO_MODEL ↔
     ∃ key, apiKey = Some key ∧ key ≠ []
            ∧ Forall (λ n, ∃ e, getGenerativeModel key n = Throw e)
                AVAILABLE_MODELS).
Proof.
  assert (KEY_MISSING ≠ NO_MODEL) as Hdiff by discriminate.
  assert (∀ key,
    try_models Model getGenerativeModel key AVAILABLE_MODELS = None ↔
    Forall (λ n, ∃ e, getGenerativeModel key n = Throw e) AVAILABLE_MODELS)
    as Hnone.
  { intros key. generalize AVAILABLE_MODELS as names.
    induction names as [|n names IH]; simpl; [done|].
    destruct (getGenerativeModel key n) as [m|e] eqn:Hn.
    - split; [done|]. intros Hall. apply Forall_cons in Hall as [[e He] _].
      congruence.
    - rewrite IH. split.
      + intros Hall. constructor; [by exists e|done].
      + intros Hall. by apply Forall_cons in Hall as [_ Hall]. }
  unfold constructor, initializeModel.
  destruct apiKey as [[|c key]|]; cbn [truthy].
  - split; [|split].
    + intros model. split; [done|]. intros (? & ? & ? & ? & [= <-] & ? & _).
      done.
    + split; [by right|done].
    + split; [congruence|]. intros (? & [= <-] & ? & _). done.
  - specialize (Hnone (c :: key)).
    destruct (try_models Model getGenerativeModel (c :: key) AVAILABLE_MODELS)
      as [m|] eqn:Htry.
    + apply try_models_Some in Htry as Hsome. split; [|split].
      * intros model. split.
        -- intros [= <-]. destruct Hsome as (b & n & a & ? & ? & ?).
           by exists (c :: key), b, n, a.
        -- intros (k & b & n & a & [= <-] & _ & Hl & Hall & Hm).
           f_equal.
           assert (try_models Model getGenerativeModel (c :: key)
                     AVAILABLE_MODELS = Some model) as Htry'
             by (apply try_models_Some; by exists b, n, a).
           congruence.
      * split; [done|]. by intros [|].
      * split; [done|]. intros (k & [= <-] & _ & Hall).
        apply Hnone in Hall. done.
    + split; [|split].
      * intros model. split; [done|].
        intros (k & b & n & a & [= <-] & _ & Hl & Hall & Hm).
        assert (try_models Model getGenerativeModel (c :: key)
                  AVAILABLE_MODELS = Some model) as Htry'
          by (apply try_models_Some; by exists b, n, a).
        congruence.
      * split; [intros [= H]; by destruct Hdiff|]. by intros [|].
      * split; [|done]. intros _. exists (c :: key).
        split; [done|]. split; [done|]. by apply Hnone.
  - split; [|split].
    + intros model. split; [done|]. by intros (? & ? & ? & ? & ? & _).
    + split; [by left|done].
    + split; [congruence|]. by intros (? & ? & _).
Qed.

End Setup.

(** ** What the cleaning steps keep *)

Lemma replace_fences_from_elem (s : jsstring) : ∀ k x,
  x ∈ replace_fences_from k s → x ∈ s.
Proof.
  induction s as [|c r IH]; intros k x; [done|].
  cbn [replace_fences_from].
  destruct k as [|k]; [destruct (fence_match (c :: r)) as [|j]|].
  - intros Hin. apply elem_of_cons in Hin as [->|Hin]; [left|right; eauto].
  - intros Hin. right. eauto.
  - intros Hin. right. eauto.
Qed.

Lemma trimStart_elem (s : jsstring) x : x ∈ trimStart s → x ∈ s.
Proof.
  induction s as [|c r IH]; simpl; [done|].
  destruct (is_white_space c); [|done]. intros Hin. right. auto.
Qed.

Lemma trimEnd_elem (s : jsstring) x : x ∈ trimEnd s → x ∈ s.
Proof.
  induction s as [|c r IH]; simpl; [done|].
  destruct (trimEnd r) as [|d r'] eqn:Ht.
  - destruct (is_white_space c); [intros Hin; by apply elem_of_nil in Hin|].
    intros Hin. apply list_elem_of_singleton in Hin as ->. left.
  - intros Hin. apply elem_of_cons in Hin as [->|Hin]; [left|right; auto].
Qed.

Lemma from_first_None c (s : jsstring) : c ∉ s → from_first c s = None.
Proof.
  induction s as [|x r IH]; simpl; [done|]. intros Hn.
  apply not_elem_of_cons in Hn as [Hx Hr].
  destruct (N.eqb_spec x c) as [->|_]; [done|]. auto.
Qed.

Lemma from_first_elem c (s t : jsstring) x :
  from_first c s = Some t → x ∈ t → x ∈ s.
Proof.
  induction s as [|y r IH]; simpl; [done|].
  destruct (y =? c); [by intros [= <-]|]. intros Hf Hin. right. auto.
Qed.

Lemma through_last_None c (s : jsstring) : c ∉ s → through_last c s = None.
Proof.
  induction s as [|x r IH]; simpl; [done|]. intros Hn.
  apply not_elem_of_cons in Hn as [Hx Hr]. rewrite IH by done.
  by destruct (N.eqb_spec x c) as [->|_].
Qed.

Lemma match_object_None (s : jsstring) :
  OPEN_BRACE ∉ s ∨ CLOSE_BRACE ∉ s → match_object s = None.
Proof.
  unfold match_object. intros [Hn|Hn].
  - by rewrite from_first_None.
  - destruct (from_first OPEN_BRACE s) as [[|b r]|] eqn:Hf; try done.
    rewrite through_last_None; [done|].
    intros Hin. apply Hn. eapply from_first_elem; [exact Hf|]. by right.
Qed.

(** ** Prose and fences around the object *)

Lemma startsWith_app_other (q : jsstring) : ∀ (p : jsstring) x rest,
  x ∉ q → startsWith q (p ++ x :: rest) = startsWith q p.
Proof.
  induction q as [|a q IH]; intros p x rest Hx; [by destruct p|].
  apply not_elem_of_cons in Hx as [Hxa Hxq].
  destruct p as [|b p]; simpl.
  - destruct (N.eqb_spec a x) as [->|_]; done.
  - by rewrite IH.
Qed.

Lemma startsWith_length (q : jsstring) : ∀ p : jsstring,
  startsWith q p = true → (length q ≤ length p)%nat.
Proof.
  induction q as [|a q IH]; intros p; simpl; [lia|].
  destruct p as [|b p]; [done|]. simpl.
  intros H. apply andb_true_iff in H as [_ H]. apply IH in H. lia.
Qed.

Lemma white_space_run_app (p : jsstring) x rest :
  is_white_space x = false →
  white_space_run (p ++ x :: rest) = white_space_run p.
Proof.
  intros Hx. induction p as [|c p IH]; simpl; [by rewrite Hx|].
  by rewrite IH.
Qed.

Lemma white_space_run_le (p : jsstring) : (white_space_run p ≤ length p)%nat.
Proof.
  induction p as [|c p IH]; simpl; [lia|].
  destruct (is_white_space c); lia.
Qed.

Lemma brace_not_in_FENCE_JSON : OPEN_BRACE ∉ FENCE_JSON.
Proof. compute_done. Qed.

Lemma brace_not_in_FENCE : OPEN_BRACE ∉ FENCE.
Proof. compute_done. Qed.

(** A match that starts before an opening brace ends before it, and is
    the same whatever follows the brace. *)
Lemma fence_match_before_brace (p rest : jsstring) :
  fence_match (p ++ OPEN_BRACE :: rest) = fence_match p
  ∧ (fence_match p ≤ length p)%nat.
Proof.
  unfold fence_match.
  rewrite startsWith_app_other by apply brace_not_in_FENCE_JSON.
  destruct (startsWith FENCE_JSON p) eqn:Hj.
  - apply startsWith_length in Hj.
    rewrite drop_app_le by done.
    rewrite white_space_run_app by done.
    split; [done|].
    pose proof (white_space_run_le (drop (length FENCE_JSON) p)) as Hle.
    rewrite length_drop in Hle. lia.
  - rewrite white_space_run_app by done.
    pose proof (white_space_run_le p) as Hn.
    rewrite drop_app_le by done.
    rewrite startsWith_app_other by apply brace_not_in_FENCE.
    destruct (startsWith FENCE (drop (white_space_run p) p)) eqn:Hf; [|split; [done|lia]].
    apply startsWith_length in Hf. rewrite length_drop in Hf.
    split; [done|]. lia.
Qed.

Lemma replace_fences_before_brace (p rest : jsstring) : ∀ k,
  (k ≤ length p)%nat →
  replace_fences_from k (p ++ OPEN_BRACE :: rest)
  = replace_fences_from k p ++ replace_fences_from 0 (OPEN_BRACE :: rest).
Proof.
  induction p as [|c p IH]; intros k Hk.
  - simpl in Hk. by replace k with 0%nat by lia.
  - change ((c :: p) ++ OPEN_BRACE :: rest) with (c :: p ++ OPEN_BRACE :: rest).
    cbn [replace_fences_from]. destruct k as [|k].
    + change (c :: p ++ OPEN_BRACE :: rest)
        with ((c :: p) ++ OPEN_BRACE :: rest).
      destruct (fence_match_before_brace (c :: p) rest) as [-> Hle].
      destruct (fence_match (c :: p)) as [|j].
      * cbn [app]. f_equal. apply IH. lia.
      * apply IH. simpl in Hle. lia.
    + apply IH. simpl in Hk. lia.
Qed.

Lemma startsWith_cons_ne a (q : jsstring) h (t : jsstring) :
  a ≠ h → startsWith (a :: q) (h :: t) = false.
Proof.
  intros Hne. cbn [startsWith]. by destruct (N.eqb_spec a h).
Qed.

Lemma startsWith_fence_head (q : jsstring) h (t : jsstring) :
  q = FENCE ∨ q = FENCE_JSON → h ≠ BACKTICK →
  startsWith q (h :: t) = false.
Proof.
  intros [->| ->] Hh.
  - unfold FENCE. by apply startsWith_cons_ne.
  - change FENCE_JSON with (BACKTICK :: ([BACKTICK; BACKTICK] ++ lit "json")).
    by apply startsWith_cons_ne.
Qed.

(** No match starts inside a stretch without backticks that ends in a
    code unit other than white space. *)
Lemma fence_match_inside (o post : jsstring) y :
  BACKTICK ∉ o → y ≠ BACKTICK → is_white_space y = false →
  fence_match (o ++ y :: post) = 0%nat.
Proof.
  intros Ho Hy Hws. unfold fence_match.
  assert (∀ q t, q = FENCE ∨ q = FENCE_JSON →
            startsWith q (drop (white_space_run o) o ++ y :: t) = false)
    as Hhead.
  { intros q t Hq.
    assert (∃ h t', drop (white_space_run o) o ++ y :: t = h :: t'
                    ∧ h ≠ BACKTICK) as (h & t' & -> & Hh).
    { destruct (drop (white_space_run o) o) as [|h d] eqn:Hd.
      - by exists y, t.
      - exists h, (d ++ y :: t). split; [done|]. intros ->. apply Ho.
        assert (BACKTICK ∈ drop (white_space_run o) o) as Hin
          by (rewrite Hd; left).
        by apply (subseteq_drop (white_space_run o) o). }
    by apply startsWith_fence_head. }
  assert (startsWith FENCE_JSON (o ++ y :: post) = false) as ->.
  { destruct o as [|h o'].
    - apply startsWith_fence_head; [by right|done].
    - apply not_elem_of_cons in Ho as [Hh _].
      apply startsWith_fence_head; [by right|done]. }
  rewrite white_space_run_app by done.
  rewrite drop_app_le by apply white_space_run_le.
  rewrite Hhead by (by left). done.
Qed.

Lemma replace_fences_inside (o post : jsstring) y :
  BACKTICK ∉ o → y ≠ BACKTICK → is_white_space y = false →
  replace_fences_from 0 (o ++ y :: post)
  = o ++ y :: replace_fences_from 0 post.
Proof.
  intros Ho Hy Hws. induction o as [|c o IH].
  - pose proof (fence_match_inside [] post y Ho Hy Hws) as Hm.
    cbn [app] in *. cbn [replace_fences_from]. by rewrite Hm.
  - pose proof (fence_match_inside (c :: o) post y Ho Hy Hws) as Hm.
    apply not_elem_of_cons in Ho as [_ Ho].
    cbn [app] in *. cbn [replace_fences_from]. rewrite Hm. f_equal. auto.
Qed.

(** ** Trimming does not move the object *)

Lemma trimEnd_cons_keep c (r : jsstring) :
  is_white_space c = false → trimEnd (c :: r) = c :: trimEnd r.
Proof. intros Hc. simpl. rewrite Hc. by destruct (trimEnd r). Qed.

Lemma from_first_trimStart c (s : jsstring) :
  is_white_space c = false →
  from_first c (trimStart s) = from_first c s.
Proof.
  intros Hc. induction s as [|x r IH]; [done|]. cbn [trimStart].
  destruct (is_white_space x) eqn:Hx; [|done]. rewrite IH. simpl.
  destruct (N.eqb_spec x c) as [->|_]; [congruence|done].
Qed.

Lemma from_first_trimEnd c (s : jsstring) :
  is_white_space c = false →
  from_first c (trimEnd s) = trimEnd <$> from_first c s.
Proof.
  intros Hc. induction s as [|x r IH]; [done|].
  cbn [from_first]. destruct (N.eqb_spec x c) as [->|Hne].
  - change (trimEnd <$> Some (c :: r)) with (Some (trimEnd (c :: r))).
    rewrite trimEnd_cons_keep by done. cbn [from_first].
    by rewrite N.eqb_refl.
  - rewrite <- IH. cbn [trimEnd].
    destruct (trimEnd r) as [|d r'].
    + destruct (is_white_space x); cbn [from_first]; [done|].
      by destruct (N.eqb_spec x c).
    + cbn [from_first]. by destruct (N.eqb_spec x c).
Qed.

Lemma from_first_head c (s : jsstring) b r :
  from_first c s = Some (b :: r) → b = c.
Proof.
  induction s as [|x s IH]; simpl; [done|].
  destruct (N.eqb_spec x c) as [->|_]; [by intros [= <- _]|done].
Qed.

Lemma from_first_nonempty c (s : jsstring) : from_first c s ≠ Some [].
Proof.
  induction s as [|x s IH]; simpl; [done|]. by destruct (x =? c).
Qed.

Lemma through_last_trimEnd c (s : jsstring) :
  is_white_space c = false →
  through_last c (trimEnd s) = through_last c s.
Proof.
  intros Hc. induction s as [|x r IH]; [done|].
  cbn [trimEnd through_last]. rewrite <- IH.
  destruct (trimEnd r) as [|d r'].
  - simpl. destruct (is_white_space x) eqn:Hx; simpl; [|done].
    destruct (N.eqb_spec x c) as [->|_]; [congruence|done].
  - done.
Qed.

Lemma match_object_trim (s : jsstring) :
  match_object (trim s) = match_object s.
Proof.
  unfold match_object, trim.
  rewrite from_first_trimEnd, from_first_trimStart by done.
  destruct (from_first OPEN_BRACE s) as [[|b r]|] eqn:Hf; [| |done].
  - by apply from_first_nonempty in Hf.
  - apply from_first_head in Hf as ->.
    change (trimEnd <$> Some (OPEN_BRACE :: r))
      with (Some (trimEnd (OPEN_BRACE :: r))).
    rewrite trimEnd_cons_keep by done.
    by rewrite through_last_trimEnd.
Qed.

Lemma through_last_app c (a b : jsstring) :
  c ∉ b → through_last c (a ++ c :: b) = Some (a ++ [c]).
Proof.
  intros Hb. induction a as [|x a IH]; simpl.
  - rewrite through_last_None by done. by rewrite N.eqb_refl.
  - by rewrite IH.
Qed.

Lemma from_first_app c (a b : jsstring) :
  c ∉ a → from_first c (a ++ c :: b) = Some (c :: b).
Proof.
  intros Ha. induction a as [|x a IH]; simpl.
  - by rewrite N.eqb_refl.
  - apply not_elem_of_cons in Ha as [Hx Ha].
    destruct (N.eqb_spec x c) as [->|_]; [done|]. auto.
Qed.

Section Parsing.
Variable JSON_parse : jsstring → result Json.value.
Variable JSON_stringify : list Slide.t → jsstring.
Variable generateContent : jsstring → result jsstring.
Variable INSTRUCTIONS : jsstring.

(** A response text with no opening brace, or with no closing brace,
    makes [parseResponse] throw its parse error whatever [JSON.parse] would
    do: the parser is not called. *)
Theorem parseResponse_needs_both_braces (text : jsstring) :
  OPEN_BRACE ∉ text ∨ CLOSE_BRACE ∉ text →
  parseResponse JSON_parse text = Throw PARSE_FAILED
  ∧ parseResponse_body JSON_parse text
    = Throw (mkError (lit "No JSON found in response")).
Proof.
  intros Hno.
  assert (match_object (trim (replace_fences text)) = None) as Hm.
  { apply match_object_None.
    assert (∀ x, x ∈ trim (replace_fences text) → x ∈ text) as Hsub.
    { intros x Hin. unfold trim, replace_fences in Hin.
      apply trimEnd_elem, trimStart_elem in Hin.
      by eapply replace_fences_from_elem. }
    destruct Hno as [Hn|Hn]; [left|right]; intros Hin; apply Hn; auto. }
  unfold parseResponse, parseResponse_body. by rewrite Hm.
Qed.

(** [generateSlides] has two outcomes only.  It returns the array that
    [parseResponse] extracts from the text of the model, when the model
    call returns; in every other case it throws the one generation error,
    so neither the error of the model call nor the parse error reaches the
    caller. *)
Theorem generateSlides_outcome
    (prompt : jsstring) (existingSlides : list Slide.t) :
  let request := fullPrompt JSON_stringify INSTRUCTIONS prompt existingSlides in
  let outcome :=
    generateSlides JSON_parse JSON_stringify generateContent INSTRUCTIONS
      prompt existingSlides in
  (∀ items, outcome = Return items ↔
     ∃ text, generateContent request = Return text
             ∧ parseResponse JSON_parse text = Return items)
  ∧ (∀ e, outcome = Throw e → e = GENERATION_FAILED)
  ∧ (∀ e, generateContent request = Throw e → outcome = Throw GENERATION_FAILED)
  ∧ (∀ text e, generateContent request = Return text →
       parseResponse JSON_parse text = Throw e →
       outcome = Throw GENERATION_FAILED).
Proof.
  intros request outcome. subst request outcome. unfold generateSlides.
  destruct (generateContent _) as [text|e0] eqn:Hup; simpl.
  - destruct (parseResponse JSON_parse text) as [items0|e1] eqn:Hp; simpl.
    + split; [|split; [done|split; [done|]]].
      * intros items. split.
        -- intros [= <-]. by exists text.
        -- intros (text' & [= <-] & Hp'). congruence.
      * intros text' e [= <-]. congruence.
    + split; [|split; [|split; [done|done]]].
      * intros items. split; [done|].
        intros (text' & [= <-] & Hp'). congruence.
      * by intros e [= <-].
  - split; [|split; [|split; [done|done]]].
    + intros items. split; [done|]. by intros (text' & ? & _).
    + by intros e [= <-].
Qed.

(** What stands around the object does not matter.  Let the response be
    [pre ++ obj ++ post] where [obj] runs from an opening to a closing
    brace and holds no backtick, [pre] holds no opening brace and [post] no
    closing brace; prose and code fences are free to occur in [pre] and
    [post].  Then the text handed to [JSON.parse] is [obj], and the
    outcome is that of [parseResponse] on [obj] alone. *)
Theorem parseResponse_ignores_surroundings (pre body post : jsstring) :
  let obj := OPEN_BRACE :: body ++ [CLOSE_BRACE] in
  OPEN_BRACE ∉ pre → CLOSE_BRACE ∉ post → BACKTICK ∉ body →
  match_object (trim (replace_fences (pre ++ obj ++ post))) = Some obj
  ∧ parseResponse JSON_parse (pre ++ obj ++ post)
    = parseResponse JSON_parse obj.
Proof.
  intros obj Hpre Hpost Hbody.
  assert (∀ pre post : jsstring,
            OPEN_BRACE ∉ pre → CLOSE_BRACE ∉ post →
            match_object (trim (replace_fences (pre ++ obj ++ post)))
            = Some obj) as Hmatch.
  { clear pre post Hpre Hpost. intros pre post Hpre Hpost.
    rewrite match_object_trim. subst obj. unfold replace_fences.
    replace (pre ++ (OPEN_BRACE :: body ++ [CLOSE_BRACE]) ++ post)
      with (pre ++ OPEN_BRACE :: body ++ CLOSE_BRACE :: post)
      by (simpl; by rewrite <- app_assoc).
    rewrite replace_fences_before_brace by lia.
    change (OPEN_BRACE :: body ++ CLOSE_BRACE :: post)
      with ((OPEN_BRACE :: body) ++ CLOSE_BRACE :: post).
    rewrite replace_fences_inside; [|by apply not_elem_of_cons|done|done].
    change ((OPEN_BRACE :: body) ++ CLOSE_BRACE :: replace_fences_from 0 post)
      with (OPEN_BRACE :: body ++ CLOSE_BRACE :: replace_fences_from 0 post).
    unfold match_object. rewrite from_first_app.
    - rewrite through_last_app; [done|].
      intros Hin. apply Hpost. by eapply replace_fences_from_elem.
    - intros Hin. apply Hpre. by eapply replace_fences_from_elem. }
  split; [by apply Hmatch|].
  unfold parseResponse, parseResponse_body.
  rewrite (Hmatch pre post Hpre Hpost).
  specialize (Hmatch [] []). rewrite app_nil_r in Hmatch.
  cbn [app] in Hmatch. rewrite Hmatch; [done|apply not_elem_of_nil..].
Qed.

End Parsing.

End GeminiMore.

(* ================================================================== *)
(** * The export pipeline: what a run leaves behind *)
(* ================================================================== *)

Module PptGeneratorMore.
Import PptGenerator ExportSpec PptGeneratorFacts.

Lemma rendered_from_length (rest : list Slide.t) : ∀ index,
  length (rendered_from index rest) = length rest.
Proof. induction rest as [|sd rest IH]; intros index; simpl; [done|]. by rewrite IH. Qed.

Lemma rendered_from_lookup (rest : list Slide.t) : ∀ index i slideData,
  rest !! i = Some slideData →
  rendered_from index rest !! i
  = Some (createSimpleSlide blank slideData (index + i)).
Proof.
  induction rest as [|sd rest IH]; intros index i slideData; [done|].
  destruct i as [|i]; simpl.
  - intros [= ->]. by rewrite Nat.add_0_r.
  - intros Hi. rewrite (IH (S index) i slideData Hi). do 2 f_equal. lia.
Qed.

(** What a run has drawn and downloaded.  A run that returns has drawn
    every slide once, in order, each with its own index.  For a preview it
    returns the object URL of that deck and downloads nothing; for a
    download it returns ['download-started'] after exactly one file was
    handed over, named after the format or, for [pdf], after the [.pptx]
    fallback.  A run that throws has downloaded nothing. *)
Theorem generatePresentation_accounting
    (env : Browser) (slides : list Slide.t) (forPreview : bool)
    (format : Format) :
  let outcome := generatePresentation env slides forPreview format start in
  (∀ e, fst outcome = Throw e → downloads (snd outcome) = [])
  ∧ (∀ v, fst outcome = Return v →
       PptGenerator.slides (snd outcome) = rendered slides
       ∧ length (rendered slides) = length slides
       ∧ (∀ i slideData, slides !! i = Some slideData →
            rendered slides !! i = Some (createSimpleSlide blank slideData i))
       ∧ if forPreview
         then v = createObjectURL env (rendered slides)
              ∧ downloads (snd outcome) = []
         else v = lit "download-started"
              ∧ (downloads (snd outcome) = [file_name env format]
                 ∨ (format = pdf
                    ∧ downloads (snd outcome) = [file_name env pptx]))).
Proof.
  intros outcome. subst outcome.
  unfold generatePresentation, generatePresentation_body.
  destruct (has_window env); cbn [negb].
  2: { by split. }
  run_monad.
  destruct (import_pptxgenjs env) as [[]|e0]; cbn.
  2: { by split. }
  match goal with |- context [create_slides ?a ?b ?c ?d ?r] =>
    destruct (create_slides_spec a b d c r) as (k & Hk & Hrun & Hres);
    destruct (create_slides a b c d r) as [res run] end.
  cbn in Hrun, Hres. subst run.
  destruct Hres as [[-> ->]|(Hlt & e & _ & ->)]; cbn.
  2: { by split. }
  rewrite firstn_all. fold (rendered slides).
  assert (PptGenerator.slides
            {| progress := []; PptGenerator.slides := rendered slides;
               downloads := [] |} = rendered slides
          ∧ length (rendered slides) = length slides
          ∧ (∀ i slideData, slides !! i = Some slideData →
               rendered slides !! i = Some (createSimpleSlide blank slideData i)))
    as (_ & Hlen & Hlook).
  { split; [done|]. split; [apply rendered_from_length|].
    intros i sd Hi. by apply (rendered_from_lookup slides 0 i sd). }
  destruct forPreview; [|destruct format]; cbn.
  - destruct (write env _) as [[]|e]; cbn; split; try done.
    intros v [= <-]. done.
  - destruct (writeFile env _ _) as [[]|e]; cbn; split; try done.
    intros v [= <-]. repeat split; try done. by left.
  - destruct (write env _) as [[]|e]; cbn.
    + destruct (downloadBlob env _) as [[]|e]; cbn.
      * split; [done|]. intros v [= <-]. repeat split; try done. by left.
      * destruct (writeFile env _ _) as [[]|e']; cbn; split; try done.
        intros v [= <-]. repeat split; try done. by right.
    + destruct (writeFile env _ _) as [[]|e']; cbn; split; try done.
      intros v [= <-]. repeat split; try done. by right.
Qed.

(** ** A slide that cannot be added *)

Lemma create_slides_first_failure env total (k : nat) e : ∀ rest index r,
  (k < length rest)%nat →
  (∀ i, (i < k)%nat → addSlide env (index + i) = Return tt) →
  addSlide env (index + k) = Throw e →
  create_slides env total index rest r
  = (Throw e,
     {| progress := progress r ++ (creating_event total <$> seq index k);
        slides := PptGenerator.slides r ++ rendered_from index (take k rest);
        downloads := downloads r |}).
Proof.
  induction k as [|k IH]; intros rest index r Hlen Hbefore Hfail.
  - destruct rest as [|sd rest]; [simpl in Hlen; lia|].
    simpl. run_monad. rewrite Nat.add_0_r in Hfail. rewrite Hfail.
    destruct r. cbn. by rewrite !app_nil_r.
  - destruct rest as [|sd rest]; [simpl in Hlen; lia|].
    simpl. run_monad.
    rewrite <- (Nat.add_0_r index) at 1. rewrite (Hbefore 0%nat) by lia.
    rewrite IH.
    + cbn. by rewrite <- !app_assoc.
    + simpl in Hlen. lia.
    + intros i Hi. replace (S index + i)%nat with (index + S i)%nat by lia.
      apply Hbefore. lia.
    + by replace (S index + k)%nat with (index + S k)%nat by lia.
Qed.

(** When [addSlide] first throws at slide [k], the run throws that error.
    It has reported [initializing] at 10, then for each of the [k] slides
    before one [creating_slides] event with its percentage and counters,
    then [error] at 0 with the error message, and nothing else: no
    [finalizing] and no [complete].  It has drawn those [k] slides and
    downloaded nothing; the slides after [k] are never touched. *)
Theorem generatePresentation_stops_at_failing_slide
    (env : Browser) (slides : list Slide.t) (forPreview : bool)
    (format : Format) (k : nat) (e : Error) :
  has_window env = true →
  import_pptxgenjs env = Return tt →
  (k < length slides)%nat →
  (∀ i, (i < k)%nat → addSlide env i = Return tt) →
  addSlide env k = Throw e →
  let run := generatePresentation env slides forPreview format start in
  fst run = Throw e
  ∧ PptGenerator.slides (snd run) = rendered (take k slides)
  ∧ downloads (snd run) = []
  ∧ stage <$> progress (snd run)
    = (initializing, 10%Q, None, None)
      :: (creating_stage (length slides) <$> seq 0 k)
      ++ [(error, 0%Q, None, None)]
  ∧ message <$> last (progress (snd run))
    = Some (lit "Error generating presentation. Please try again.").
Proof.
  intros Hw Himport Hk Hbefore Hfail run. subst run.
  unfold generatePresentation, generatePresentation_body.
  rewrite Hw, Himport. run_monad.
  rewrite (create_slides_first_failure env (length slides) k e) by done.
  cbn [fst snd progress PptGenerator.slides downloads].
  split; [done|]. split; [done|]. split; [done|]. split.
  - cbn. rewrite fmap_app, stage_creating_events. done.
  - cbn [app].
    change (initializing_event
            :: (creating_event (length slides) <$> seq 0 k) ++ [error_event])
      with ((initializing_event
             :: (creating_event (length slides) <$> seq 0 k)) ++ [error_event]).
    by rewrite last_snoc.
Qed.

(** ** The earlier pipeline against the present one *)

(** In the browser the two pipelines behave alike whenever the [pdf]
    download branch is not taken or succeeds: same result, same deck, same
    downloaded file, and the same stages with the same percentages; only
    messages differ. *)
Theorem old_and_new_generators_agree
    (env : Browser) (slides : list Slide.t) (forPreview : bool)
    (format : Format) :
  has_window env = true →
  (forPreview = true ∨ format = pptx
   ∨ (write env (rendered slides) = Return tt
      ∧ downloadBlob env (file_name env pdf) = Return tt)) →
  let old := OldPptGenerator.generatePresentation env slides forPreview format start in
  let new := generatePresentation env slides forPreview format start in
  fst old = fst new
  ∧ PptGenerator.slides (snd old) = PptGenerator.slides (snd new)
  ∧ downloads (snd old) = downloads (snd new)
  ∧ stage <$> progress (snd old) = stage <$> progress (snd new).
Proof.
  intros Hw Hcase old new. subst old new.
  unfold generatePresentation, generatePresentation_body,
    OldPptGenerator.generatePresentation,
    OldPptGenerator.generatePresentation_body.
  rewrite Hw. run_monad.
  destruct (import_pptxgenjs env) as [[]|e0]; cbn; [|done].
  match goal with |- context [create_slides ?a ?b ?c ?d ?r] =>
    destruct (create_slides_spec a b d c r) as (k & Hk & Hrun & Hres);
    destruct (create_slides a b c d r) as [res run] end.
  cbn in Hrun, Hres. subst run.
  destruct Hres as [[-> ->]|(Hlt & e & _ & ->)]; cbn; [|done].
  rewrite firstn_all. fold (rendered slides).
  destruct forPreview; [|destruct format]; cbn.
  - by destruct (write env _) as [[]|e].
  - destruct (writeFile env _ _) as [[]|e]; cbn; [|done].
    repeat split. by rewrite !fmap_app.
  - destruct Hcase as [?|[?|[Hwrite Hdl]]]; [done..|].
    change (file_name env pdf)
      with (lit "presentation-" ++ decimal (Date_now env) ++ lit "." ++ lit "pdf")
      in Hdl.
    rewrite Hwrite. cbn. rewrite Hdl. cbn.
    repeat split. by rewrite !fmap_app.
Qed.

(** The earlier pipeline has no fallback: when the write of the blob
    throws in a [pdf] download, it throws that error, having downloaded
    nothing; what it has reported is [initializing] at 10, the slides,
    [finalizing] at 90 and then [error] at 0, with no [complete].  The
    present pipeline returns in that situation as soon as the [.pptx]
    file can be written. *)
Theorem old_generator_has_no_fallback
    (env : Browser) (slides : list Slide.t) (e : Error) :
  has_window env = true →
  import_pptxgenjs env = Return tt →
  (∀ i, (i < length slides)%nat → addSlide env i = Return tt) →
  write env (rendered slides) = Throw e →
  let old := OldPptGenerator.generatePresentation env slides false pdf start in
  fst old = Throw e
  ∧ PptGenerator.slides (snd old) = rendered slides
  ∧ downloads (snd old) = []
  ∧ stage <$> progress (snd old)
    = stages_before_write (length slides) ++ [(error, 0%Q, None, None)]
  ∧ (writeFile env (file_name env pptx) (rendered slides) = Return tt →
     fst (generatePresentation env slides false pdf start)
     = Return (lit "download-started")).
Proof.
  intros Hw Himport Hadd Hwrite old.
  assert (old
          = (Throw e,
             {| progress := progress_before_write (length slides) ++ [error_event];
                PptGenerator.slides := rendered slides;
                downloads := [] |})) as Hold.
  { subst old. unfold OldPptGenerator.generatePresentation,
      OldPptGenerator.generatePresentation_body.
    rewrite Hw, Himport. run_monad.
    rewrite create_slides_all by (intros i Hi; by apply Hadd).
    cbn. fold (rendered slides). rewrite Hwrite. cbn. done. }
  rewrite Hold. cbn [fst snd progress PptGenerator.slides downloads].
  split; [done|]. split; [done|]. split; [done|]. split.
  - by rewrite fmap_app, stage_progress_before_write.
  - intros Hpptx.
    change (file_name env pptx)
      with (lit "presentation-" ++ decimal (Date_now env) ++ lit ".pptx")
      in Hpptx.
    unfold generatePresentation, generatePresentation_body.
    rewrite Hw, Himport. run_monad.
    rewrite create_slides_all by (intros i Hi; by apply Hadd).
    cbn. fold (rendered slides). rewrite Hwrite. cbn. rewrite Hpptx. done.
Qed.

End PptGeneratorMore.

(* ================================================================== *)
(** * Properties of the page handlers *)
(* ================================================================== *)

Module HomeFacts.
Import ChatHistoryService StoreSpec StoreMoreSpec ChatHistoryFacts
  ChatHistoryMore Home.

(** ** Restoring the slides of a transcript *)

Lemma list_find_first {A} (P : A → Prop) `{∀ x, Decision (P x)}
    (l1 : list A) x (l2 : list A) :
  Forall (λ y, ¬ P y) l1 → P x →
  list_find P (l1 ++ x :: l2) = Some (length l1, x).
Proof.
  intros Hl1 Hx. apply list_find_Some. split; [|split; [done|]].
  - by rewrite list_lookup_middle.
  - intros j y Hj Hlt. rewrite lookup_app_l in Hj by done.
    by eapply Forall_lookup_1 in Hl1.
Qed.

(** The slides shown for a transcript are those of its last
    assistant-authored message that carries slides, whatever comes before
    it; a transcript without such a message shows no slides.  An empty
    array of slides counts as carried. *)
Theorem restoredSlides_last_assistant_deck (messages : list ChatMessage.t) :
  (∀ before m after deck,
     messages = before ++ m :: after →
     ChatMessage.isUser m = false →
     ChatMessage.slides m = Some deck →
     Forall (λ x, ChatMessage.isUser x = true ∨ ChatMessage.slides x = None)
       after →
     lastAiMessage messages = Some m ∧ restoredSlides messages = deck)
  ∧ (Forall (λ x, ChatMessage.isUser x = true ∨ ChatMessage.slides x = None)
       messages →
     lastAiMessage messages = None ∧ restoredSlides messages = []).
Proof.
  assert (∀ x : ChatMessage.t,
            ChatMessage.isUser x = true ∨ ChatMessage.slides x = None →
            ¬ (ChatMessage.isUser x = false ∧ is_Some (ChatMessage.slides x)))
    as Hneg.
  { intros x [Hu|Hs] [Hu' [d Hd]]; congruence. }
  split.
  - intros before m after deck -> Hu Hs Hafter.
    assert (lastAiMessage (before ++ m :: after) = Some m) as Hlast.
    { unfold lastAiMessage. rewrite reverse_app, reverse_cons, <- app_assoc.
      cbn [app]. rewrite list_find_first; [done| |by rewrite Hs].
      apply Forall_reverse. eapply Forall_impl; [exact Hafter|].
      intros x Hx. by apply Hneg. }
    split; [done|]. unfold restoredSlides. rewrite Hlast. simpl. by rewrite Hs.
  - intros Hall.
    assert (lastAiMessage messages = None) as Hlast.
    { unfold lastAiMessage.
      assert (list_find
                (λ msg, ChatMessage.isUser msg = false
                        ∧ is_Some (ChatMessage.slides msg))
                (reverse messages) = None) as ->; [|done].
      apply list_find_None, Forall_reverse.
      eapply Forall_impl; [exact Hall|]. intros x Hx. by apply Hneg. }
    split; [done|]. unfold restoredSlides. by rewrite Hlast.
Qed.

(** ** Reading the current session between the steps of a handler *)

Lemma getCurrentSession_target s i x :
  current_target s = Some (i, x) →
  fst (getCurrentSession s) = Some x
  ∧ current_target (snd (getCurrentSession s)) = Some (i, x)
  ∧ stored (snd (getCurrentSession s)) = stored s.
Proof.
  intros Ht. pose proof Ht as (Hh & Hf & _)%current_target_Some.
  split; [by rewrite getCurrentSession_lookup, Hf|].
  assert (snd (getCurrentSession s) = snd (getSessions s)) as ->.
  { unfold getCurrentSession. rewrite Hh. simpl.
    by rewrite (getSessions_split s). }
  pose proof (getSessions_same_store s) as Hss.
  pose proof (stored_same_store _ _ Hss) as Hst.
  split; [|done]. rewrite <- Ht. apply current_target_ext; [|done].
  by destruct Hss as (_ & _ & ->).
Qed.

Lemma getSessions_after s :
  fst (getSessions s) = stored s
  ∧ stored (snd (getSessions s)) = stored s
  ∧ current_target (snd (getSessions s)) = current_target s
  ∧ fst (getCurrentSession (snd (getSessions s))) = fst (getCurrentSession s).
Proof.
  pose proof (getSessions_same_store s) as Hss.
  pose proof (stored_same_store _ _ Hss) as Hst.
  pose proof Hss as (_ & _ & Hc).
  split; [done|]. split; [done|]. split; [by apply current_target_ext|].
  unfold getCurrentSession, has_current. rewrite Hc.
  destruct (currentSessionId s) as [sid|]; [|done].
  destruct (truthy sid); [|done]. simpl.
  rewrite (getSessions_split (snd (getSessions s))), (getSessions_split s).
  simpl. rewrite Hst.
  by rewrite !(findCurrent_same_store _ _ _ (getSessions_same_store _)).
Qed.


Section Send.
Variable generateSlides : jsstring → list Slide.t → result (list Json.value).
Variable asSlides : list Json.value → list Slide.t.


End Send.

(** ** Choosing, opening and deleting a session *)

(** Selecting a non-empty id that a stored session has shows that
    session (the first with the id), its messages and the slides of its
    last assistant message, and makes it the current session of the
    store.  Selecting an id that no stored session has, or the empty
    string (also when a stored session has the empty string as id), shows
    no session, no message and no slide; the store keeps its sessions
    while its pointer is set to that id. *)
Theorem handleSelectSession_shows_session
    (sessionId : jsstring) (page : State) (service : Service) :
  let outcome := handleSelectSession sessionId page service in
  (∀ before session after,
     sessionId ≠ [] →
     stored service = before ++ session :: after →
     ChatSession.id session = sessionId →
     Forall (λ sess, ChatSession.id sess ≠ sessionId) before →
     currentSession (fst outcome) = Some session
     ∧ Home.messages (fst outcome) = ChatSession.messages session
     ∧ slides (fst outcome) = restoredSlides (ChatSession.messages session)
     ∧ fst (getCurrentSession (snd outcome)) = Some session
     ∧ stored (snd outcome) = stored service)
  ∧ ((∀ sess, sess ∈ stored service → ChatSession.id sess ≠ sessionId) →
     currentSession (fst outcome) = None
     ∧ Home.messages (fst outcome) = []
     ∧ slides (fst outcome) = []
     ∧ stored (snd outcome) = stored service
     ∧ currentSessionId (snd outcome) = Some sessionId)
  ∧ (sessionId = [] →
     currentSession (fst outcome) = None
     ∧ Home.messages (fst outcome) = []
     ∧ slides (fst outcome) = []
     ∧ stored (snd outcome) = stored service
     ∧ currentSessionId (snd outcome) = Some []).
Proof.
  intros outcome. subst outcome. unfold handleSelectSession.
  set (service1 := setCurrentSession sessionId service).
  assert (stored service1 = stored service) as Hst1 by (by apply stored_ext).
  rewrite (surjective_pairing (getCurrentSession service1)). cbn [fst snd].
  split; [|split].
  3: { intros ->. subst service1. unfold getCurrentSession, has_current. cbn.
       repeat split; try done. }
  - intros before session after Hne Hst Hid Hbefore.
    assert (current_target service1 = Some (length before, session)) as Ht.
    { unfold current_target, has_current. cbn.
      destruct sessionId as [|c sid]; [done|]. cbn.
      rewrite Hst1, Hst. unfold findCurrent. cbn.
      apply list_find_first; [|by rewrite Hid].
      eapply Forall_impl; [exact Hbefore|]. intros x Hx [= Heq]. done. }
    destruct (getCurrentSession_target _ _ _ Ht) as (-> & Ht' & Hst').
    cbn. repeat split; try done.
    + by apply getCurrentSession_target in Ht' as (-> & _).
    + by rewrite Hst'.
  - intros Hnone.
    assert (fst (getCurrentSession service1) = None) as Hcur.
    { unfold getCurrentSession. destruct (has_current service1); [|done].
      cbn. rewrite (getSessions_split service1). cbn.
      rewrite (findCurrent_same_store _ _ _ (getSessions_same_store service1)).
      assert (findCurrent service1 (stored service1) = None) as ->; [|done].
      unfold findCurrent. apply list_find_None. rewrite Hst1.
      apply Forall_forall. intros sess Hin [= Heq]. by apply (Hnone sess). }
    rewrite Hcur. cbn. repeat split.
    + assert (same_store service1 (snd (getCurrentSession service1))) as Hss.
      { unfold getCurrentSession. destruct (has_current service1);
          [|apply same_store_refl].
        rewrite (getSessions_split service1). apply getSessions_same_store. }
      by rewrite (stored_same_store _ _ Hss).
    + unfold getCurrentSession. destruct (has_current service1); [|done].
      rewrite (getSessions_split service1). cbn.
      by destruct (getSessions_same_store service1) as (_ & _ & ->).
Qed.

(** In the browser [handleNewChat] opens an empty conversation: the new
    session stands in front of the stored ones and is current both for
    the page and for the store, and the page shows no message and no
    slide. *)
Theorem handleNewChat_opens_empty_session
    (now : Date) (rnd : jsstring) (page : State) (service : Service) :
  window service = true →
  let outcome := handleNewChat now rnd page service in
  let opened := fresh_session now rnd (lit "New Presentation") in
  currentSession (fst outcome) = Some opened
  ∧ Home.messages (fst outcome) = []
  ∧ slides (fst outcome) = []
  ∧ chatSessions (fst outcome) = opened :: stored service
  ∧ stored (snd outcome) = opened :: stored service
  ∧ fst (getCurrentSession (snd outcome)) = Some opened.
Proof.
  intros Hw outcome opened. subst outcome. unfold handleNewChat.
  rewrite (surjective_pairing (createNewSession now rnd None service)).
  destruct (createNewSession_stored now rnd None service Hw) as (Hst & Hcur & _).
  rewrite createNewSession_fst in *. cbn [default] in *. fold opened in Hst |- *.
  set (service1 := snd (createNewSession now rnd None service)) in *.
  rewrite (surjective_pairing (getSessions service1)).
  destruct (getSessions_after service1) as (Hsessions & Hst2 & _ & Hcur2).
  cbn [fst snd]. rewrite Hsessions, Hst2, Hcur2, Hst.
  repeat split; try done.
  apply (getCurrentSession_head _ opened (stored service)); [done|done|].
  pose proof (generateId_truthy now rnd) as Hid. cbn.
  by destruct (generateId now rnd).
Qed.

Lemma deleteSession_state sessionId s :
  window s = true →
  stored (deleteSession sessionId s)
  = filter (λ sess, ChatSession.id sess ≠ sessionId) (stored s)
  ∧ (currentSessionId s = Some sessionId →
     currentSessionId (deleteSession sessionId s)
     = ChatSession.id
         <$> head (filter (λ sess, ChatSession.id sess ≠ sessionId) (stored s))).
Proof.
  intros Hw.
  pose proof (getSessions_same_store s) as (Hw1 & Hl1 & Hc1).
  rewrite Hw in Hw1. unfold deleteSession. rewrite (getSessions_split s).
  split.
  - destruct (bool_decide _);
      [rewrite stored_set_currentSessionId|]; by rewrite stored_saveSessions.
  - intros Heq. unfold saveSessions. rewrite Hw1. cbn.
    by rewrite bool_decide_true by (by rewrite Hc1).
Qed.

(** Deleting the session on show, which is also the current one of the
    store: the page lists the remaining sessions, shows the one now in
    front, or nothing when none is left, and shows no slides; page and
    store agree on the current session. *)
Theorem handleDeleteSession_moves_to_front
    (sessionId : jsstring) (page : State) (service : Service)
    (shown : ChatSession.t) :
  window service = true →
  currentSession page = Some shown →
  ChatSession.id shown = sessionId →
  currentSessionId service = Some sessionId →
  let outcome := handleDeleteSession sessionId page service in
  let kept := filter (λ sess, ChatSession.id sess ≠ sessionId) (stored service) in
  chatSessions (fst outcome) = kept
  ∧ stored (snd outcome) = kept
  ∧ currentSession (fst outcome) = head kept
  ∧ Home.messages (fst outcome) = messagesOf (head kept)
  ∧ slides (fst outcome) = []
  ∧ ((∀ front, head kept = Some front → ChatSession.id front ≠ []) →
     fst (getCurrentSession (snd outcome)) = currentSession (fst outcome)).
Proof.
  intros Hw Hshown Hid Hptr outcome kept. subst outcome.
  unfold handleDeleteSession.
  destruct (deleteSession_state sessionId service Hw) as (Hst & Hcur).
  specialize (Hcur Hptr). fold kept in Hst, Hcur.
  set (service1 := deleteSession sessionId service) in *.
  rewrite (surjective_pairing (getSessions service1)).
  destruct (getSessions_after service1) as (Hsessions & Hst2 & _ & Hcur2).
  rewrite bool_decide_true by (by rewrite Hshown, <- Hid).
  cbn [fst snd]. rewrite Hsessions, Hst2, Hcur2, Hst.
  repeat split; try done.
  intros Hids. destruct kept as [|front rest] eqn:Hk; cbn.
  - by apply getCurrentSession_none_stored.
  - apply (getCurrentSession_head _ front rest); [done|done|].
    by apply Hids.
Qed.

(** ** Downloading from the page *)

(** [handleDownload] does not start the export pipeline for an empty
    deck.  For any other deck it starts a [pptx] download; in a browser in
    which the library calls succeed that run hands over the one file
    [presentation-<time>.pptx], and no alert is shown. *)
Theorem handleDownload_exports_nonempty_deck
    (env : PptGenerator.Browser) (page : State) :
  (slides page = [] → handleDownload env page = (None, false))
  ∧ (slides page ≠ [] →
     PptGenerator.has_window env = true →
     PptGenerator.import_pptxgenjs env = Return tt →
     (∀ i, (i < length (slides page))%nat →
        PptGenerator.addSlide env i = Return tt) →
     PptGenerator.writeFile env (ExportSpec.file_name env PptGenerator.pptx)
       (ExportSpec.rendered (slides page)) = Return tt →
     ∃ run,
       handleDownload env page
       = (Some (Return (lit "download-started"), run), false)
       ∧ PptGenerator.downloads run
         = [ExportSpec.file_name env PptGenerator.pptx]
       ∧ PptGenerator.slides run = ExportSpec.rendered (slides page)).
Proof.
  unfold handleDownload. split.
  - by intros ->.
  - intros Hne Hw Himport Hadd Hfile.
    rewrite bool_decide_false by (by destruct (slides page)).
    unfold PptGenerator.generatePresentation,
      PptGenerator.generatePresentation_body.
    rewrite Hw, Himport. PptGeneratorFacts.run_monad.
    rewrite PptGeneratorFacts.create_slides_all by (intros i Hi; by apply Hadd).
    cbn. fold (ExportSpec.rendered (slides page)).
    change (lit "presentation-" ++ decimal (PptGenerator.Date_now env)
            ++ lit "." ++ lit "pptx")
      with (ExportSpec.file_name env PptGenerator.pptx).
    rewrite Hfile. cbn. eexists. split; [reflexivity|]. by split.
Qed.

End HomeFacts.

(* ================================================================== *)
(** * The editor: opening and saving *)
(* ================================================================== *)

Module SlidePreviewMore.
Import SlidePreview PreviewSpec SlidePreviewFacts.

Lemma handleSave_filter (text : jsstring) :
  filter (λ line, truthy (trim line) = true) (split NEWLINE text)
  = filter visible (split NEWLINE text).
Proof. apply list_filter_iff. intros line. apply truthy_trim_visible. Qed.

Lemma filter_all_visible (lines : list jsstring) :
  Forall visible lines → filter visible lines = lines.
Proof.
  induction lines as [|line lines IH]; intros Hall; [done|].
  apply Forall_cons in Hall as [Hline Hrest].
  rewrite filter_cons_True by done. by rewrite IH.
Qed.

Lemma insert_same (slides : list Slide.t) i slide :
  slides !! i = Some slide → <[i := slide]> slides = slides.
Proof. apply list_insert_id. Qed.

(** Opening the editor on the current slide and saving at once, without
    typing: when no line of the slide holds a line break, the slide keeps
    its title and layout and exactly its visible lines, in their order;
    a slide all of whose lines are visible is handed back unchanged, and
    so is the whole document.  The editor is closed afterwards. *)
Theorem handleEdit_then_handleSave
    (slides : list Slide.t) (st : State) (currentSlide : Slide.t) :
  slides !! currentSlideIndex st = Some currentSlide →
  Forall (λ line, NEWLINE ∉ line) (Slide.content currentSlide) →
  let opened := handleEdit slides st in
  let saved :=
    {| Slide.title := Slide.title currentSlide;
       Slide.content := filter visible (Slide.content currentSlide);
       Slide.layout := Slide.layout currentSlide |} in
  isEditing opened = true
  ∧ fst (handleSave slides opened)
    = Some (<[currentSlideIndex st := saved]> slides)
  ∧ (Forall visible (Slide.content currentSlide) →
     fst (handleSave slides opened) = Some slides)
  ∧ isEditing (snd (handleSave slides opened)) = false.
Proof.
  intros Hcur Hlines opened saved. subst opened.
  unfold handleEdit. rewrite Hcur.
  unfold handleSave. cbn [currentSlideIndex setIsEditing setEditContent
                          editContent isEditing].
  rewrite Hcur. cbn [fst snd setIsEditing isEditing].
  rewrite handleSave_filter.
  assert (filter visible
            (split NEWLINE (join [NEWLINE] (Slide.content currentSlide)))
          = filter visible (Slide.content currentSlide)) as ->.
  { destruct (Slide.content currentSlide) as [|line lines] eqn:Hc.
    - done.
    - by rewrite ChatHistoryFacts.split_join. }
  split; [done|]. split; [done|]. split; [|done].
  intros Hvisible. f_equal.
  rewrite filter_all_visible by done.
  apply insert_same. rewrite Hcur. by destruct currentSlide.
Qed.

End SlidePreviewMore.

(* ================================================================== *)
(** * The session store on sample data *)
(* ================================================================== *)

Module ChatHistoryExamples.
Import ChatHistoryService StoreSpec ChatHistoryFacts TitleSpec Sample.

Example generateSessionTitle_short :
  generateSessionTitle (lit "Make slides about tea") = lit "Make slides about tea".
Proof. reflexivity. Qed.

Example generateSessionTitle_five_words :
  generateSessionTitle (lit "one two three four five six seven eight")
  = lit "one two three four five".
Proof. reflexivity. Qed.

Example generateSessionTitle_long :
  generateSessionTitle (lit "Create a three-slide presentation about verification")
  = lit "Create a three-slide presentat...".
Proof. reflexivity. Qed.

Example generateSessionTitle_tab :
  generateSessionTitle (N_of_ascii <$> ["a"; "009"; "b"]%char)
  = N_of_ascii <$> ["a"; "009"; "b"]%char.
Proof. reflexivity. Qed.

Lemma C8_getSessions_corrupt_witness :
  localStorage corrupt_service = Some Corrupt
  ∧ fst (getSessions corrupt_service) = []
  ∧ same_store corrupt_service (snd (getSessions corrupt_service))
  ∧ (window corrupt_service = true →
     console (snd (getSessions corrupt_service))
     = console corrupt_service ++ [lit "Error loading chat sessions:"]).
Proof.
  split; [reflexivity|].
  apply (C8_getSessions_corrupt_returns_empty corrupt_service).
  reflexivity.
Defined.

Example getSessions_corrupt_log :
  getSessions corrupt_service
  = ([], {| window := true; localStorage := Some Corrupt;
            currentSessionId := None;
            console := [lit "Error loading chat sessions:"] |}).
Proof. reflexivity. Qed.

Lemma C7_updateCurrentSessionSlides_witness :
  let s := service [user_message (lit "tea"); assistant_message (lit "done")] in
  let s' := updateCurrentSessionSlides 2000 [body_slide] s in
  current_target s
  = Some (0%nat, session [user_message (lit "tea"); assistant_message (lit "done")])
  ∧ ChatMessage.isUser (assistant_message (lit "done")) = false
  ∧ ∃ session' m',
      stored s' = <[0%nat := session']> (stored s)
      ∧ currentSessionId s' = currentSessionId s
      ∧ ChatSession.messages session' = [user_message (lit "tea")] ++ [m']
      ∧ ChatMessage.slides m' = Some [body_slide]
      ∧ ChatMessage.id m' = ChatMessage.id (assistant_message (lit "done"))
      ∧ ChatMessage.text m' = ChatMessage.text (assistant_message (lit "done"))
      ∧ ChatMessage.isUser m' = false
      ∧ ChatMessage.timestamp m'
        = ChatMessage.timestamp (assistant_message (lit "done"))
      ∧ ChatSession.id session'
        = ChatSession.id
            (session [user_message (lit "tea"); assistant_message (lit "done")])
      ∧ ChatSession.title session'
        = ChatSession.title
            (session [user_message (lit "tea"); assistant_message (lit "done")])
      ∧ ChatSession.createdAt session'
        = ChatSession.createdAt
            (session [user_message (lit "tea"); assistant_message (lit "done")])
      ∧ ChatSession.updatedAt session' = 2000%N.
Proof.
  intros s s'. split; [reflexivity|]. split; [reflexivity|].
  pose proof (C7_updateCurrentSessionSlides_frame 2000 [body_slide] s)
    as (_ & _ & _ & Hassistant).
  apply (Hassistant 0%nat
           (session [user_message (lit "tea"); assistant_message (lit "done")])
           [user_message (lit "tea")] (assistant_message (lit "done")));
    reflexivity.
Defined.

Example updateCurrentSessionSlides_last_is_user :
  updateCurrentSessionSlides 2000 [body_slide]
    (service [assistant_message (lit "hello"); user_message (lit "tea")])
  = service [assistant_message (lit "hello"); user_message (lit "tea")].
Proof. reflexivity. Qed.

Lemma C5_title_witness :
  current_target (service []) = Some (0%nat, session [])
  ∧ ∃ session',
    stored (addMessageToCurrentSession 1001 (lit "r") (user_message (lit "a b c d e f")) None
              (service []))
    = <[0%nat := session']> (stored (service []))
    ∧ ChatSession.messages session'
      = ChatSession.messages (session []) ++ [user_message (lit "a b c d e f")]
    ∧ (ChatMessage.isUser (user_message (lit "a b c d e f")) = true →
       Forall (λ m, ChatMessage.isUser m = false) (ChatSession.messages (session [])) →
       ChatSession.title session' = title_by_segments (lit "a b c d e f"))
    ∧ (ChatMessage.isUser (user_message (lit "a b c d e f")) = true →
       Exists (λ m, ChatMessage.isUser m = true) (ChatSession.messages (session [])) →
       ChatSession.title session' = ChatSession.title (session []))
    ∧ (ChatMessage.isUser (user_message (lit "a b c d e f")) = false →
       ChatSession.title session' = ChatSession.title (session []))
    ∧ (single_spaced (lit "a b c d e f") →
       title_by_segments (lit "a b c d e f") = title_by_words (lit "a b c d e f")).
Proof.
  split; [reflexivity|].
  apply (C5_title_from_first_user_message 1001 (lit "r")
           (user_message (lit "a b c d e f")) None (service []) 0%nat (session [])).
  reflexivity.
Defined.

(** Two spaces in a row: the code keeps the empty segment between them
    and so takes four words, where the first five whitespace-separated
    words are asked for. *)
Lemma C5_title_counterexample :
  ChatSession.title
    <$> stored (addMessageToCurrentSession 1001 (lit "r")
                  (user_message (lit "a  b c d e f")) None (service []))
  = [lit "a  b c d"]
  ∧ title_by_words (lit "a  b c d e f") = lit "a b c d e"
  ∧ lit "a  b c d" ≠ lit "a b c d e".
Proof. split; [reflexivity|]. split; [reflexivity|]. discriminate. Qed.

Lemma C9_dangling_pointer_witness :
  lit "gone" ≠ []
  ∧ (∀ sess, sess ∈ stored (service []) → ChatSession.id sess ≠ lit "gone")
  ∧ same_store (setCurrentSession (lit "gone") (service []))
    (addMessageToCurrentSession 1001 (lit "r") (user_message (lit "tea")) None
       (setCurrentSession (lit "gone") (service [])))
  ∧ stored (addMessageToCurrentSession 1001 (lit "r") (user_message (lit "tea")) None
              (setCurrentSession (lit "gone") (service [])))
    = stored (service []).
Proof.
  assert (∀ sess, sess ∈ stored (service []) → ChatSession.id sess ≠ lit "gone")
    as Hfresh.
  { intros sess Hin. apply list_elem_of_singleton in Hin. subst sess.
    discriminate. }
  split; [discriminate|]. split; [exact Hfresh|].
  apply (proj1 (C9_dangling_pointer_drops_message 1001 (lit "r")
                  (user_message (lit "tea")) None (service []))).
  - discriminate.
  - exact Hfresh.
Defined.

Example dangling_pointer_state :
  addMessageToCurrentSession 1001 (lit "r") (user_message (lit "tea")) None
    (setCurrentSession (lit "gone") (service []))
  = setCurrentSession (lit "gone") (service []).
Proof. reflexivity. Qed.

(** The empty string is an id no stored session has, yet the pointer set
    to it counts as unset: a session is created and holds the message. *)
Lemma C9_empty_id_counterexample :
  let s := setCurrentSession [] (service []) in
  (∀ sess, sess ∈ stored s → ChatSession.id sess ≠ [])
  ∧ ChatSession.id
      <$> stored (addMessageToCurrentSession 1001 (lit "r")
                    (user_message (lit "tea")) None s)
    = [lit "1001r"; lit "1000k3j9x0a1b"]
  ∧ ChatSession.messages
      <$> stored (addMessageToCurrentSession 1001 (lit "r")
                    (user_message (lit "tea")) None s)
    = [[user_message (lit "tea")]; []]
  ∧ ChatSession.id <$> stored s = [lit "1000k3j9x0a1b"].
Proof.
  split; [|split; [reflexivity|split; reflexivity]].
  intros sess Hin. apply list_elem_of_singleton in Hin. subst sess.
  discriminate.
Qed.

End ChatHistoryExamples.

(* ================================================================== *)
(** * The generation client on sample responses *)
(* ================================================================== *)

Module GeminiExamples.
Import GeminiService GeminiFacts Sample.

Example replace_fences_fenced_answer :
  trim (replace_fences fenced_answer)
  = lit "Here you go:json" ++ [NEWLINE] ++ empty_deck_text.
Proof. reflexivity. Qed.

Example parseResponse_fenced_answer :
  parseResponse JSON_parse fenced_answer = Return [].
Proof. reflexivity. Qed.

Example generateSlides_fenced_answer :
  generateSlides JSON_parse JSON_stringify (answering fenced_answer)
    INSTRUCTIONS (lit "tea") [] = Return [].
Proof. reflexivity. Qed.

Example parseResponse_no_json :
  parseResponse JSON_parse (lit "Sorry, I cannot help with that.")
  = Throw PARSE_FAILED.
Proof. reflexivity. Qed.

Example parseResponse_invalid_json :
  parseResponse JSON_parse (lit "{oops}") = Throw PARSE_FAILED.
Proof. reflexivity. Qed.

Example parseResponse_no_slides :
  parseResponse JSON_parse (lit "{}") = Throw PARSE_FAILED.
Proof. reflexivity. Qed.

Example generateSlides_no_json :
  generateSlides JSON_parse JSON_stringify
    (answering (lit "Sorry, I cannot help with that.")) INSTRUCTIONS
    (lit "tea") [] = Throw GENERATION_FAILED.
Proof. reflexivity. Qed.

Example generateSlides_invalid_json :
  generateSlides JSON_parse JSON_stringify (answering (lit "{oops}"))
    INSTRUCTIONS (lit "tea") [] = Throw GENERATION_FAILED.
Proof. reflexivity. Qed.

Example generateSlides_no_slides :
  generateSlides JSON_parse JSON_stringify (answering (lit "{}"))
    INSTRUCTIONS (lit "tea") [] = Throw GENERATION_FAILED.
Proof. reflexivity. Qed.

Example generateSlides_model_down :
  generateSlides JSON_parse JSON_stringify unreachable INSTRUCTIONS
    (lit "tea") [] = Throw GENERATION_FAILED.
Proof. reflexivity. Qed.

Lemma C1_parse_failure_witness :
  no_slide_document JSON_parse (lit "Sorry, I cannot help with that.")
  ∧ parseResponse JSON_parse (lit "Sorry, I cannot help with that.")
    = Throw PARSE_FAILED
  ∧ generateSlides JSON_parse JSON_stringify
      (answering (lit "Sorry, I cannot help with that.")) INSTRUCTIONS
      (lit "tea") [] = Throw GENERATION_FAILED
  ∧ GENERATION_FAILED ≠ PARSE_FAILED.
Proof.
  split; [left; reflexivity|].
  apply (C1_parse_failure_surfaces_as_generation_failure
           JSON_parse JSON_stringify
           (answering (lit "Sorry, I cannot help with that.")) INSTRUCTIONS
           (lit "tea") [] (lit "Sorry, I cannot help with that.")).
  - reflexivity.
  - left. reflexivity.
Defined.

End GeminiExamples.

(* ================================================================== *)
(** * The export pipeline and the editor on sample data *)
(* ================================================================== *)

Module PptGeneratorExamples.
Import PptGenerator ExportSpec PptGeneratorFacts Sample.

Example four_slide_percentages :
  Qred <$> (percentage <$> progress (snd (generatePresentation chrome deck false pptx start)))
  = [10; 30; 85 # 2; 55; 135 # 2; 90; 100]%Q.
Proof. reflexivity. Qed.

Example preview_returns_url :
  fst (generatePresentation chrome deck true pptx start)
  = Return (lit "blob:magicslides/1").
Proof. reflexivity. Qed.

Example pdf_download :
  let run := snd (generatePresentation chrome deck false pdf start) in
  downloads run = [lit "presentation-1700.pdf"]
  ∧ last (progress run) = Some (complete_event (lit "PDF download started!")).
Proof. split; reflexivity. Qed.

(** An empty document, every call succeeding: the run returns. *)
Lemma C2_empty_document_counterexample :
  generatePresentation chrome [] false pptx start
  = (Return (lit "download-started"),
     {| progress := [initializing_event; finalizing_event;
                     complete_event (lit "PPTX download started!")];
        slides := [];
        downloads := [lit "presentation-1700.pptx"] |}).
Proof. reflexivity. Qed.

Lemma C2_empty_document_witness :
  has_window chrome = true
  ∧ ∃ url,
      fst (generatePresentation chrome [] true pdf start) = Return url
      ∧ stage <$> progress (snd (generatePresentation chrome [] true pdf start))
        = [(initializing, 10%Q, None, None); (finalizing, 90%Q, None, None);
           (complete, 100%Q, None, None)].
Proof.
  split; [reflexivity|].
  apply (proj1 (C2_empty_document_is_exported chrome true pdf) eq_refl);
    reflexivity.
Defined.

(** Outside the browser the call fails and reports nothing: there is no
    [error] event. *)
Lemma C3_no_window_counterexample :
  generatePresentation server deck false pptx start
  = (Throw (mkError (lit "Presentation generation is only available in the browser")),
     {| progress := []; slides := []; downloads := [] |}).
Proof. reflexivity. Qed.

Lemma C3_progress_protocol_witness :
  has_window chrome = true
  ∧ fst (generatePresentation chrome deck false pptx start)
    = Return (lit "download-started")
  ∧ stage <$> progress (snd (generatePresentation chrome deck false pptx start))
    = stages_before_write 4 ++ [(complete, 100%Q, None, None)]
  ∧ StronglySorted Qle
      (percentage
         <$> progress (snd (generatePresentation chrome deck false pptx start))).
Proof.
  split; [reflexivity|]. split; [reflexivity|].
  apply (proj1 (proj2 (C3_progress_protocol chrome deck false pptx) eq_refl)
           (lit "download-started")).
  reflexivity.
Defined.

Lemma C4_pdf_fallback_witness :
  (∃ e, write chrome_without_blob (rendered deck) = Throw e)
  ∧ (let run := generatePresentation chrome_without_blob deck false pdf start in
     run
     = (Return (lit "download-started"),
        {| progress :=
             progress_before_write 4
             ++ [complete_event (lit "PPTX downloaded (PDF not available)")];
           slides := rendered deck;
           downloads := [lit "presentation-1700.pptx"] |})
     ∧ downloads (snd run) = [lit "presentation-1700.pptx"]
     ∧ stage <$> progress (snd run)
       = stages_before_write 4 ++ [(complete, 100%Q, None, None)]
     ∧ ∃ final,
         last (progress (snd run)) = Some final
         ∧ step final = complete
         ∧ message final = lit "PPTX downloaded (PDF not available)"
         ∧ percentage final = 100%Q).
Proof.
  split; [by eexists|].
  apply (C4_pdf_failure_falls_back_to_pptx chrome_without_blob deck).
  - reflexivity.
  - reflexivity.
  - intros i _. reflexivity.
  - left. by eexists.
  - reflexivity.
Defined.

Lemma C6_unknown_layout_witness :
  Slide.layout odd_slide ≠ TITLE
  ∧ Slide.layout odd_slide ≠ SECTION_HEADER
  ∧ background (createSimpleSlide blank odd_slide 3) = background blank
  ∧ ∃ titleOptions numberOptions,
      texts (createSimpleSlide blank odd_slide 3)
      = texts blank
        ++ (lit "Brewing", titleOptions)
           :: imap bullet_row [lit "Water"; lit "Time"]
        ++ [(decimal 4, numberOptions)]
      ∧ (x titleOptions, y titleOptions, align titleOptions)
        = ((1 # 2)%Q, (1 # 2)%Q, None)
      ∧ (x numberOptions, y numberOptions, align numberOptions)
        = ((17 # 2)%Q, (34 # 5)%Q, Some (lit "right")).
Proof.
  split; [discriminate|]. split; [discriminate|].
  apply (proj1 (proj2 (proj2 (C6_createSimpleSlide_layouts blank odd_slide 3))));
    discriminate.
Defined.

Example content_slide_texts :
  fst <$> texts (createSimpleSlide blank body_slide 2)
  = [lit "Kinds of tea";
     BULLET_PREFIX ++ lit "Green"; BULLET_PREFIX ++ lit "Black";
     BULLET_PREFIX ++ lit "Oolong"; lit "3"].
Proof. reflexivity. Qed.

Example title_slide_texts :
  fst <$> texts (createSimpleSlide blank intro_slide 0)
  = [lit "Tea"; lit "A short history"].
Proof. reflexivity. Qed.

Example section_slide_drawn :
  background (createSimpleSlide blank section_slide 1) = Some blue
  ∧ fst <$> texts (createSimpleSlide blank section_slide 1)
    = [lit "Part one"; lit "Origins"].
Proof. split; reflexivity. Qed.

End PptGeneratorExamples.

Module SlidePreviewExamples.
Import SlidePreview PreviewSpec SlidePreviewFacts Sample.

Example handleSave_editing :
  Slide.content <$> default [] (fst (handleSave deck editing))
  = [[lit "A short history"; lit "ignored line"];
     [lit "Origins"];
     [lit "Green"; lit "White"];
     [lit "Water"; lit "Time"]].
Proof. reflexivity. Qed.

Lemma C10_handleSave_witness :
  deck !! currentSlideIndex editing = Some body_slide
  ∧ ∃ updatedSlides saved,
      fst (handleSave deck editing) = Some updatedSlides
      ∧ updatedSlides !! currentSlideIndex editing = Some saved
      ∧ Slide.title saved = Slide.title body_slide
      ∧ Slide.layout saved = Slide.layout body_slide
      ∧ Slide.content saved
        = filter visible (split NEWLINE (editContent editing))
      ∧ Forall visible (Slide.content saved)
      ∧ length updatedSlides = length deck
      ∧ (∀ j, j ≠ currentSlideIndex editing → updatedSlides !! j = deck !! j).
Proof.
  split; [reflexivity|].
  apply (C10_handleSave_replaces_content deck editing body_slide).
  reflexivity.
Defined.

End SlidePreviewExamples.

(* ================================================================== *)
(** * The further properties on sample data *)
(* ================================================================== *)

Module ChatHistoryMoreExamples.
Import ChatHistoryService StoreSpec StoreMoreSpec ChatHistoryMore.
Import Sample MoreSamples.

Lemma createNewSession_front_and_current_witness :
  window two_sessions = true
  ∧ (let created := fst (createNewSession 2000 (lit "z9y8x7w6v") None two_sessions) in
     let s' := snd (createNewSession 2000 (lit "z9y8x7w6v") None two_sessions) in
     created = fresh_session 2000 (lit "z9y8x7w6v")
                 (default (lit "New Presentation") None)
     ∧ stored s' = created :: stored two_sessions
     ∧ fst (getCurrentSession s') = Some created).
Proof.
  split; [reflexivity|].
  apply (createNewSession_front_and_current 2000 (lit "z9y8x7w6v") None
           two_sessions).
  reflexivity.
Defined.

Lemma addMessage_then_getCurrentSession_witness :
  current_target two_sessions = Some (0%nat, session [])
  ∧ (let s' := addMessageToCurrentSession 2000 (lit "z9y8x7w6v")
                 (assistant_message (lit "done")) (Some [body_slide])
                 two_sessions in
     ∃ session' added,
       fst (getCurrentSession s') = Some session'
       ∧ ChatSession.id session' = ChatSession.id (session [])
       ∧ ChatSession.messages session'
         = ChatSession.messages (session []) ++ [added]
       ∧ ChatMessage.slides added = Some [body_slide]
       ∧ ChatMessage.id added = ChatMessage.id (assistant_message (lit "done"))
       ∧ ChatMessage.text added
         = ChatMessage.text (assistant_message (lit "done"))
       ∧ ChatMessage.isUser added
         = ChatMessage.isUser (assistant_message (lit "done"))
       ∧ ChatMessage.timestamp added
         = ChatMessage.timestamp (assistant_message (lit "done"))
       ∧ ChatSession.createdAt session' = ChatSession.createdAt (session [])
       ∧ ChatSession.updatedAt session' = 2000%N
       ∧ length (stored s') = length (stored two_sessions)
       ∧ (∀ j, j ≠ 0%nat → stored s' !! j = stored two_sessions !! j)).
Proof.
  split; [reflexivity|].
  apply (addMessage_then_getCurrentSession 2000 (lit "z9y8x7w6v")
           (assistant_message (lit "done")) (Some [body_slide])
           two_sessions 0 (session [])).
  reflexivity.
Defined.

Lemma deleteSession_removes_and_repoints_witness :
  window two_sessions = true
  ∧ currentSessionId two_sessions = Some (lit "1000k3j9x0a1b")
  ∧ stored (deleteSession (lit "1000k3j9x0a1b") two_sessions) = [archived]
  ∧ currentSessionId (deleteSession (lit "1000k3j9x0a1b") two_sessions)
    = Some (ChatSession.id archived)
  ∧ fst (getCurrentSession (deleteSession (lit "1000k3j9x0a1b") two_sessions))
    = Some archived.
Proof.
  split; [reflexivity|]. split; [reflexivity|].
  pose proof (deleteSession_removes_and_repoints (lit "1000k3j9x0a1b")
                two_sessions eq_refl) as (Hkept & _ & _ & Hmoved & _).
  specialize (Hmoved eq_refl).
  change (stored (deleteSession (lit "1000k3j9x0a1b") two_sessions))
    with [archived] in Hkept, Hmoved.
  destruct Hmoved as [Hpointer Hcurrent].
  split; [reflexivity|]. split; [exact Hpointer|].
  apply Hcurrent. discriminate.
Defined.

Lemma clearAllSessions_leaves_default_witness :
  window two_sessions = true
  ∧ (let s' := clearAllSessions 2000 (lit "z9y8x7w6v") two_sessions in
     stored s' = [fresh_session 2000 (lit "z9y8x7w6v") (lit "New Presentation")]
     ∧ fst (getCurrentSession s')
       = Some (fresh_session 2000 (lit "z9y8x7w6v") (lit "New Presentation"))).
Proof.
  split; [reflexivity|].
  apply (clearAllSessions_leaves_default 2000 (lit "z9y8x7w6v") two_sessions).
  reflexivity.
Defined.

Lemma new_service_has_current_witness :
  (∀ front rest,
     Some (Serialized [session []; archived]) = Some (Serialized (front :: rest)) →
     ChatSession.id front ≠ [])
  ∧ (let s := new 2000 (lit "z9y8x7w6v") true
                (Some (Serialized [session []; archived])) in
     ∃ current,
       fst (getCurrentSession s) = Some current
       ∧ head (stored s) = Some current
       ∧ current = session [] ∧ stored s = [session []; archived]).
Proof.
  assert (∀ front rest,
            Some (Serialized [session []; archived])
            = Some (Serialized (front :: rest)) →
            ChatSession.id front ≠ []) as Hids.
  { intros front rest [= <- _]. discriminate. }
  split; [exact Hids|].
  apply (new_service_has_current 2000 (lit "z9y8x7w6v")
           (Some (Serialized [session []; archived])) Hids).
Defined.

Lemma no_window_nothing_stored_witness :
  window rendering_on_server = false
  ∧ stored rendering_on_server = []
  ∧ (∀ s', s' ∈ [snd (createNewSession 2000 (lit "z9y8x7w6v") None
                        rendering_on_server);
                 addMessageToCurrentSession 2000 (lit "z9y8x7w6v")
                   (user_message (lit "tea")) None rendering_on_server;
                 updateCurrentSessionSlides 2000 deck rendering_on_server;
                 deleteSession (lit "1000k3j9x0a1b") rendering_on_server;
                 clearAllSessions 2000 (lit "z9y8x7w6v") rendering_on_server;
                 ensureDefaultSession 2000 (lit "z9y8x7w6v")
                   rendering_on_server] →
       window s' = false
       ∧ localStorage s' = localStorage rendering_on_server
       ∧ stored s' = []
       ∧ fst (getCurrentSession s') = None).
Proof.
  split; [reflexivity|].
  apply (no_window_nothing_stored 2000 (lit "z9y8x7w6v")
           (user_message (lit "tea")) None deck None (lit "1000k3j9x0a1b")
           rendering_on_server).
  reflexivity.
Defined.

Lemma generateSessionTitle_shape_witness :
  (length (lit "Make slides about tea") ≤ 30)%nat
  ∧ (length (split SPACE (lit "Make slides about tea")) ≤ 5)%nat
  ∧ generateSessionTitle (lit "Make slides about tea")
    = lit "Make slides about tea".
Proof.
  assert (length (lit "Make slides about tea") ≤ 30)%nat as Hshort
    by (vm_compute; lia).
  assert (length (split SPACE (lit "Make slides about tea")) ≤ 5)%nat as Hwords
    by (vm_compute; lia).
  split; [exact Hshort|]. split; [exact Hwords|].
  exact (proj2 (proj2 (generateSessionTitle_shape (lit "Make slides about tea")))
           Hshort Hwords).
Defined.

End ChatHistoryMoreExamples.

Module GeminiMoreExamples.
Import GeminiService GeminiSetup GeminiMore.
Import Sample MoreSamples.

Lemma constructor_picks_first_available_witness :
  constructor jsstring getGenerativeModel (Some (lit "AIza-sample-key"))
  = Return (lit "models/gemini-2.5-pro").
Proof.
  apply (proj1 (constructor_picks_first_available jsstring getGenerativeModel
                  (Some (lit "AIza-sample-key")))).
  exists (lit "AIza-sample-key"), [lit "models/gemini-2.5-flash"],
    (lit "models/gemini-2.5-pro"), [lit "models/gemini-2.0-flash"].
  split; [reflexivity|]. split; [discriminate|]. split; [reflexivity|].
  split; [|reflexivity].
  constructor; [|constructor]. by eexists.
Defined.

Lemma parseResponse_needs_both_braces_witness :
  (OPEN_BRACE ∉ lit "Sorry, I cannot help with that."
   ∨ CLOSE_BRACE ∉ lit "Sorry, I cannot help with that.")
  ∧ parseResponse JSON_parse (lit "Sorry, I cannot help with that.")
    = Throw PARSE_FAILED
  ∧ parseResponse_body JSON_parse (lit "Sorry, I cannot help with that.")
    = Throw (mkError (lit "No JSON found in response")).
Proof.
  assert (OPEN_BRACE ∉ lit "Sorry, I cannot help with that."
          ∨ CLOSE_BRACE ∉ lit "Sorry, I cannot help with that.") as Hnone.
  { left. apply (bool_decide_unpack _). vm_compute. exact I. }
  split; [exact Hnone|].
  exact (parseResponse_needs_both_braces JSON_parse
           (lit "Sorry, I cannot help with that.") Hnone).
Defined.

Lemma generateSlides_outcome_witness :
  GeminiService.generateSlides JSON_parse JSON_stringify unreachable
    INSTRUCTIONS (lit "Slides about tea") []
  = Throw GENERATION_FAILED.
Proof.
  apply (proj1 (proj2 (proj2
    (generateSlides_outcome JSON_parse JSON_stringify unreachable INSTRUCTIONS
       (lit "Slides about tea") [])))
    (mkError (lit "fetch failed"))).
  reflexivity.
Defined.

Lemma parseResponse_ignores_surroundings_witness :
  let pre := lit "Here you go:" ++ [NEWLINE] ++ FENCE_JSON ++ [NEWLINE] in
  let body := [DOUBLE_QUOTE] ++ lit "slides" ++ [DOUBLE_QUOTE] ++ lit ":[]" in
  let post := [NEWLINE] ++ FENCE ++ lit " Enjoy!" in
  let obj := OPEN_BRACE :: body ++ [CLOSE_BRACE] in
  (OPEN_BRACE ∉ pre) ∧ (CLOSE_BRACE ∉ post) ∧ (BACKTICK ∉ body)
  ∧ match_object (trim (replace_fences (pre ++ obj ++ post))) = Some obj
  ∧ parseResponse JSON_parse (pre ++ obj ++ post)
    = parseResponse JSON_parse obj.
Proof.
  intros pre body post obj.
  assert (OPEN_BRACE ∉ pre) as Hpre
    by (apply (bool_decide_unpack _); vm_compute; exact I).
  assert (CLOSE_BRACE ∉ post) as Hpost
    by (apply (bool_decide_unpack _); vm_compute; exact I).
  assert (BACKTICK ∉ body) as Hbody
    by (apply (bool_decide_unpack _); vm_compute; exact I).
  split; [exact Hpre|]. split; [exact Hpost|]. split; [exact Hbody|].
  exact (parseResponse_ignores_surroundings JSON_parse pre body post
           Hpre Hpost Hbody).
Defined.

End GeminiMoreExamples.

Module PptGeneratorMoreExamples.
Import PptGenerator ExportSpec PptGeneratorMore.
Import Sample MoreSamples.

Lemma generatePresentation_accounting_witness :
  fst (generatePresentation chrome deck false pptx start)
  = Return (lit "download-started")
  ∧ PptGenerator.slides (snd (generatePresentation chrome deck false pptx start))
    = rendered deck
  ∧ length (rendered deck) = length deck
  ∧ (∀ i slideData, deck !! i = Some slideData →
       rendered deck !! i = Some (createSimpleSlide blank slideData i))
  ∧ lit "download-started" = lit "download-started"
  ∧ (downloads (snd (generatePresentation chrome deck false pptx start))
     = [file_name chrome pptx]
     ∨ (pptx = pdf
        ∧ downloads (snd (generatePresentation chrome deck false pptx start))
          = [file_name chrome pptx])).
Proof.
  split; [reflexivity|].
  apply (proj2 (generatePresentation_accounting chrome deck false pptx)
           (lit "download-started")).
  reflexivity.
Defined.

Lemma generatePresentation_stops_at_failing_slide_witness :
  has_window flaky = true
  ∧ import_pptxgenjs flaky = Return tt
  ∧ (2 < length deck)%nat
  ∧ (∀ i, (i < 2)%nat → addSlide flaky i = Return tt)
  ∧ addSlide flaky 2 = Throw (mkError (lit "out of memory"))
  ∧ (let run := generatePresentation flaky deck false pptx start in
     fst run = Throw (mkError (lit "out of memory"))
     ∧ PptGenerator.slides (snd run) = rendered (take 2 deck)
     ∧ downloads (snd run) = []
     ∧ stage <$> progress (snd run)
       = (initializing, 10%Q, None, None)
         :: (creating_stage (length deck) <$> seq 0 2)
         ++ [(error, 0%Q, None, None)]
     ∧ message <$> last (progress (snd run))
       = Some (lit "Error generating presentation. Please try again.")).
Proof.
  assert (2 < length deck)%nat as Hlt by (vm_compute; lia).
  assert (∀ i, (i < 2)%nat → addSlide flaky i = Return tt) as Hbefore.
  { intros i Hi. destruct i as [|[|i]]; [reflexivity|reflexivity|lia]. }
  split; [reflexivity|]. split; [reflexivity|]. split; [exact Hlt|].
  split; [exact Hbefore|]. split; [reflexivity|].
  exact (generatePresentation_stops_at_failing_slide flaky deck false pptx 2
           (mkError (lit "out of memory")) eq_refl eq_refl Hlt Hbefore eq_refl).
Defined.

Lemma old_and_new_generators_agree_witness :
  has_window chrome = true
  ∧ (false = true ∨ pdf = pptx
     ∨ (write chrome (rendered deck) = Return tt
        ∧ downloadBlob chrome (file_name chrome pdf) = Return tt))
  ∧ (let old := OldPptGenerator.generatePresentation chrome deck false pdf start in
     let new := generatePresentation chrome deck false pdf start in
     fst old = fst new
     ∧ PptGenerator.slides (snd old) = PptGenerator.slides (snd new)
     ∧ downloads (snd old) = downloads (snd new)
     ∧ stage <$> progress (snd old) = stage <$> progress (snd new)).
Proof.
  assert (false = true ∨ pdf = pptx
          ∨ (write chrome (rendered deck) = Return tt
             ∧ downloadBlob chrome (file_name chrome pdf) = Return tt)) as Hpdf.
  { right. right. split; reflexivity. }
  split; [reflexivity|]. split; [exact Hpdf|].
  exact (old_and_new_generators_agree chrome deck false pdf eq_refl Hpdf).
Defined.

Lemma old_generator_has_no_fallback_witness :
  has_window chrome_without_blob = true
  ∧ import_pptxgenjs chrome_without_blob = Return tt
  ∧ (∀ i, (i < length deck)%nat → addSlide chrome_without_blob i = Return tt)
  ∧ write chrome_without_blob (rendered deck)
    = Throw (mkError (lit "blob output unavailable"))
  ∧ (let old :=
       OldPptGenerator.generatePresentation chrome_without_blob deck false pdf
         start in
     fst old = Throw (mkError (lit "blob output unavailable"))
     ∧ PptGenerator.slides (snd old) = rendered deck
     ∧ downloads (snd old) = []
     ∧ stage <$> progress (snd old)
       = stages_before_write (length deck) ++ [(error, 0%Q, None, None)]
     ∧ (writeFile chrome_without_blob (file_name chrome_without_blob pptx)
          (rendered deck) = Return tt →
        fst (generatePresentation chrome_without_blob deck false pdf start)
        = Return (lit "download-started"))).
Proof.
  split; [reflexivity|]. split; [reflexivity|].
  split; [intros i _; reflexivity|]. split; [reflexivity|].
  apply (old_generator_has_no_fallback chrome_without_blob deck
           (mkError (lit "blob output unavailable"))).
  - reflexivity.
  - reflexivity.
  - intros i _. reflexivity.
  - reflexivity.
Defined.

End PptGeneratorMoreExamples.

Module HomeExamples.
Import ChatHistoryService StoreSpec StoreMoreSpec Home HomeFacts.
Import Sample MoreSamples.

Lemma restoredSlides_last_assistant_deck_witness :
  ChatSession.messages archived
  = [user_message (lit "Coffee")] ++ deck_message
    :: [user_message (lit "shorter please")]
  ∧ ChatMessage.isUser deck_message = false
  ∧ ChatMessage.slides deck_message = Some [body_slide]
  ∧ Forall (λ x, ChatMessage.isUser x = true ∨ ChatMessage.slides x = None)
      [user_message (lit "shorter please")]
  ∧ lastAiMessage (ChatSession.messages archived) = Some deck_message
  ∧ restoredSlides (ChatSession.messages archived) = [body_slide].
Proof.
  assert (Forall (λ x, ChatMessage.isUser x = true ∨ ChatMessage.slides x = None)
            [user_message (lit "shorter please")]) as Hafter.
  { constructor; [by left|constructor]. }
  split; [reflexivity|]. split; [reflexivity|]. split; [reflexivity|].
  split; [exact Hafter|].
  exact (proj1 (restoredSlides_last_assistant_deck (ChatSession.messages archived))
           [user_message (lit "Coffee")] deck_message
           [user_message (lit "shorter please")] [body_slide]
           eq_refl eq_refl eq_refl Hafter).
Defined.


Lemma handleSelectSession_shows_session_witness :
  ChatSession.id archived ≠ []
  ∧ stored two_sessions = [session []] ++ archived :: []
  ∧ Forall (λ sess, ChatSession.id sess ≠ ChatSession.id archived) [session []]
  ∧ (let outcome :=
       handleSelectSession (ChatSession.id archived) (page [] []) two_sessions in
     currentSession (fst outcome) = Some archived
     ∧ Home.messages (fst outcome) = ChatSession.messages archived
     ∧ slides (fst outcome) = restoredSlides (ChatSession.messages archived)
     ∧ fst (getCurrentSession (snd outcome)) = Some archived
     ∧ stored (snd outcome) = stored two_sessions).
Proof.
  assert (ChatSession.id archived ≠ []) as Hid by discriminate.
  assert (Forall (λ sess, ChatSession.id sess ≠ ChatSession.id archived)
            [session []]) as Hbefore.
  { constructor; [discriminate|constructor]. }
  split; [exact Hid|]. split; [reflexivity|]. split; [exact Hbefore|].
  exact (proj1 (handleSelectSession_shows_session (ChatSession.id archived)
                  (page [] []) two_sessions)
           [session []] archived [] Hid eq_refl eq_refl Hbefore).
Defined.

Lemma handleNewChat_opens_empty_session_witness :
  window two_sessions = true
  ∧ (let outcome :=
       handleNewChat 2000 (lit "z9y8x7w6v") (page [] deck) two_sessions in
     let opened := fresh_session 2000 (lit "z9y8x7w6v") (lit "New Presentation") in
     currentSession (fst outcome) = Some opened
     ∧ Home.messages (fst outcome) = []
     ∧ slides (fst outcome) = []
     ∧ chatSessions (fst outcome) = opened :: stored two_sessions
     ∧ stored (snd outcome) = opened :: stored two_sessions
     ∧ fst (getCurrentSession (snd outcome)) = Some opened).
Proof.
  split; [reflexivity|].
  apply (handleNewChat_opens_empty_session 2000 (lit "z9y8x7w6v")
           (page [] deck) two_sessions).
  reflexivity.
Defined.

Lemma handleDeleteSession_moves_to_front_witness :
  window two_sessions = true
  ∧ currentSession (page [] deck) = Some (session [])
  ∧ currentSessionId two_sessions = Some (ChatSession.id (session []))
  ∧ (let outcome :=
       handleDeleteSession (ChatSession.id (session [])) (page [] deck)
         two_sessions in
     let kept :=
       filter (λ sess, ChatSession.id sess ≠ ChatSession.id (session []))
         (stored two_sessions) in
     chatSessions (fst outcome) = kept
     ∧ stored (snd outcome) = kept
     ∧ currentSession (fst outcome) = head kept
     ∧ Home.messages (fst outcome) = messagesOf (head kept)
     ∧ slides (fst outcome) = []
     ∧ ((∀ front, head kept = Some front → ChatSession.id front ≠ []) →
        fst (getCurrentSession (snd outcome)) = currentSession (fst outcome))).
Proof.
  split; [reflexivity|]. split; [reflexivity|]. split; [reflexivity|].
  apply (handleDeleteSession_moves_to_front (ChatSession.id (session []))
           (page [] deck) two_sessions (session []));
    reflexivity.
Defined.

Lemma handleDownload_exports_nonempty_deck_witness :
  slides (page [] deck) ≠ []
  ∧ PptGenerator.has_window chrome = true
  ∧ ∃ run,
      handleDownload chrome (page [] deck)
      = (Some (Return (lit "download-started"), run), false)
      ∧ PptGenerator.downloads run
        = [ExportSpec.file_name chrome PptGenerator.pptx]
      ∧ PptGenerator.slides run = ExportSpec.rendered (slides (page [] deck)).
Proof.
  assert (slides (page [] deck) ≠ []) as Hdeck by discriminate.
  split; [exact Hdeck|]. split; [reflexivity|].
  apply (proj2 (handleDownload_exports_nonempty_deck chrome (page [] deck))
           Hdeck eq_refl eq_refl).
  - intros i _. reflexivity.
  - reflexivity.
Defined.

End HomeExamples.

Module SlidePreviewMoreExamples.
Import SlidePreview PreviewSpec SlidePreviewMore.
Import Sample MoreSamples.

Lemma handleEdit_then_handleSave_witness :
  deck !! currentSlideIndex viewing = Some body_slide
  ∧ Forall (λ line, NEWLINE ∉ line) (Slide.content body_slide)
  ∧ Forall visible (Slide.content body_slide)
  ∧ isEditing (handleEdit deck viewing) = true
  ∧ fst (handleSave deck (handleEdit deck viewing)) = Some deck
  ∧ isEditing (snd (handleSave deck (handleEdit deck viewing))) = false.
Proof.
  assert (Forall (λ line, NEWLINE ∉ line) (Slide.content body_slide)) as Hlines.
  { apply (bool_decide_unpack _). vm_compute. exact I. }
  assert (Forall visible (Slide.content body_slide)) as Hvisible.
  { apply (bool_decide_unpack _). vm_compute. exact I. }
  pose proof (handleEdit_then_handleSave deck viewing body_slide eq_refl Hlines)
    as (Hopen & _ & Hsame & Hclosed).
  split; [reflexivity|]. split; [exact Hlines|]. split; [exact Hvisible|].
  split; [exact Hopen|]. split; [exact (Hsame Hvisible)|exact Hclosed].
Defined.

End SlidePreviewMoreExamples.
